(** * haliax.partitioning: scoped axis mappings, partition specs and the
    cached pjit wrapper

    A shallow embedding of [src/haliax/partitioning.py] (with the part of
    [src/haliax/jax_utils.py] it calls).  Python dictionaries keyed by axis
    names are finite maps, module-level and thread-local state is threaded
    explicitly through a state-and-exception monad, and the JAX / Equinox
    primitives the module calls are modelled by their documented contract. *)

From Stdlib Require Import ZArith List Bool Lia.
From stdpp Require Import base decidable option list gmap strings fin_maps.

Open Scope Z_scope.
Open Scope string_scope.

(** ** Data model *)

(** [haliax.types.Axis]: a name and a size. *)
Record Axis := mkAxis { axis_name : string; axis_size : Z }.

(** [AxisSelector = Union[Axis, str]]. *)
Inductive AxisSelector :=
| SelStr (name : string)
| SelAxis (a : Axis).

(** [PhysicalAxisSpec = Union[PhysicalAxis, Sequence[PhysicalAxis]]]. *)
Inductive PhysicalAxisSpec :=
| Phys (p : string)
| PhysSeq (ps : list string).

(** [ResourceMapping = Mapping[LogicalAxisName, PhysicalAxisSpec]]. *)
Abbreviation ResourceMapping := (gmap string PhysicalAxisSpec).

(** [jax.interpreters.pxla.PartitionSpec]: a tuple with one entry per
    dimension; [None] stands for a replicated dimension. *)
Abbreviation PartitionSpec := (list (option PhysicalAxisSpec)).

(** The device mesh of [jax.experimental.maps.thread_resources.env]:
    [shape] maps physical axis names to sizes; [mesh_addressable] tells
    whether every device of the mesh is addressable from this process. *)
Record Mesh := mkMesh { mesh_shape : gmap string Z; mesh_addressable : bool }.

(** Array placements ([jax.sharding]). *)
Inductive Sharding :=
| NamedSharding (mesh : Mesh) (pspec : PartitionSpec)
| SingleDeviceSharding (device : nat)
| OtherSharding (tag : nat).

(** A raw array: the identity of its contents, shape, dtype and placement. *)
Record Array := mkArray {
  arr_data : nat;
  arr_shape : list Z;
  arr_dtype : string;
  arr_sharding : Sharding
}.

(** Non-array leaves of a PyTree.  A Python function is hashed and compared
    by identity, hence [AFun]. *)
Inductive Atom :=
| AInt (z : Z)
| AStr (s : string)
| ABool (b : bool)
| AFun (id : nat).

(** Leaves of the trees handled by the module. *)
Inductive Leaf :=
| LArray (a : Array)                          (* a concrete array *)
| LShape (shape : list Z) (dtype : string)    (* jax.ShapeDtypeStruct *)
| LAtom (v : Atom)                            (* any other Python value *)
| LSpec (p : PartitionSpec)                   (* a PartitionSpec *)
| LSharding (s : Sharding).                   (* a sharding object *)

(** Interior nodes, as in a JAX treedef: the node type with its auxiliary
    data.  [None] is a node without children; a [NamedArray] is a node
    whose auxiliary data is its axes and whose only child is its array. *)
Inductive NodeKind :=
| KNone
| KTuple
| KList
| KDict (keys : list string)
| KNamed (axes : list Axis).

#[local] Unset Elimination Schemes.
Inductive PyTree :=
| TLeaf (l : Leaf)
| TNode (k : NodeKind) (children : list PyTree).
#[local] Set Elimination Schemes.

Definition TNone : PyTree := TNode KNone [].

(** [NamedArray(array, axes)]. *)
Definition TNamed (array : PyTree) (axes : list Axis) : PyTree :=
  TNode (KNamed axes) [array].

(** Exceptions raised by the module, by the dictionaries it indexes and by
    JAX; [JaxTypeError] is the [TypeError] that JAX raises for a value that
    is not a valid JAX type. *)
Inductive exn :=
| ValueError (msg : string)
| KeyError (key : string)
| AttributeError (attr : string)
| ZeroDivisionError
| RuntimeError (msg : string)
| JaxTypeError (msg : string).

Inductive outcome (A : Type) :=
| Return (a : A)
| Raise (e : exn).
Arguments Return {A} a.
Arguments Raise {A} e.

(** ** Decidable equality of the data model *)

#[global] Instance Axis_eq_dec : EqDecision Axis.
Proof. solve_decision. Defined.
#[global] Instance AxisSelector_eq_dec : EqDecision AxisSelector.
Proof. solve_decision. Defined.
#[global] Instance PhysicalAxisSpec_eq_dec : EqDecision PhysicalAxisSpec.
Proof. solve_decision. Defined.
#[global] Instance Mesh_eq_dec : EqDecision Mesh.
Proof. solve_decision. Defined.
#[global] Instance Sharding_eq_dec : EqDecision Sharding.
Proof. solve_decision. Defined.
#[global] Instance Array_eq_dec : EqDecision Array.
Proof. solve_decision. Defined.
#[global] Instance Atom_eq_dec : EqDecision Atom.
Proof. solve_decision. Defined.
#[global] Instance Leaf_eq_dec : EqDecision Leaf.
Proof. solve_decision. Defined.
#[global] Instance NodeKind_eq_dec : EqDecision NodeKind.
Proof. solve_decision. Defined.
#[global] Instance exn_eq_dec : EqDecision exn.
Proof. solve_decision. Defined.

(** Structural equality of trees, as a boolean. *)
Fixpoint tree_eqb (t u : PyTree) {struct t} : bool :=
  match t, u with
  | TLeaf l, TLeaf l' => bool_decide (l = l')
  | TNode k ts, TNode k' us =>
      bool_decide (k = k') &&
      (fix go (ts us : list PyTree) {struct ts} : bool :=
         match ts, us with
         | [], [] => true
         | t :: ts', u :: us' => tree_eqb t u && go ts' us'
         | _, _ => false
         end) ts us
  | _, _ => false
  end.

Definition trees_eqb : list PyTree → list PyTree → bool :=
  fix go (ts us : list PyTree) {struct ts} : bool :=
    match ts, us with
    | [], [] => true
    | t :: ts', u :: us' => tree_eqb t u && go ts' us'
    | _, _ => false
    end.

(** An induction principle that reaches the children of a node. *)
Lemma PyTree_ind (P : PyTree → Prop) :
  (∀ l, P (TLeaf l)) →
  (∀ k ts, Forall P ts → P (TNode k ts)) →
  ∀ t, P t.
Proof.
  intros Hleaf Hnode.
  fix IH 1. intros [l | k ts].
  - apply Hleaf.
  - apply Hnode. induction ts as [| t ts IHts]; constructor.
    + apply IH.
    + exact IHts.
Defined.

Lemma tree_eqb_node k ts k' us :
  tree_eqb (TNode k ts) (TNode k' us) = bool_decide (k = k') && trees_eqb ts us.
Proof. reflexivity. Qed.

Lemma tree_eqb_spec t : ∀ u, tree_eqb t u = true ↔ t = u.
Proof.
  induction t as [l | k ts IH] using PyTree_ind; intros [l' | k' us];
    try (simpl; split; [discriminate | discriminate]).
  - simpl. rewrite bool_decide_eq_true. split; congruence.
  - rewrite tree_eqb_node, andb_true_iff, bool_decide_eq_true.
    assert (Hts : ∀ us, trees_eqb ts us = true ↔ ts = us).
    { clear k k'. induction IH as [| t ts Ht _ IHts]; intros [| u us']; simpl;
        try (split; [discriminate | discriminate]); [tauto |].
      rewrite andb_true_iff, Ht, IHts. split; [intros [-> ->]; reflexivity |].
      intros [= -> ->]; tauto. }
    rewrite Hts. split; [intros [-> ->]; reflexivity | intros [= -> ->]; tauto].
Qed.

#[global] Instance PyTree_eq_dec : EqDecision PyTree.
Proof.
  intros t u. destruct (tree_eqb t u) eqn:E.
  - left. apply tree_eqb_spec, E.
  - right. intros H. apply tree_eqb_spec in H. congruence.
Defined.

(** ** Module state and the state-and-exception monad *)

(** Key of the memo table that [compile_cache] puts in front of
    [_named_pjit_cache]: its positional and keyword arguments. *)
Record PjitKey := mkPjitKey {
  key_fun_names : string * string;
  key_jitkwargs : gmap string PyTree
}.

(** Key under which a pjit-compiled callable keeps an executable: the
    callable, the value of its static argument ([static_argnums=2]), as
    Python hashes and compares it, and the shape skeletons of its two array
    arguments. *)
Record ExecKey := mkExecKey {
  exec_pjit : nat;
  exec_static : PyTree;
  exec_donated : PyTree;
  exec_reserved : PyTree
}.

(** An executable: its key, and the static argument of the call that it was
    traced and compiled for, which is the one it computes with. *)
Record Executable := mkExecutable {
  exe_key : ExecKey;
  exe_static : PyTree
}.

(** What the array backend was asked to do outside of compiled code. *)
Inductive BackendOp :=
| DevicePut (data : nat) (target : Sharding)
| MakeArrayFromCallback (data : nat) (target : Sharding)
| ShardingConstraint (pspec : PartitionSpec).

#[global] Instance PjitKey_eq_dec : EqDecision PjitKey.
Proof. solve_decision. Defined.
#[global] Instance ExecKey_eq_dec : EqDecision ExecKey.
Proof. solve_decision. Defined.
#[global] Instance Executable_eq_dec : EqDecision Executable.
Proof. solve_decision. Defined.
#[global] Instance BackendOp_eq_dec : EqDecision BackendOp.
Proof. solve_decision. Defined.

(** Everything the module reads or writes besides its arguments, for the
    thread that imported the module (the one for which
    [_ResourceMappingHolder.__init__] ran). *)
Record World := mkWorld {
  (* _mapping_holder.thread_data.resource_mapping *)
  resource_mapping : option ResourceMapping;
  (* thread_resources.env; None when the attribute lookup fails *)
  thread_env : option Mesh;
  (* _is_jit_context() *)
  jit_context : bool;
  (* _eval_shape_cache, in insertion order *)
  eval_shape_cache : list (PyTree * PyTree);
  (* the memo table of compile_cache around _named_pjit_cache *)
  named_pjit_cache : list (PjitKey * nat);
  (* number of callables built by pjit(...) so far *)
  pjit_built : nat;
  (* executables compiled by the backend, oldest first *)
  executables : list Executable;
  (* transfers and constraints requested from the backend, oldest first *)
  backend_log : list BackendOp
}.

Definition set_resource_mapping (m : option ResourceMapping) (w : World) : World :=
  mkWorld m (thread_env w) (jit_context w) (eval_shape_cache w)
          (named_pjit_cache w) (pjit_built w) (executables w) (backend_log w).

Definition set_eval_shape_cache (c : list (PyTree * PyTree)) (w : World) : World :=
  mkWorld (resource_mapping w) (thread_env w) (jit_context w) c
          (named_pjit_cache w) (pjit_built w) (executables w) (backend_log w).

Definition set_named_pjit_cache (c : list (PjitKey * nat)) (n : nat) (w : World) : World :=
  mkWorld (resource_mapping w) (thread_env w) (jit_context w) (eval_shape_cache w)
          c n (executables w) (backend_log w).

Definition set_executables (e : list Executable) (w : World) : World :=
  mkWorld (resource_mapping w) (thread_env w) (jit_context w) (eval_shape_cache w)
          (named_pjit_cache w) (pjit_built w) e (backend_log w).

Definition log_backend (op : BackendOp) (w : World) : World :=
  mkWorld (resource_mapping w) (thread_env w) (jit_context w) (eval_shape_cache w)
          (named_pjit_cache w) (pjit_built w) (executables w) (backend_log w ++ [op]).

(** A computation reads and updates the world and either returns or
    raises; updates made before a raise persist. *)
Definition M (A : Type) : Type := World → outcome A * World.

Definition ret {A} (a : A) : M A := fun w => (Return a, w).
Definition raise {A} (e : exn) : M A := fun w => (Raise e, w).
Definition bind {A B} (c : M A) (k : A → M B) : M B := fun w =>
  match c w with
  | (Return a, w') => k a w'
  | (Raise e, w') => (Raise e, w')
  end.
Definition lift_outcome {A} (o : outcome A) : M A := fun w => (o, w).
Definition gets {A} (f : World → A) : M A := fun w => (Return (f w), w).
Definition modify (f : World → World) : M unit := fun w => (Return tt, f w).

(** [try: body finally: cleanup], where the cleanup cannot raise. *)
Definition finally {A} (body : M A) (cleanup : World → World) : M A := fun w =>
  let (r, w') := body w in (r, cleanup w').

Declare Scope py_scope.
Delimit Scope py_scope with py.
Notation "'let*' x ':=' c 'in' k" := (bind c (fun x => k))
  (at level 10, x name, c at level 100, k at level 200) : py_scope.
Notation "'do' c 'in' k" := (bind c (fun _ => k))
  (at level 10, c at level 100, k at level 200) : py_scope.
Open Scope py_scope.

(** ** Scoped resource mappings *)

(** [dict.update]: entries of [other] replace those of [d]. *)
Definition dict_update {V} (d other : gmap string V) : gmap string V := other ∪ d.

(** Truth value of an optional dictionary: [None] and [{}] are falsy. *)
Definition truthy {V} (m : option (gmap string V)) : bool :=
  match m with
  | Some d => negb (bool_decide (d = ∅))
  | None => false
  end.

(** [a or b] on optional dictionaries. *)
Definition py_or {V} (a b : option (gmap string V)) : option (gmap string V) :=
  if truthy a then a else b.

(** [old_mapping or {}]. *)
Definition or_empty {V} (a : option (gmap string V)) : gmap string V :=
  if truthy a then default ∅ a else ∅.

(** The mapping that [axis_mapping] installs on entry. *)
Definition entered_mapping (mapping : ResourceMapping) (merge : bool)
    (kwargs : ResourceMapping) (old_mapping : option ResourceMapping) : ResourceMapping :=
  let mapping := mapping in                                   (* dict(mapping) *)
  let mapping := if merge then dict_update mapping (or_empty old_mapping) else mapping in
  let mapping := if bool_decide (size kwargs ≠ 0%nat) then dict_update mapping kwargs else mapping in
  mapping.

(** [with axis_mapping(mapping, merge=merge, **kwargs): body]. *)
Definition axis_mapping {A} (mapping : ResourceMapping) (merge : bool)
    (kwargs : ResourceMapping) (body : M A) : M A :=
  let* old_mapping := gets resource_mapping in
  do modify (set_resource_mapping (Some (entered_mapping mapping merge kwargs old_mapping))) in
  finally body (set_resource_mapping old_mapping).

(** The mapping a piece of code observes: the thread-local slot. *)
Definition current_mapping : M (option ResourceMapping) := gets resource_mapping.

(** ** Partition specs *)

Definition selector_name (axis : AxisSelector) : string :=
  match axis with
  | SelStr name => name
  | SelAxis a => axis_name a
  end.

(** [physical_axis_name(axis, mapping)], reading the thread-local slot. *)
Definition physical_axis_name (axis : AxisSelector) (mapping : option ResourceMapping)
    (w : World) : option PhysicalAxisSpec :=
  let mapping := py_or mapping (resource_mapping w) in
  match mapping with
  | None => None
  | Some mapping =>
      match axis with
      | SelStr name => mapping !! name
      | SelAxis a => mapping !! axis_name a
      end
  end.

(** [mesh_shape[n]] for each name, left to right; the first missing name
    raises [KeyError]. *)
Fixpoint mesh_sizes (mesh_shape : gmap string Z) (names : list string) : outcome (list Z) :=
  match names with
  | [] => Return []
  | n :: names' =>
      match mesh_shape !! n with
      | None => Raise (KeyError n)
      | Some z =>
          match mesh_sizes mesh_shape names' with
          | Return zs => Return (z :: zs)
          | Raise e => Raise e
          end
      end
  end.

(** [math.prod]. *)
Definition prod (zs : list Z) : Z := fold_left Z.mul zs 1.

Definition spec_names (name : PhysicalAxisSpec) : list string :=
  match name with
  | Phys p => [p]          (* isinstance(name, str): name = (name,) *)
  | PhysSeq ps => ps
  end.

(** ** Hashed values and their equality *)

(** The physical axes that an entry of a partition spec names: JAX parses a
    single name as the one-element tuple and [None] as the empty one. *)
Definition entry_names (entry : option PhysicalAxisSpec) : list string :=
  match entry with
  | None => []
  | Some name => spec_names name
  end.

Definition pspec_names (pspec : PartitionSpec) : list string := flat_map entry_names pspec.

(** Python dictionaries and [functools.lru_cache] find a key by [hash] and
    [==].  For Python [True == 1] and [False == 0], with equal hashes; two
    [NamedSharding]s are equal when their meshes are equal and their parsed
    specs are, that is, when every entry names the same physical axes; a
    [PartitionSpec] is a tuple and compares as one; a function compares by
    identity.  [key_of] takes a value to a representative of its class: two
    values are the same key exactly when their representatives are equal. *)
Definition atom_key (v : Atom) : Atom :=
  match v with
  | ABool b => AInt (if b then 1 else 0)
  | _ => v
  end.

Definition sharding_key (s : Sharding) : Sharding :=
  match s with
  | NamedSharding mesh pspec =>
      NamedSharding mesh (map (λ entry, Some (PhysSeq (entry_names entry))) pspec)
  | _ => s
  end.

Fixpoint key_of (t : PyTree) : PyTree :=
  match t with
  | TLeaf (LAtom v) => TLeaf (LAtom (atom_key v))
  | TLeaf (LSharding s) => TLeaf (LSharding (sharding_key s))
  | TLeaf l => TLeaf l
  | TNode k ts => TNode k (map key_of ts)
  end.

(** [current_sharding == sharding]. *)
Definition sharding_eqb (s1 s2 : Sharding) : bool :=
  bool_decide (sharding_key s1 = sharding_key s2).

(** [mesh.empty]: the mesh has no axes, as the mesh that is in force outside
    of any mesh context. *)
Definition mesh_empty (mesh : Mesh) : bool := bool_decide (mesh_shape mesh = ∅).

(** [physical_axis_size(axis, mapping)]. *)
Definition physical_axis_size (axis : AxisSelector) (mapping : option ResourceMapping)
    : M (option Z) := fun w =>
  match thread_env w with
  | None => (Raise (ValueError "No resource mapping found"), w)
  | Some env =>
      let mesh_shape := mesh_shape env in
      match physical_axis_name axis mapping w with
      | None => (Return None, w)
      | Some name =>
          match mesh_sizes mesh_shape (spec_names name) with
          | Return zs => (Return (Some (prod zs)), w)
          | Raise e => (Raise e, w)
          end
      end
  end.

(** [pspec_for_axis(axis, mapping)], after [ensure_tuple]. *)
Definition pspec_for_axis (axis : list AxisSelector) (mapping : option ResourceMapping)
    (w : World) : PartitionSpec :=
  map (fun a => physical_axis_name a mapping w) axis.

(** Python's [a // b]. *)
Definition floordiv (a b : Z) : outcome Z :=
  if bool_decide (b = 0) then Raise ZeroDivisionError else Return (a / b).

(** [round_axis_for_partitioning(axis, mapping)]. *)
Definition round_axis_for_partitioning (axis : Axis) (mapping : option ResourceMapping)
    : M Axis :=
  let* size := physical_axis_size (SelAxis axis) mapping in
  match size with
  | None => ret axis
  | Some size =>
      match floordiv (axis_size axis + size - 1) size with
      | Return q => ret (mkAxis (axis_name axis) (q * size))
      | Raise e => raise e
      end
  end.

(** ** Trees: leaves, partition and tree_map *)

(** [is_jax_array_like]: the leaf has a shape and a dtype. *)
Definition is_jax_array_like (l : Leaf) : bool :=
  match l with
  | LArray _ | LShape _ _ => true
  | _ => false
  end.

(** [is_named_array]. *)
Definition is_named_array (t : PyTree) : bool :=
  match t with
  | TNode (KNamed _) _ => true
  | _ => false
  end.

(** First component of [eqx.partition(t, is_jax_array_like)]: the array
    leaves, [None] in place of every other leaf. *)
Fixpoint partition_dynamic (t : PyTree) : PyTree :=
  match t with
  | TLeaf l => if is_jax_array_like l then TLeaf l else TNone
  | TNode k ts => TNode k (map partition_dynamic ts)
  end.

(** Second component: the other leaves, [None] in place of every array. *)
Fixpoint partition_static (t : PyTree) : PyTree :=
  match t with
  | TLeaf l => if is_jax_array_like l then TNone else TLeaf l
  | TNode k ts => TNode k (map partition_static ts)
  end.

(** [hashable_partition(t, is_jax_array_like)]: the dynamic tree and a
    hashable rendering of the static one (its leaves and treedef, which
    determine and are determined by the static tree). *)
Definition hashable_partition (t : PyTree) : PyTree * PyTree :=
  (partition_dynamic t, partition_static t).

(** [jax.tree_util.tree_map(lambda _: None, t)]. *)
Fixpoint mask_none (t : PyTree) : PyTree :=
  match t with
  | TLeaf _ => TNone
  | TNode k ts => TNode k (map mask_none ts)
  end.

(** What tracing sees of a tree: the shape and dtype of every array. *)
Fixpoint abstractify (t : PyTree) : PyTree :=
  match t with
  | TLeaf (LArray a) => TLeaf (LShape (arr_shape a) (arr_dtype a))
  | TLeaf l => TLeaf l
  | TNode k ts => TNode k (map abstractify ts)
  end.

(** [jax.tree_util.tree_map(f, t, is_leaf=is_named_array)] for an [f] with
    effects: [f] is applied to the named arrays and to the leaves, left to
    right; [None] has no leaves. *)
Fixpoint tree_map_named (f : PyTree → M PyTree) (t : PyTree) : M PyTree :=
  match t with
  | TLeaf _ => f t
  | TNode (KNamed _) _ => f t
  | TNode k ts =>
      let* ts' :=
        (fix go (ts : list PyTree) : M (list PyTree) :=
           match ts with
           | [] => ret []
           | t :: ts' =>
               let* t' := tree_map_named f t in
               let* ts'' := go ts' in
               ret (t' :: ts'')
           end) ts in
      ret (TNode k ts')
  end.

Definition tree_map_named_list (f : PyTree → M PyTree) : list PyTree → M (list PyTree) :=
  fix go (ts : list PyTree) : M (list PyTree) :=
    match ts with
    | [] => ret []
    | t :: ts' =>
        let* t' := tree_map_named f t in
        let* ts'' := go ts' in
        ret (t' :: ts'')
    end.

(** [(args, kwargs)] as a tree: a tuple of the positional arguments and a
    dictionary of the keyword arguments. *)
Definition kwargs_tree (kwargs : gmap string PyTree) : PyTree :=
  TNode (KDict (map fst (map_to_list kwargs))) (map snd (map_to_list kwargs)).

Definition call_tree (args : list PyTree) (kwargs : gmap string PyTree) : PyTree :=
  TNode KTuple [TNode KTuple args; kwargs_tree kwargs].

(** ** Python and the JAX runtime *)

(** What the module asks of JAX. *)
Inductive Request :=
| AskSharding (mesh : Mesh) (pspec : PartitionSpec)
| AskDevicePut (raw_x : Array) (sharding : Sharding)
| AskCallback (raw_x : Array) (sharding : Sharding)
| AskConstraint (x : PyTree) (pspec : PartitionSpec)
| AskPjit (fun_names : string * string) (jitkwargs : gmap string PyTree)
| AskRun (mesh : Mesh) (in_resources out_resources : PyTree)
         (dynamic_donated dynamic_reserved static out : PyTree).

(** What the module leaves to Python and to JAX:
    - [py_call fun args kwargs] is what Python returns when [fun] is called
      on the positional arguments [args] and the keyword arguments [kwargs],
      where [fun] is a callable given as the PyTree that [hashable_combine]
      assembles;
    - [scalar_data z] names the contents of the array that JAX makes of the
      Python scalar [z];
    - [jax_refuses request] is the exception, if any, with which JAX refuses
      a request for a reason that is not written out below: a dimension that
      the mesh does not divide, a spec that uses a mesh axis twice or has
      more entries than the array has dimensions, devices that do not fit
      together, an unknown keyword of [pjit]. *)
Class Runtime := mkRuntime {
  py_call : PyTree → list PyTree → gmap string PyTree → PyTree;
  scalar_data : Z → nat;
  jax_refuses : Request → option exn
}.

Definition outcome_bind {A B} (o : outcome A) (k : A → outcome B) : outcome B :=
  match o with
  | Return a => k a
  | Raise e => Raise e
  end.

Section WithRuntime.

Context `{rt : Runtime}.

(** ** Applying a mapping to a tree *)

Definition as_selectors (axes : list Axis) : list AxisSelector := map SelAxis axes.

(** [_get_mesh()]. *)
Definition _get_mesh : M Mesh := fun w =>
  match thread_env w with
  | Some env => (Return env, w)
  | None => (Raise (AttributeError "physical_mesh"), w)
  end.

(** [pxla.thread_resources.env], as [pjit] and [with_sharding_constraint]
    read it. *)
Definition resource_env : M Mesh := fun w =>
  match thread_env w with
  | Some env => (Return env, w)
  | None => (Raise (AttributeError "env"), w)
  end.

(** [jax.sharding.NamedSharding(mesh, pspec)]: every physical axis that the
    spec names has to be an axis of the mesh; the first one that is not
    raises [ValueError]. *)
Definition named_sharding (mesh : Mesh) (pspec : PartitionSpec) : outcome Sharding :=
  match jax_refuses (AskSharding mesh pspec) with
  | Some e => Raise e
  | None =>
      match find (λ n, bool_decide (mesh_shape mesh !! n = None)) (pspec_names pspec) with
      | Some n => Raise (ValueError ("Resource axis: " +:+ n +:+ " is undefined"))
      | None => Return (NamedSharding mesh pspec)
      end
  end.

(** The sharding that [pjit] and [with_sharding_constraint] make of a spec
    on the mesh of the context: they insist on a mesh that is not empty. *)
Definition context_sharding (mesh : Mesh) (pspec : PartitionSpec) : outcome Sharding :=
  if mesh_empty mesh then Raise (RuntimeError "pjit requires a non-empty mesh")
  else named_sharding mesh pspec.

(** [with_sharding_constraint(x, pspec)]: the value is as it was; the
    constraint is passed to the compiler. *)
Definition with_sharding_constraint (x : PyTree) (pspec : PartitionSpec) : M PyTree :=
  match jax_refuses (AskConstraint x pspec) with
  | Some e => raise e
  | None =>
      let* mesh := resource_env in
      let* sharding := lift_outcome (context_sharding mesh pspec) in
      do modify (log_backend (ShardingConstraint pspec)) in
      ret x
  end.

(** [jax.device_put(raw_x, sharding)]: the array with the sharding asked
    for. *)
Definition device_put (raw_x : Array) (sharding : Sharding) : M Array :=
  match jax_refuses (AskDevicePut raw_x sharding) with
  | Some e => raise e
  | None =>
      do modify (log_backend (DevicePut (arr_data raw_x) sharding)) in
      ret (mkArray (arr_data raw_x) (arr_shape raw_x) (arr_dtype raw_x) sharding)
  end.

(** [jax.make_array_from_callback(shape, sharding, lambda index: raw_x[index])]. *)
Definition make_array_from_callback (raw_x : Array) (sharding : Sharding) : M Array :=
  match jax_refuses (AskCallback raw_x sharding) with
  | Some e => raise e
  | None =>
      do modify (log_backend (MakeArrayFromCallback (arr_data raw_x) sharding)) in
      ret (mkArray (arr_data raw_x) (arr_shape raw_x) (arr_dtype raw_x) sharding)
  end.

(** [_shard_leaf], the leaf function of the jit branch. *)
Definition _shard_leaf (mapping : ResourceMapping) (x : PyTree) : M PyTree :=
  match x with
  | TNode (KNamed axes) _ =>
      let* pspec := gets (pspec_for_axis (as_selectors axes) (Some mapping)) in
      with_sharding_constraint x pspec
  | _ => ret x
  end.

(** [_do_device_put], the leaf function of the eager branch. *)
Definition _do_device_put (mesh : Mesh) (mapping : ResourceMapping) (x : PyTree) : M PyTree :=
  match x with
  | TNode (KNamed axes) children =>
      let* pspec := gets (pspec_for_axis (as_selectors axes) (Some mapping)) in
      let* sharding := lift_outcome (named_sharding mesh pspec) in
      match children with
      | [TLeaf (LArray raw_x)] =>
          let current_sharding := arr_sharding raw_x in
          if sharding_eqb current_sharding sharding then ret x
          else if mesh_addressable mesh then
            let* raw_x := device_put raw_x sharding in
            ret (TNamed (TLeaf (LArray raw_x)) axes)
          else
            let* raw_x := make_array_from_callback raw_x sharding in
            ret (TNamed (TLeaf (LArray raw_x)) axes)
      | _ => raise (AttributeError "sharding")
      end
  | _ => ret x
  end.

(** [shard_with_axis_mapping(x, mapping)]. *)
Definition shard_with_axis_mapping (x : PyTree) (mapping : ResourceMapping) : M PyTree :=
  let* jit := gets jit_context in
  if jit then tree_map_named (_shard_leaf mapping) x
  else
    let* mesh := _get_mesh in
    tree_map_named (_do_device_put mesh mapping) x.

(** [auto_sharded(x)]. *)
Definition auto_sharded (x : PyTree) : M PyTree :=
  let* mapping := gets resource_mapping in
  match mapping with
  | None => ret x
  | Some mapping => shard_with_axis_mapping x mapping
  end.

(** [eqx.combine(t, u)]: at every position the first of the two that is not
    [None].  The library rejects trees whose nodes do not line up; the
    module only combines the two halves of one partition, whose nodes do. *)
Fixpoint combine (t u : PyTree) {struct t} : PyTree :=
  match t with
  | TLeaf l => TLeaf l
  | TNode KNone [] => u
  | TNode k ts =>
      match u with
      | TNode _ us =>
          TNode k ((fix go (ts us : list PyTree) {struct ts} : list PyTree :=
                      match ts, us with
                      | t :: ts', u :: us' => combine t u :: go ts' us'
                      | _, _ => ts
                      end) ts us)
      | TLeaf _ => t
      end
  end.

Definition combine_list : list PyTree → list PyTree → list PyTree :=
  fix go (ts us : list PyTree) {struct ts} : list PyTree :=
    match ts, us with
    | t :: ts', u :: us' => combine t u :: go ts' us'
    | _, _ => ts
    end.

(** The inverse of [call_tree]: [args, kwargs = tree]. *)
Definition uncall_tree (t : PyTree) : option (list PyTree * gmap string PyTree) :=
  match t with
  | TNode KTuple [TNode KTuple args; TNode (KDict keys) values] =>
      Some (args, list_to_map (zip keys values))
  | _ => None
  end.

(** ** Shape inference and its cache *)

(** A callable handed to [named_pjit]: its rendering as a PyTree (a plain
    function is one leaf, compared by identity; a module is a node with
    array and non-array leaves), the names [get_fun_names] reads off it, and
    what it returns on given arguments.  Tracing calls it on shape
    skeletons, execution on arrays. *)
Record Callable := mkCallable {
  fn_tree : PyTree;
  fn_names : string * string;
  fn_call : list PyTree → gmap string PyTree → PyTree
}.

(** Dictionary lookup in an insertion-ordered dictionary. *)
Fixpoint dict_get {K V} `{EqDecision K} (k : K) (d : list (K * V)) : option V :=
  match d with
  | [] => None
  | (k', v) :: d' => if bool_decide (k = k') then Some v else dict_get k d'
  end.

(** Position of the first occurrence of [k]. *)
Fixpoint index_of {K} `{EqDecision K} (k : K) (l : list K) : option nat :=
  match l with
  | [] => None
  | k' :: l' => if bool_decide (k = k') then Some 0%nat else S <$> index_of k l'
  end.

(** [filter_eval_shape(fun, *args, **kwargs)] of [jax_utils]: the call is
    partitioned, [jax.eval_shape] replaces the arrays of the dynamic half by
    their shapes and dtypes, [_fn] combines the two halves again and runs
    [fun], and the arrays of the result come back as shape skeletons.  No
    real computation happens. *)
Definition filter_eval_shape (fn : Callable) (args : list PyTree)
    (kwargs : gmap string PyTree) : outcome PyTree :=
  let dynamic := partition_dynamic (call_tree args kwargs) in
  let static := partition_static (call_tree args kwargs) in
  match uncall_tree (combine static (abstractify dynamic)) with
  | Some (_args, _kwargs) => Return (abstractify (fn_call fn _args _kwargs))
  | None => Raise (ValueError "too many values to unpack")
  end.

(** [_cached_filter_eval_shape(fun, *args, **kwargs)]; the dictionary finds
    [static] by hash and [==]. *)
Definition _cached_filter_eval_shape (fn : Callable) (args : list PyTree)
    (kwargs : gmap string PyTree) : M PyTree :=
  let '(dynamic, static) :=
    hashable_partition (TNode KTuple [fn_tree fn; TNode KTuple args; kwargs_tree kwargs]) in
  let key := key_of static in
  let* cache := gets eval_shape_cache in
  do (if negb (bool_decide (is_Some (dict_get key cache))) then
        let* shape := lift_outcome (filter_eval_shape fn args kwargs) in
        modify (set_eval_shape_cache (cache ++ [(key, shape)]))
      else ret tt) in
  let* cache := gets eval_shape_cache in
  match dict_get key cache with
  | Some shape => ret shape
  | None => raise (KeyError "static")
  end.

(** ** Resource partitions of a tree *)

(** [partition_spec], the leaf function of [infer_resource_partitions]. *)
Definition partition_spec (resource_mapping : ResourceMapping) (node : PyTree) : M PyTree :=
  match node with
  | TNode (KNamed axes) _ =>
      let* pspec := gets (pspec_for_axis (as_selectors axes) (Some resource_mapping)) in
      ret (TNamed (TLeaf (LSpec pspec)) axes)
  | TLeaf (LArray a) =>                       (* hasattr(node, "sharding") *)
      match arr_sharding a with
      | SingleDeviceSharding _ => ret TNone
      | sharding => ret (TLeaf (LSharding sharding))
      end
  | _ => ret TNone
  end.

(** [infer_resource_partitions(tree, resource_mapping)]. *)
Definition infer_resource_partitions (tree : PyTree)
    (resource_mapping : option ResourceMapping) : M PyTree :=
  let* resource_mapping :=
    match resource_mapping with
    | None => current_mapping
    | Some m => ret (Some m)
    end in
  match resource_mapping with
  | None => raise (ValueError "No resource mapping found")
  | Some m => tree_map_named (partition_spec m) tree
  end.

(** ** The cached pjit wrapper *)

(** [donate_args]: one flag for all positional arguments, or one flag per
    positional argument. *)
Inductive DonateArgs :=
| DonateAll (b : bool)
| DonateEach (flags : list bool).

(** The arguments of [named_pjit] other than [fn]. *)
Record PjitOptions := mkPjitOptions {
  axis_resources : option ResourceMapping;
  in_axis_resources : option ResourceMapping;
  out_axis_resources : option ResourceMapping;
  donate_args : option DonateArgs;
  donate_kwargs : option (gmap string bool);
  pjit_args : gmap string PyTree
}.

(** The closure [f] that [named_pjit] returns: [fn] and the resolved
    options it captured. *)
Record Wrapped := mkWrapped { wrapped_fn : Callable; wrapped_options : PjitOptions }.

(** What [named_pjit] returns: [functools.partial(named_pjit, ...)] when
    called without [fn], the closure otherwise. *)
Inductive NamedPjit :=
| PartialNamedPjit (options : PjitOptions)
| WrappedFn (f : Wrapped).

(** [named_pjit(fn, axis_resources, in_axis_resources=..., ...)] up to the
    construction of [f]. *)
Definition named_pjit (fn : option Callable) (options : PjitOptions) : M NamedPjit :=
  match fn with
  | None => ret (PartialNamedPjit options)
  | Some fn =>
      let* axis_resources :=
        match axis_resources options with
        | None => gets resource_mapping
        | Some m => ret (Some m)
        end in
      let in_axis_resources :=
        match in_axis_resources options with
        | None => axis_resources
        | Some m => Some m
        end in
      let out_axis_resources :=
        match out_axis_resources options with
        | None => axis_resources
        | Some m => Some m
        end in
      if bool_decide (axis_resources = None) &&
         (bool_decide (in_axis_resources = None) || bool_decide (out_axis_resources = None))
      then raise (ValueError
        "Must provide axis_resources, or in_axis_resources and out_axis_resources, or have a global mapping via axis_mapping")
      else
        ret (WrappedFn (mkWrapped fn
               (mkPjitOptions axis_resources in_axis_resources out_axis_resources
                  (donate_args options) (donate_kwargs options) (pjit_args options))))
  end.

(** [_named_pjit_cache(fun_names, **jitkwargs)] behind [compile_cache]: the
    memo table finds the arguments by hash and [==]; the body runs when they
    are not found and builds a new pjit callable, which the table keeps
    unless [pjit] raises; later calls with equal arguments return the one
    built then. *)
Definition _named_pjit_cache (fun_names : string * string)
    (jitkwargs : gmap string PyTree) : M nat :=
  let key := mkPjitKey fun_names (key_of <$> jitkwargs) in
  let* cache := gets named_pjit_cache in
  match dict_get key cache with
  | Some pjitted => ret pjitted
  | None =>
      match jax_refuses (AskPjit fun_names jitkwargs) with
      | Some e => raise e
      | None =>
          let* fresh := gets pjit_built in
          do modify (set_named_pjit_cache (cache ++ [(key, fresh)]) (S fresh)) in
          ret fresh
      end
  end.

(** [fun_wrapped], the function that [pjit] traces and compiles: the two
    halves of each partition are combined again and the callable is
    applied. *)
Definition fun_wrapped (dynamic_donated dynamic_reserved static : PyTree) : outcome PyTree :=
  let dynamic := combine dynamic_donated dynamic_reserved in
  match dynamic, static with
  | TNode KTuple [dynamic_fun; dynamic_spec], TNode KTuple [static_fun; static_spec] =>
      let fun_ := combine dynamic_fun static_fun in        (* hashable_combine *)
      match uncall_tree (combine dynamic_spec static_spec) with
      | Some (args, kwargs) => Return (py_call fun_ args kwargs)
      | None => Raise (ValueError "too many values to unpack")
      end
  | _, _ => Raise (ValueError "too many values to unpack")
  end.

(** The array arguments of a pjit callable have to be arrays: JAX refuses a
    [ShapeDtypeStruct]. *)
Fixpoint check_arguments (t : PyTree) : outcome unit :=
  match t with
  | TLeaf (LArray _) => Return tt
  | TLeaf _ => Raise (JaxTypeError "argument is not a valid JAX type")
  | TNode _ ts =>
      (fix go (ts : list PyTree) : outcome unit :=
         match ts with
         | [] => Return tt
         | t :: ts' => outcome_bind (check_arguments t) (λ _, go ts')
         end) ts
  end.

(** The shardings of [in_axis_resources]: a sharding is made, on the mesh of
    the context, of every partition spec and of every [None], which stands
    for the empty spec; a sharding object is taken as it is. *)
Fixpoint check_resources (mesh : Mesh) (resources : PyTree) : outcome unit :=
  match resources with
  | TLeaf (LSpec pspec) => outcome_bind (context_sharding mesh pspec) (λ _, Return tt)
  | TLeaf _ => Return tt
  | TNode KNone [] => outcome_bind (context_sharding mesh []) (λ _, Return tt)
  | TNode _ ts =>
      (fix go (ts : list PyTree) : outcome unit :=
         match ts with
         | [] => Return tt
         | t :: ts' => outcome_bind (check_resources mesh t) (λ _, go ts')
         end) ts
  end.

(** What a traced function may return: arrays and Python scalars; JAX
    raises [TypeError] for any other leaf. *)
Definition valid_output (l : Leaf) : bool :=
  match l with
  | LArray _ => true
  | LAtom (AInt _) | LAtom (ABool _) => true
  | _ => false
  end.

Fixpoint check_outputs (out : PyTree) : outcome unit :=
  match out with
  | TLeaf l =>
      if valid_output l then Return tt
      else Raise (JaxTypeError "output is not a valid JAX type")
  | TNode _ outs =>
      (fix go (outs : list PyTree) : outcome unit :=
         match outs with
         | [] => Return tt
         | o :: outs' => outcome_bind (check_outputs o) (λ _, go outs')
         end) outs
  end.

(** A leaf as it leaves the executable: an array with the sharding of
    [out_axis_resources]; a Python scalar has become an array. *)
Definition output_leaf (sharding : Sharding) (l : Leaf) : Leaf :=
  match l with
  | LArray a => LArray (mkArray (arr_data a) (arr_shape a) (arr_dtype a) sharding)
  | LAtom (AInt z) => LArray (mkArray (scalar_data z) [] "int32" sharding)
  | LAtom (ABool b) => LArray (mkArray (scalar_data (if b then 1 else 0)) [] "bool" sharding)
  | _ => l
  end.

Fixpoint place_all (sharding : Sharding) (out : PyTree) : PyTree :=
  match out with
  | TLeaf l => TLeaf (output_leaf sharding l)
  | TNode k outs => TNode k (map (place_all sharding) outs)
  end.

(** The outputs placed as [out_axis_resources] says, which has to be a tree
    prefix of the output: a partition spec, a sharding or [None] (the empty
    spec) stands for every leaf below its position. *)
Fixpoint place_outputs (mesh : Mesh) (resources out : PyTree) {struct resources}
    : outcome PyTree :=
  match resources with
  | TLeaf (LSpec pspec) =>
      outcome_bind (context_sharding mesh pspec) (λ s, Return (place_all s out))
  | TLeaf (LSharding s) => Return (place_all s out)
  | TLeaf _ => Raise (ValueError "out_axis_resources leaf is not a partition spec")
  | TNode KNone [] =>
      outcome_bind (context_sharding mesh []) (λ s, Return (place_all s out))
  | TNode k specs =>
      match out with
      | TNode k' outs =>
          if bool_decide (k = k') then
            outcome_bind
              ((fix go (specs outs : list PyTree) {struct specs} : outcome (list PyTree) :=
                  match specs, outs with
                  | [], [] => Return []
                  | spec :: specs', o :: outs' =>
                      outcome_bind (place_outputs mesh spec o) (λ o',
                      outcome_bind (go specs' outs') (λ os, Return (o' :: os)))
                  | _, _ =>
                      Raise (ValueError "out_axis_resources is not a tree prefix of the output")
                  end) specs outs)
              (λ outs', Return (TNode k outs'))
          else Raise (ValueError "out_axis_resources is not a tree prefix of the output")
      | TLeaf _ => Raise (ValueError "out_axis_resources is not a tree prefix of the output")
      end
  end.

(** What [pjit] checks before it compiles or runs, and what the call then
    returns. *)
Definition pjit_checks (mesh : Mesh) (in_resources out_resources : PyTree)
    (dynamic_donated dynamic_reserved static out : PyTree) : outcome PyTree :=
  match jax_refuses (AskRun mesh (key_of in_resources) (key_of out_resources)
                       dynamic_donated dynamic_reserved (key_of static) out) with
  | Some e => Raise e
  | None =>
      outcome_bind (check_arguments dynamic_donated) (λ _,
      outcome_bind (check_arguments dynamic_reserved) (λ _,
      outcome_bind (check_resources mesh in_resources) (λ _,
      outcome_bind (check_outputs out) (λ _,
      place_outputs mesh out_resources out))))
  end.

(** Calling a pjit callable built with [donate_argnums=0, static_argnums=2]
    and the given resources.  The callable keeps what it has traced and
    compiled under the value of the static argument, found by hash and [==],
    and the shapes and dtypes of the array arguments.  The first call with a
    key traces [fun_wrapped] with the static argument of that call and
    compiles; a later call with that key runs what was compiled then, on its
    own arrays.  Nothing is compiled for a call that JAX refuses.  Returns
    the position of the executable among those compiled so far, and the
    output.  (Inside an enclosing trace the entry stands for the traced
    computation, which is compiled with the enclosing one.) *)
Definition pjit_call (pjitted : nat) (in_resources out_resources : PyTree)
    (dynamic_donated dynamic_reserved static : PyTree) : M (nat * PyTree) :=
  let key := mkExecKey pjitted (key_of static) (abstractify dynamic_donated)
                       (abstractify dynamic_reserved) in
  let* mesh := resource_env in
  let* compiled := gets executables in
  let found := index_of key (exe_key <$> compiled) in
  let traced :=
    match found ≫= (λ i, compiled !! i) with
    | Some exe => exe_static exe
    | None => static
    end in
  let* raw := lift_outcome (fun_wrapped dynamic_donated dynamic_reserved traced) in
  let* out := lift_outcome (pjit_checks mesh in_resources out_resources
                              dynamic_donated dynamic_reserved static raw) in
  match found with
  | Some i => ret (i, out)
  | None =>
      do modify (set_executables (compiled ++ [mkExecutable key static])) in
      ret (length compiled, out)
  end.

(** The flags [dargs] of the positional arguments. *)
Definition donate_flags (donate_args : option DonateArgs) (nargs : nat) : list bool :=
  match donate_args with
  | None => replicate nargs false
  | Some (DonateAll b) => replicate nargs b
  | Some (DonateEach flags) => flags
  end.

(** The flags [dkwargs] of the keyword arguments, one per key of [kwargs]. *)
Definition donate_kwflags (donate_kwargs : option (gmap string bool))
    (keys : list string) : list bool :=
  map (fun k => default false (or_empty donate_kwargs !! k)) keys.

(** [eqx.partition(t, flag)] for a boolean [flag]. *)
Definition split_by (flag : bool) (t : PyTree) : PyTree * PyTree :=
  if flag then (t, mask_none t) else (mask_none t, t).

(** [eqx.partition(tuple, flags)]: the flags must match the elements one to
    one. *)
Fixpoint split_each (flags : list bool) (ts : list PyTree)
    : outcome (list PyTree * list PyTree) :=
  match flags, ts with
  | [], [] => Return ([], [])
  | b :: flags', t :: ts' =>
      match split_each flags' ts' with
      | Return (ds, rs) => Return (fst (split_by b t) :: ds, snd (split_by b t) :: rs)
      | Raise e => Raise e
      end
  | _, _ => Raise (ValueError "Tuple arity mismatch")
  end.

(** [eqx.partition(dynamic, (False, (dargs, dkwargs)))]. *)
Definition partition_donated (dargs dkwargs : list bool) (dynamic : PyTree)
    : outcome (PyTree * PyTree) :=
  match dynamic with
  | TNode KTuple [dynamic_fun; TNode KTuple [TNode KTuple args; TNode (KDict keys) values]] =>
      match split_each dargs args, split_each dkwargs values with
      | Return (dargs_d, dargs_r), Return (dkw_d, dkw_r) =>
          Return
            (TNode KTuple [fst (split_by false dynamic_fun);
                           TNode KTuple [TNode KTuple dargs_d; TNode (KDict keys) dkw_d]],
             TNode KTuple [snd (split_by false dynamic_fun);
                           TNode KTuple [TNode KTuple dargs_r; TNode (KDict keys) dkw_r]])
      | Raise e, _ => Raise e
      | _, Raise e => Raise e
      end
  | _ => Raise (ValueError "Custom node type mismatch")
  end.

(** The donated and the reserved half of the dynamic part of a call. *)
Definition donation_split (opts : PjitOptions) (args : list PyTree)
    (kwargs : gmap string PyTree) (dynamic : PyTree) : outcome (PyTree * PyTree) :=
  if bool_decide (donate_args opts ≠ None) || bool_decide (donate_kwargs opts ≠ None) then
    let dargs := donate_flags (donate_args opts) (length args) in
    let dkwargs := donate_kwflags (donate_kwargs opts) (map fst (map_to_list kwargs)) in
    partition_donated dargs dkwargs dynamic
  else Return (mask_none dynamic, dynamic).

(** Result of a call of the wrapped function: the executable that ran and
    what it returned. *)
Record CallResult := mkCallResult { res_executable : nat; res_output : PyTree }.

(** A call of the closure [f] returned by [named_pjit], with positional
    arguments [args] and keyword arguments [kwargs]. *)
Definition call_wrapped (f : Wrapped) (args : list PyTree) (kwargs : gmap string PyTree)
    : M CallResult :=
  let fn := wrapped_fn f in
  let opts := wrapped_options f in
  let '(dynamic_fun, static_fun) := hashable_partition (fn_tree fn) in
  let '(dynamic_argspec, static_argspec) := hashable_partition (call_tree args kwargs) in
  let dynamic := TNode KTuple [dynamic_fun; dynamic_argspec] in
  let* split := lift_outcome (donation_split opts args kwargs dynamic) in
  let '(dynamic_donated, dynamic_reserved) := split in
  let static := TNode KTuple [static_fun; static_argspec] in
  let* output_shape := _cached_filter_eval_shape fn args kwargs in
  let* in_resources :=
    infer_resource_partitions (TNode KTuple [dynamic_donated; dynamic_reserved])
                              (in_axis_resources opts) in
  let* out_resources := infer_resource_partitions output_shape (out_axis_resources opts) in
  let my_pjit_args :=
    <["out_axis_resources" := out_resources]>
      (<["in_axis_resources" := in_resources]> (pjit_args opts)) in
  axis_mapping (or_empty (axis_resources opts)) false ∅
    (let* cached_pjitted_fun := _named_pjit_cache (fn_names fn) my_pjit_args in
     let* run := pjit_call cached_pjitted_fun in_resources out_resources
                           dynamic_donated dynamic_reserved static in
     ret (mkCallResult (fst run) (snd run))).

(** Number of executables the backend has compiled. *)
Definition compilations (w : World) : nat := length (executables w).

(** The world of a fresh process: no scope entered, empty caches. *)
Definition fresh_world (env : option Mesh) (jit : bool) : World :=
  mkWorld None env jit [] [] 0 [] [].

(** The key under which a shape is cached: the static half of
    [(fun, args, kwargs)], as the dictionary hashes and compares it. *)
Definition shape_key (fn : Callable) (args : list PyTree) (kwargs : gmap string PyTree)
    : PyTree :=
  key_of (partition_static (TNode KTuple [fn_tree fn; TNode KTuple args; kwargs_tree kwargs])).

(** The static signature of a call of a wrapped function, as the code
    compares it: the function and the static configuration, as Python hashes
    and compares them; the shapes and dtypes of the array arguments; the
    placements of the arguments.  The shape and the placement of the output
    are not compared: the code takes them from the shape cache, under the
    key of the static configuration. *)
Record Signature := mkSignature {
  sig_function : PyTree;
  sig_static : PyTree;
  sig_arg_shapes : PyTree;
  sig_in_placements : outcome PyTree
}.

Definition call_signature (f : Wrapped) (args : list PyTree) (kwargs : gmap string PyTree)
    (w : World) : Signature :=
  let fn := wrapped_fn f in
  let opts := wrapped_options f in
  let dynamic :=
    TNode KTuple [partition_dynamic (fn_tree fn); partition_dynamic (call_tree args kwargs)] in
  mkSignature
    (key_of (partition_static (fn_tree fn)))
    (key_of (partition_static (call_tree args kwargs)))
    (abstractify dynamic)
    (match donation_split opts args kwargs dynamic with
     | Return (donated, reserved) =>
         outcome_bind
           (fst (infer_resource_partitions (TNode KTuple [donated; reserved])
                                           (in_axis_resources opts) w))
           (λ in_resources, Return (key_of in_resources))
     | Raise e => Raise e
     end).

(** The donation flags line up with the positional arguments. *)
Definition donation_aligned (f : Wrapped) (args : list PyTree) : Prop :=
  match donate_args (wrapped_options f) with
  | Some (DonateEach flags) => length flags = length args
  | _ => True
  end.

(** Whether every named array of [x] already has the placement that
    [mapping] gives it on [mesh]: that placement exists, and the sharding of
    the array is equal to it. *)
Fixpoint placed (mesh : Mesh) (mapping : ResourceMapping) (w : World) (x : PyTree) : bool :=
  match x with
  | TLeaf _ => true
  | TNode (KNamed axes) children =>
      match children,
            named_sharding mesh (pspec_for_axis (as_selectors axes) (Some mapping) w) with
      | [TLeaf (LArray raw_x)], Return sharding => sharding_eqb (arr_sharding raw_x) sharding
      | _, _ => false
      end
  | TNode _ ts => forallb (placed mesh mapping w) ts
  end.

(** Whether every named array of [x] holds a concrete array, as the data
    model of [NamedArray] has it. *)
Fixpoint named_arrays_concrete (x : PyTree) : bool :=
  match x with
  | TLeaf _ => true
  | TNode (KNamed _) children =>
      match children with
      | [TLeaf (LArray _)] => true
      | _ => false
      end
  | TNode _ ts => forallb named_arrays_concrete ts
  end.

(** A tree without the contents of its named arrays: what is left are the
    containers, the positions of the named arrays with their axes, and
    every other leaf. *)
Fixpoint outside_named (x : PyTree) : PyTree :=
  match x with
  | TLeaf l => TLeaf l
  | TNode (KNamed axes) _ => TNode (KNamed axes) []
  | TNode k ts => TNode k (map outside_named ts)
  end.

(** Two worlds with the same scoped mapping, mesh environment and mode: a
    traversal that only logs backend requests relates its start to its end. *)
Definition same_context (w w' : World) : Prop :=
  resource_mapping w' = resource_mapping w ∧
  thread_env w' = thread_env w ∧
  jit_context w' = jit_context w.

(** The arguments of one [axis_mapping], and scopes entered one inside the
    other, the first outermost, around a body. *)
Record Scope := mkScope {
  scope_mapping : ResourceMapping;
  scope_merge : bool;
  scope_overrides : ResourceMapping
}.

Fixpoint enter_scopes {A} (scopes : list Scope) (body : M A) : M A :=
  match scopes with
  | [] => body
  | s :: scopes' =>
      axis_mapping (scope_mapping s) (scope_merge s) (scope_overrides s)
                   (enter_scopes scopes' body)
  end.

(** The mapping in force after entering [scopes] from [current]. *)
Definition mapping_inside (scopes : list Scope) (current : option ResourceMapping)
    : option ResourceMapping :=
  fold_left
    (λ current s,
       Some (entered_mapping (scope_mapping s) (scope_merge s) (scope_overrides s) current))
    scopes current.

(** A call of some wrapped function, and a run of calls one after the
    other; a call that raises leaves the world as it was at the raise. *)
Record Call := mkCall {
  call_fn : Wrapped;
  call_args : list PyTree;
  call_kwargs : gmap string PyTree
}.

Fixpoint run_calls (calls : list Call) (w : World) : World :=
  match calls with
  | [] => w
  | c :: calls' =>
      run_calls calls' (snd (call_wrapped (call_fn c) (call_args c) (call_kwargs c) w))
  end.

(** The caches of [w'] answer every lookup that the caches of [w] answer,
    in the same way: nothing is evicted or overwritten. *)
Definition caches_grow (w w' : World) : Prop :=
  (∀ k v, dict_get k (eval_shape_cache w) = Some v →
          dict_get k (eval_shape_cache w') = Some v) ∧
  (∀ k p, dict_get k (named_pjit_cache w) = Some p →
          dict_get k (named_pjit_cache w') = Some p) ∧
  (∀ k i, index_of k (exe_key <$> executables w) = Some i →
          index_of k (exe_key <$> executables w') = Some i) ∧
  (∀ i exe, executables w !! i = Some exe → executables w' !! i = Some exe).

(** A computation that only adds to the caches and leaves the scoped
    mapping as it found it. *)
Definition monotone {A} (c : M A) : Prop :=
  ∀ w, caches_grow w (snd (c w)) ∧ resource_mapping (snd (c w)) = resource_mapping w.

(** [a] when it is given, [b] otherwise: the fallback order of the
    resources as the documentation of [named_pjit] words it. *)
Definition or_else {A} (a b : option A) : option A :=
  match a with Some x => Some x | None => b end.

(** ** Reading a tree and the backend log *)

(** [jax.tree_util.tree_leaves(t, is_leaf=is_named_array)]: the named
    arrays and the other leaves, left to right. *)
Fixpoint tree_leaves (t : PyTree) : list PyTree :=
  match t with
  | TLeaf _ => [t]
  | TNode (KNamed _) _ => [t]
  | TNode _ ts => flat_map tree_leaves ts
  end.

(** [tree_map] with [is_leaf=is_named_array] for a function without
    effects. *)
Fixpoint tree_map_pure (g : PyTree → PyTree) (t : PyTree) : PyTree :=
  match t with
  | TLeaf _ => g t
  | TNode (KNamed _) _ => g t
  | TNode k ts => TNode k (map (tree_map_pure g) ts)
  end.

(** The world after the backend was asked for [ops], in that order. *)
Definition add_log (ops : list BackendOp) (w : World) : World :=
  mkWorld (resource_mapping w) (thread_env w) (jit_context w) (eval_shape_cache w)
          (named_pjit_cache w) (pjit_built w) (executables w) (backend_log w ++ ops).

(** The constraint that the jit branch injects for a named array, none for
    any other leaf. *)
Definition constraint_of (mapping : ResourceMapping) (w : World) (x : PyTree)
    : list BackendOp :=
  match x with
  | TNode (KNamed axes) _ =>
      [ShardingConstraint (pspec_for_axis (as_selectors axes) (Some mapping) w)]
  | _ => []
  end.

(** The transfer that the eager branch needs for a named array that is not
    yet where the mapping puts it: a direct transfer when the mesh is fully
    addressable, a per-shard assembly otherwise. *)
Definition transfer_of (mesh : Mesh) (mapping : ResourceMapping) (w : World) (x : PyTree)
    : list BackendOp :=
  match x with
  | TNode (KNamed axes) [TLeaf (LArray raw_x)] =>
      let sharding :=
        NamedSharding mesh (pspec_for_axis (as_selectors axes) (Some mapping) w) in
      if sharding_eqb (arr_sharding raw_x) sharding then []
      else if mesh_addressable mesh then [DevicePut (arr_data raw_x) sharding]
      else [MakeArrayFromCallback (arr_data raw_x) sharding]
  | _ => []
  end.

(** A leaf that the eager branch can place: any leaf that is not a named
    array; a named array that holds an array, when the target placement
    exists on the mesh and the array is there already or JAX accepts the
    transfer. *)
Definition transferable (mesh : Mesh) (mapping : ResourceMapping) (w : World) (x : PyTree)
    : bool :=
  match x with
  | TNode (KNamed axes) children =>
      match named_sharding mesh (pspec_for_axis (as_selectors axes) (Some mapping) w),
            children with
      | Return sharding, [TLeaf (LArray raw_x)] =>
          sharding_eqb (arr_sharding raw_x) sharding ||
          bool_decide (jax_refuses (if mesh_addressable mesh
                                    then AskDevicePut raw_x sharding
                                    else AskCallback raw_x sharding) = None)
      | _, _ => false
      end
  | _ => true
  end.

(** A leaf that the jit branch can constrain: any leaf that is not a named
    array; a named array when JAX accepts the constraint and the sharding
    of its spec exists on the mesh of the context. *)
Definition constrainable (mesh : Mesh) (mapping : ResourceMapping) (w : World) (x : PyTree)
    : bool :=
  match x with
  | TNode (KNamed axes) _ =>
      let pspec := pspec_for_axis (as_selectors axes) (Some mapping) w in
      bool_decide (jax_refuses (AskConstraint x pspec) = None) &&
      match context_sharding mesh pspec with
      | Return _ => true
      | Raise _ => false
      end
  | _ => true
  end.

(** What the eager branch returns for a leaf: a named array that is not
    yet where the mapping puts it comes back with the target placement, any
    other leaf as it is. *)
Definition put_of (mesh : Mesh) (mapping : ResourceMapping) (w : World) (x : PyTree)
    : PyTree :=
  match x with
  | TNode (KNamed axes) [TLeaf (LArray raw_x)] =>
      let sharding :=
        NamedSharding mesh (pspec_for_axis (as_selectors axes) (Some mapping) w) in
      if sharding_eqb (arr_sharding raw_x) sharding then x
      else TNamed (TLeaf (LArray (mkArray (arr_data raw_x) (arr_shape raw_x)
                                          (arr_dtype raw_x) sharding))) axes
  | _ => x
  end.

(** What [infer_resource_partitions] puts in place of a leaf: the partition
    spec of a named array, the sharding of a raw array that is not on a
    single device, [None] otherwise. *)
Definition resource_of (m : ResourceMapping) (w : World) (node : PyTree) : PyTree :=
  match node with
  | TNode (KNamed axes) _ =>
      TNamed (TLeaf (LSpec (pspec_for_axis (as_selectors axes) (Some m) w))) axes
  | TLeaf (LArray a) =>
      match arr_sharding a with
      | SingleDeviceSharding _ => TNone
      | sharding => TLeaf (LSharding sharding)
      end
  | _ => TNone
  end.

(** A tree with the placement of every array forgotten: contents, shapes,
    dtypes, axes and containers are left. *)
Fixpoint forget_placement (t : PyTree) : PyTree :=
  match t with
  | TLeaf (LArray a) =>
      TLeaf (LArray (mkArray (arr_data a) (arr_shape a) (arr_dtype a) (OtherSharding 0)))
  | TLeaf l => TLeaf l
  | TNode k ts => TNode k (map forget_placement ts)
  end.

(** Number of leaves of a tree ([None] has none). *)
Fixpoint count_leaves (t : PyTree) : nat :=
  match t with
  | TLeaf _ => 1%nat
  | TNode _ ts => list_sum (map count_leaves ts)
  end.

End WithRuntime.

(** A runtime for examples: Python calls are what [call] says, the contents
    of the array of a scalar are named by its absolute value, and JAX
    refuses nothing beyond what is written out above. *)
Definition example_runtime (call : PyTree → list PyTree → gmap string PyTree → PyTree)
    : Runtime :=
  mkRuntime call Z.abs_nat (λ _, None).

(** * Random keys ([haliax.jax_utils]) *)

(** What the code below can raise beyond the exceptions of the partitioning
    module: the [TypeError] of [functools.reduce] on an empty sequence, and
    the refusal of a JAX operation, whose exception class depends on the
    JAX version. *)
Inductive failure :=
| Exn (e : exn)
| TypeError
| JaxError.

Inductive fallible (A : Type) :=
| Done (a : A)
| Failed (f : failure).
Arguments Done {A} a.
Arguments Failed {A} f.

Definition and_then {A B} (c : fallible A) (k : A → fallible B) : fallible B :=
  match c with
  | Done a => k a
  | Failed f => Failed f
  end.

(** A raw PRNG key is two 32-bit words; as an array it has shape [(2,)]. *)
Definition PRNGKey : Type := Z * Z.

(** An array of key words: its shape and its words in row-major order. *)
Record KeyArray := mkKeyArray {
  ka_shape : list Z;
  ka_words : list Z;
}.

Definition key_words (k : PRNGKey) : list Z := [k.1; k.2].

Definition as_array (k : PRNGKey) : KeyArray := mkKeyArray [2] (key_words k).

(** A 64-bit signed integer, wrapped around. *)
Definition wrap64 (z : Z) : Z := (z + 2 ^ 63) `mod` 2 ^ 64 - 2 ^ 63.

(** [np.prod] of a sequence of ints: the product in 64-bit integers (of the
    empty sequence: one). *)
Definition np_prod (dims : list Z) : Z := wrap64 (prod dims).

(** [jnp.reshape(a, new_shape)]: the words stay in order.  At most one
    dimension may be [-1], which is then inferred from the size; the other
    dimensions are non-negative and their product has to fit the size. *)
Definition jnp_reshape (a : KeyArray) (new_shape : list Z) : fallible KeyArray :=
  let size := Z.of_nat (length (ka_words a)) in
  let known := prod (filter (λ d : Z, d ≠ -1) new_shape) in
  if negb (forallb (λ d : Z, (-1 <=? d)%Z) new_shape) then Failed JaxError
  else
    match length (filter (λ d : Z, d = -1) new_shape) with
    | 0%nat =>
        if (known =? size)%Z then Done (mkKeyArray new_shape (ka_words a))
        else Failed JaxError
    | 1%nat =>
        if negb (known =? 0)%Z && (size `mod` known =? 0)%Z
        then Done (mkKeyArray (map (λ d : Z, if (d =? -1)%Z then size `div` known else d) new_shape)
                              (ka_words a))
        else Failed JaxError
    | _ => Failed JaxError
    end.

(** [jrandom.split(key, num)] on one key: [num] keys derived from it, as an
    array of shape [(num, 2)].  Which keys they are is JAX's business: the
    derivation is a parameter, [threefry_split key n] standing for the [n]
    keys split off [key]. *)
Definition jrandom_split (threefry_split : PRNGKey → nat → list PRNGKey)
    (key : PRNGKey) (num : Z) : fallible KeyArray :=
  if (0 <=? num)%Z
  then Done (mkKeyArray [num; 2] (flat_map key_words (threefry_split key (Z.to_nat num))))
  else Failed JaxError.

(** What [maybe_rng_split] returns: a Python list of [None]s or an array of
    keys. *)
Inductive SplitKeys :=
| Nones (n : nat)
| Keys (a : KeyArray).

(** [maybe_rng_split(key, num)]. *)
Definition maybe_rng_split (threefry_split : PRNGKey → nat → list PRNGKey)
    (key : option PRNGKey) (num : Z) : fallible SplitKeys :=
  match key with
  | None => Done (Nones (Z.to_nat num))
  | Some k =>
      if (num =? 1)%Z
      then and_then (jnp_reshape (as_array k) (1 :: ka_shape (as_array k)))
                    (λ a, Done (Keys a))
      else and_then (jrandom_split threefry_split k num) (λ a, Done (Keys a))
  end.

(** [key.shape]: [None] has no such attribute. *)
Definition shape_of (key : option PRNGKey) : fallible (list Z) :=
  match key with
  | None => Failed (Exn (AttributeError "shape"))
  | Some k => Done (ka_shape (as_array k))
  end.

(** [jnp.reshape] of what Python passes: JAX refuses [None] and lists of
    [None]. *)
Definition reshape_key (key : option PRNGKey) (new_shape : list Z) : fallible KeyArray :=
  match key with
  | None => Failed JaxError
  | Some k => jnp_reshape (as_array k) new_shape
  end.

Definition reshape_split (unshaped : SplitKeys) (new_shape : list Z) : fallible KeyArray :=
  match unshaped with
  | Nones _ => Failed JaxError
  | Keys a => jnp_reshape a new_shape
  end.

(** The [split_shape] argument: an int or a sequence of ints. *)
Inductive SplitShape :=
| IntShape (n : Z)
| SeqShape (dims : list Z).

(** [shaped_rng_split(key, split_shape)]. *)
Definition shaped_rng_split (threefry_split : PRNGKey → nat → list PRNGKey)
    (key : option PRNGKey) (split_shape : SplitShape) : fallible KeyArray :=
  and_then
    match split_shape with
    | IntShape n =>
        let num_splits := n in
        and_then (shape_of key) (λ shape, Done (num_splits, n :: shape))
    | SeqShape dims =>
        let num_splits := np_prod dims in
        and_then (shape_of key) (λ shape, Done (num_splits, (dims ++ shape)%list))
    end
    (λ '(num_splits, split_shape),
       if (num_splits =? 1)%Z then reshape_key key split_shape
       else
         and_then (maybe_rng_split threefry_split key num_splits)
                  (λ unshaped, reshape_split unshaped split_shape)).

(** * Checkpointing and named calls ([levanter.modeling_utils]) *)

(** What [recursive_checkpoint] builds out of the functions it is given:
    a function of the list as it is, [lambda x: second(first(x))], or
    [jax.remat] of what has been built. *)
Inductive Checkpointed (A : Type) :=
| Plain (f : A → A)
| Then (first second : Checkpointed A)
| Remat (c : Checkpointed A).
Arguments Plain {A} f.
Arguments Then {A} first second.
Arguments Remat {A} c.

(** Calling what was built: [jax.remat] changes when intermediate values are
    computed, not the value returned. *)
Fixpoint run {A} (c : Checkpointed A) (x : A) : A :=
  match c with
  | Plain f => f x
  | Then first second => run second (run first x)
  | Remat c => run c x
  end.

(** The functions of the list that occur, in the order they are applied. *)
Fixpoint functions {A} (c : Checkpointed A) : list (A → A) :=
  match c with
  | Plain f => [f]
  | Then first second => (functions first ++ functions second)%list
  | Remat c => functions c
  end.

(** Those of them that are under a [jax.remat]. *)
Fixpoint rematerialised {A} (c : Checkpointed A) : list (A → A) :=
  match c with
  | Plain _ => []
  | Then first second => (rematerialised first ++ rematerialised second)%list
  | Remat c => functions c
  end.

(** [functools.reduce(lambda f, g: lambda x: g(f(x)), funs)], which raises
    [TypeError] on an empty sequence. *)
Definition reduce_compose {A} (funs : list (A → A)) : fallible (Checkpointed A) :=
  match funs with
  | [] => Failed TypeError
  | f :: rest => Done (fold_left (λ f g, Then f (Plain g)) rest (Plain f))
  end.

(** [recursive_checkpoint(funs, threshold)], with a bound on the depth of
    the recursion; [None] when the bound is reached.  The two recursive
    calls do not pass [threshold] on, so they run with the default, 2. *)
Fixpoint recursive_checkpoint_fuel {A} (fuel : nat) (funs : list (A → A)) (threshold : Z)
    : option (fallible (Checkpointed A)) :=
  match fuel with
  | O => None
  | S fuel =>
      match funs with
      | [f] => Some (Done (Plain f))
      | [f1; f2] => Some (Done (Then (Plain f1) (Plain f2)))
      | _ =>
          if (Z.of_nat (length funs) <=? threshold)%Z then Some (reduce_compose funs)
          else
            match recursive_checkpoint_fuel fuel (take (length funs / 2) funs) 2 with
            | None => None
            | Some (Failed e) => Some (Failed e)
            | Some (Done f1) =>
                match recursive_checkpoint_fuel fuel (drop (length funs / 2) funs) 2 with
                | None => None
                | Some (Failed e) => Some (Failed e)
                | Some (Done f2) => Some (Done (Then (Remat f1) f2))
                end
            end
      end
  end.

(** The depth of the recursion is less than the length of the list plus
    two. *)
Definition recursive_checkpoint {A} (funs : list (A → A)) (threshold : Z)
    : option (fallible (Checkpointed A)) :=
  recursive_checkpoint_fuel (2 + length funs) funs threshold.

(** A Python function object, as far as [named_call] looks at it: its
    identity, [__name__], [__qualname__] and, for a bound method, the name
    of the class of [__self__]. *)
Record PyFunction := mkPyFunction {
  py_id : nat;
  py_name : string;
  py_qualname : string;
  py_self_class : option string;
}.

(** [_UNSPECIFIED()]. *)
Definition _UNSPECIFIED : outcome PyFunction := Raise (ValueError "unspecified").

(** What [named_call] returns: the decorator [lambda f: named_call(f, name)]
    or [jax.named_scope(name)(f)]. *)
Inductive NamedCall :=
| Decorator (name : option string)
| NamedScope (name : string) (f : PyFunction).

(** [named_call(f, name)].  The test [f is _UNSPECIFIED()] calls
    [_UNSPECIFIED]. *)
Definition named_call (f : PyFunction) (name : option string) : outcome NamedCall :=
  match _UNSPECIFIED with
  | Raise e => Raise e
  | Return unspecified =>
      if bool_decide (py_id f = py_id unspecified) then Return (Decorator name)
      else
        let name :=
          match name with
          | Some name => name
          | None =>
              match py_self_class f with
              | Some class_name =>
                  if bool_decide (py_name f = "__call__") then class_name
                  else py_qualname f
              | None => py_qualname f
              end
          end in
        Return (NamedScope name f)
  end.

(** * Properties *)

(** ** Scoped resource mappings *)

Section ScopedMapping.

Implicit Types (mapping kwargs : ResourceMapping) (w : World).

Lemma lookup_dict_update {V} (d other : gmap string V) k :
  dict_update d other !! k =
    match other !! k with Some v => Some v | None => d !! k end.
Proof.
  unfold dict_update. rewrite lookup_union.
  destruct (other !! k), (d !! k); reflexivity.
Qed.

Lemma lookup_or_empty {V} (a : option (gmap string V)) k :
  or_empty a !! k = a ≫= (.!! k).
Proof.
  unfold or_empty, truthy. destruct a as [d |]; simpl; [| apply lookup_empty].
  case_bool_decide as Hd; simpl; [| reflexivity].
  rewrite Hd. reflexivity.
Qed.

Lemma lookup_entered_mapping mapping merge kwargs old k :
  entered_mapping mapping merge kwargs old !! k =
    match kwargs !! k with
    | Some v => Some v
    | None =>
        if merge then
          match old ≫= (.!! k) with
          | Some v => Some v
          | None => mapping !! k
          end
        else mapping !! k
    end.
Proof.
  unfold entered_mapping. case_bool_decide as Hkw.
  - rewrite lookup_dict_update. destruct (kwargs !! k); [reflexivity |].
    destruct merge; [| reflexivity].
    rewrite lookup_dict_update, lookup_or_empty. reflexivity.
  - assert (kwargs = ∅) as -> by (apply map_size_empty_iff; lia).
    rewrite lookup_empty. destruct merge; [| reflexivity].
    rewrite lookup_dict_update, lookup_or_empty. reflexivity.
Qed.

Lemma axis_mapping_run {A} mapping merge kwargs (body : M A) w :
  axis_mapping mapping merge kwargs body w =
    let entered := entered_mapping mapping merge kwargs (resource_mapping w) in
    let inner := body (set_resource_mapping (Some entered) w) in
    (fst inner, set_resource_mapping (resource_mapping w) (snd inner)).
Proof.
  unfold axis_mapping, bind, gets, modify, finally. simpl.
  destruct (body _); reflexivity.
Qed.

(** C2, as the code has it: inside a scope entered with [merge=True] the
    overrides come first, then the entries of the previously active mapping,
    and the entries of the new mapping only for names the previous mapping
    does not have. *)
Theorem axis_mapping_merge_lookup mapping kwargs w k :
  ∃ inside,
    fst (axis_mapping mapping true kwargs current_mapping w) = Return (Some inside) ∧
    inside !! k =
      match kwargs !! k with
      | Some v => Some v
      | None =>
          match resource_mapping w ≫= (.!! k) with
          | Some v => Some v
          | None => mapping !! k
          end
      end.
Proof.
  rewrite axis_mapping_run. simpl. eexists. split; [reflexivity |].
  rewrite lookup_entered_mapping. reflexivity.
Qed.

(** C2 fails as stated: with the previous mapping sending [batch] to [data]
    and the new one sending it to [model], the scope observes [data]. *)
Lemma axis_mapping_merge_previous_wins :
  let previous : ResourceMapping := {[ "batch" := Phys "data" ]} in
  let new : ResourceMapping := {[ "batch" := Phys "model" ]} in
  let w := set_resource_mapping (Some previous) (fresh_world None false) in
  fst (axis_mapping new true ∅ (gets (physical_axis_name (SelStr "batch") None)) w)
    = Return (Some (Phys "data")) ∧
  new !! "batch" = Some (Phys "model") ∧
  fst (axis_mapping new true ∅ (gets (physical_axis_name (SelStr "batch") None)) w)
    ≠ Return (new !! "batch").
Proof. vm_compute. split; [reflexivity | split; [reflexivity | discriminate]]. Qed.

Lemma enter_scopes_run {A} scopes (body : M A) : ∀ w,
  fst (enter_scopes scopes body w)
    = fst (body (set_resource_mapping (mapping_inside scopes (resource_mapping w)) w)) ∧
  (scopes ≠ [] →
   resource_mapping (snd (enter_scopes scopes body w)) = resource_mapping w).
Proof.
  induction scopes as [| s scopes IH]; intros w.
  - simpl. split; [| done]. by destruct w.
  - cbn [enter_scopes mapping_inside fold_left]. rewrite axis_mapping_run. cbn [fst snd].
    split; [| reflexivity].
    destruct (IH (set_resource_mapping
                    (Some (entered_mapping (scope_mapping s) (scope_merge s)
                             (scope_overrides s) (resource_mapping w))) w)) as [-> _].
    reflexivity.
Qed.

(** C4: whatever runs inside a scope, and whether it returns or raises,
    leaving the scope puts back the mapping that was active on entry
    ([None] included) and passes the outcome of the body on; so for scopes
    entered one inside the other the body sees the mapping built by the
    entries in order, and after the outermost scope is left the mapping is
    the one from before the first entry. *)
Theorem axis_mapping_restores {A} mapping merge kwargs (scopes : list Scope)
    (body : M A) w :
  resource_mapping (snd (axis_mapping mapping merge kwargs body w)) = resource_mapping w ∧
  fst (axis_mapping mapping merge kwargs body w) =
    fst (body (set_resource_mapping
                 (Some (entered_mapping mapping merge kwargs (resource_mapping w))) w)) ∧
  resource_mapping
    (snd (enter_scopes (mkScope mapping merge kwargs :: scopes) body w))
    = resource_mapping w ∧
  fst (enter_scopes scopes current_mapping w)
    = Return (mapping_inside scopes (resource_mapping w)).
Proof.
  rewrite axis_mapping_run. split; [reflexivity |]. split; [reflexivity |].
  split.
  - by apply enter_scopes_run.
  - by rewrite (proj1 (enter_scopes_run scopes current_mapping w)).
Qed.

End ScopedMapping.

(** ** Partition specs *)

Section PartitionSpecs.

Implicit Types (axis : AxisSelector) (w : World) (env : Mesh).

(** The mapping [physical_axis_name] looks the axis up in. *)
Lemma physical_axis_name_lookup axis mapping w :
  physical_axis_name axis mapping w =
    py_or mapping (resource_mapping w) ≫= (.!! selector_name axis).
Proof.
  unfold physical_axis_name. destruct (py_or _ _); [| reflexivity].
  destruct axis; reflexivity.
Qed.

Lemma py_or_nonempty {V} (m : gmap string V) b : m ≠ ∅ → py_or (Some m) b = Some m.
Proof.
  intros Hm. unfold py_or, truthy. rewrite bool_decide_eq_false_2 by exact Hm.
  reflexivity.
Qed.

Lemma py_or_empty {V} (b : option (gmap string V)) : py_or (Some ∅) b = b.
Proof. unfold py_or, truthy. rewrite bool_decide_eq_true_2; reflexivity. Qed.

Lemma py_or_None {V} (b : option (gmap string V)) : py_or None b = b.
Proof. reflexivity. Qed.

(** C10: an explicitly supplied empty mapping is falsy, so the lookup goes
    to the scoped mapping exactly as when no mapping is passed; under an
    active scope the axis is then as mapped as the scope says, not
    unmapped. *)
Theorem physical_axis_name_empty_mapping axis (axes : list AxisSelector)
    (scoped : ResourceMapping) w :
  physical_axis_name axis (Some ∅) w = physical_axis_name axis None w ∧
  pspec_for_axis axes (Some ∅) w = pspec_for_axis axes None w ∧
  physical_axis_name axis (Some ∅) (set_resource_mapping (Some scoped) w)
    = scoped !! selector_name axis.
Proof.
  split; [| split].
  - rewrite !physical_axis_name_lookup, py_or_empty, py_or_None. reflexivity.
  - unfold pspec_for_axis. apply map_ext. intros a.
    rewrite !physical_axis_name_lookup, py_or_empty, py_or_None. reflexivity.
  - rewrite physical_axis_name_lookup, py_or_empty. reflexivity.
Qed.

(** C7: the spec has one entry per axis, in the order of the axes; entry
    [i] is [physical_axis_name] of axis [i], and it is [None] (replicate)
    when the mapping in force does not have the axis: a supplied non-empty
    mapping, or the scoped one otherwise, or none at all. *)
Theorem pspec_for_axis_entries (axes : list AxisSelector) mapping w i a :
  axes !! i = Some a →
  length (pspec_for_axis axes mapping w) = length axes ∧
  pspec_for_axis axes mapping w !! i = Some (physical_axis_name a mapping w) ∧
  (∀ m : ResourceMapping, mapping = Some m → m ≠ ∅ → m !! selector_name a = None →
     pspec_for_axis axes mapping w !! i = Some None) ∧
  (∀ m : ResourceMapping, py_or mapping (resource_mapping w) = Some m →
     m !! selector_name a = None →
     pspec_for_axis axes mapping w !! i = Some None) ∧
  (py_or mapping (resource_mapping w) = None →
     pspec_for_axis axes mapping w !! i = Some None).
Proof.
  intros Ha. unfold pspec_for_axis.
  assert (Hi : map (λ a, physical_axis_name a mapping w) axes !! i
               = Some (physical_axis_name a mapping w)).
  { rewrite list_lookup_fmap, Ha. reflexivity. }
  rewrite length_map. split; [reflexivity |]. split; [exact Hi |].
  rewrite Hi, physical_axis_name_lookup. split; [| split].
  - intros m -> Hne Hm. rewrite py_or_nonempty by exact Hne. simpl. by rewrite Hm.
  - intros m -> Hm. simpl. by rewrite Hm.
  - intros ->. reflexivity.
Qed.

Lemma pspec_for_axis_entries_witness :
  let axes := [SelAxis (mkAxis "batch" 8); SelAxis (mkAxis "hidden" 64)] in
  let mapping : ResourceMapping := {[ "batch" := Phys "data" ]} in
  let w := fresh_world None false in
  pspec_for_axis axes (Some mapping) w = [Some (Phys "data"); None] ∧
  length (pspec_for_axis axes (Some mapping) w) = length axes ∧
  pspec_for_axis axes (Some mapping) w !! 1%nat = Some None.
Proof.
  split; [vm_compute; reflexivity |].
  pose proof (pspec_for_axis_entries
                [SelAxis (mkAxis "batch" 8); SelAxis (mkAxis "hidden" 64)]
                (Some {[ "batch" := Phys "data" ]}) (fresh_world None false)
                1%nat (SelAxis (mkAxis "hidden" 64)) eq_refl) as (Hlen & _ & Hrep & _).
  split; [exact Hlen |].
  apply (Hrep {[ "batch" := Phys "data" ]} eq_refl).
  - intros H. apply (f_equal (.!! "batch")) in H. vm_compute in H. discriminate H.
  - vm_compute. reflexivity.
Defined.

(** [math.prod] multiplies the elements. *)
Lemma prod_cons z zs : prod (z :: zs) = z * prod zs.
Proof.
  unfold prod. simpl.
  assert (H : ∀ acc, fold_left Z.mul zs acc = acc * fold_left Z.mul zs 1).
  { induction zs as [| y ys IH]; intros acc; simpl; [lia |].
    rewrite (IH (acc * y)), (IH (1 * y)). lia. }
  rewrite (H (1 * z)). lia.
Qed.

Lemma prod_fold_right zs : prod zs = fold_right Z.mul 1 zs.
Proof. induction zs as [| z zs IH]; [reflexivity |]. rewrite prod_cons, IH. reflexivity. Qed.

Lemma prod_pos zs : Forall (λ z, 0 < z) zs → 0 < prod zs.
Proof.
  induction 1 as [| z zs Hz _ IH]; [reflexivity |]. rewrite prod_cons. lia.
Qed.

Lemma mesh_sizes_Forall2 (shape : gmap string Z) names zs :
  mesh_sizes shape names = Return zs ↔ Forall2 (λ n z, shape !! n = Some z) names zs.
Proof.
  revert zs. induction names as [| n names IH]; intros zs; simpl.
  - split; [intros [= <-]; constructor | inversion 1; reflexivity].
  - split.
    + destruct (shape !! n) as [z |] eqn:Hn; [| discriminate].
      destruct (mesh_sizes shape names) as [zs' | e] eqn:Hrec; [| discriminate].
      intros [= <-]. constructor; [exact Hn | by apply IH].
    + inversion 1 as [| ? z ? zs' Hn Hrest]; subst.
      rewrite Hn. apply IH in Hrest. rewrite Hrest. reflexivity.
Qed.

Lemma mesh_sizes_missing (shape : gmap string Z) names :
  (∃ e, mesh_sizes shape names = Raise e) ↔ ∃ n, n ∈ names ∧ shape !! n = None.
Proof.
  induction names as [| n names IH]; simpl.
  - split; [intros [e [=]] | intros (n & Hn & _); inversion Hn].
  - destruct (shape !! n) as [z |] eqn:Hn.
    + destruct (mesh_sizes shape names) as [zs | e] eqn:Hrec.
      * split; [intros [e [=]] |]. intros (n' & Hin & Hnone).
        apply elem_of_cons in Hin as [-> | Hin]; [congruence |].
        destruct (proj2 IH) as [e He]; [eauto | discriminate He].
      * split; [| eauto]. intros _. destruct (proj1 IH) as (n' & Hin & Hnone); [eauto |].
        exists n'. split; [apply elem_of_cons; by right | exact Hnone].
    + split; [| eauto]. intros _. exists n. split; [apply elem_of_cons; by left | exact Hn].
Qed.

(** The three ways [physical_axis_size] ends. *)
Lemma physical_axis_size_run axis mapping w :
  physical_axis_size axis mapping w =
    match thread_env w with
    | None => (Raise (ValueError "No resource mapping found"), w)
    | Some env =>
        match physical_axis_name axis mapping w with
        | None => (Return None, w)
        | Some name =>
            match mesh_sizes (mesh_shape env) (spec_names name) with
            | Return zs => (Return (Some (fold_right Z.mul 1 zs)), w)
            | Raise e => (Raise e, w)
            end
        end
    end.
Proof.
  unfold physical_axis_size. destruct (thread_env w) as [env |]; [| reflexivity].
  destruct (physical_axis_name axis mapping w) as [name |]; [| reflexivity].
  destruct (mesh_sizes _ _) as [zs | e]; [| reflexivity].
  by rewrite prod_fold_right.
Qed.

(** C8, as the code has it: [ValueError] exactly when there is no mesh
    environment; with one, [None] for an axis the mapping in force does not
    have (also when there is no mapping at all), and the product of the
    mesh sizes of the physical axes of its spec when all of them are axes of
    the mesh. *)
Theorem physical_axis_size_spec axis mapping w :
  (thread_env w = None →
     physical_axis_size axis mapping w = (Raise (ValueError "No resource mapping found"), w)) ∧
  (∀ env, thread_env w = Some env → physical_axis_name axis mapping w = None →
     physical_axis_size axis mapping w = (Return None, w)) ∧
  (∀ env name zs, thread_env w = Some env →
     physical_axis_name axis mapping w = Some name →
     Forall2 (λ n z, mesh_shape env !! n = Some z) (spec_names name) zs →
     physical_axis_size axis mapping w = (Return (Some (fold_right Z.mul 1 zs)), w)).
Proof.
  rewrite physical_axis_size_run. split; [| split].
  - intros ->. reflexivity.
  - intros env -> ->. reflexivity.
  - intros env name zs -> -> Hzs. apply mesh_sizes_Forall2 in Hzs.
    rewrite Hzs. reflexivity.
Qed.

Lemma physical_axis_size_spec_witness :
  let env := mkMesh (<["data" := 2]> (<["model" := 4]> ∅)) true in
  let mapping : ResourceMapping := {[ "embed" := PhysSeq ["data"; "model"] ]} in
  physical_axis_size (SelStr "embed") (Some mapping) (fresh_world None false)
    = (Raise (ValueError "No resource mapping found"), fresh_world None false) ∧
  physical_axis_size (SelStr "heads") (Some mapping) (fresh_world (Some env) false)
    = (Return None, fresh_world (Some env) false) ∧
  physical_axis_size (SelStr "embed") (Some mapping) (fresh_world (Some env) false)
    = (Return (Some 8), fresh_world (Some env) false).
Proof.
  split; [| split].
  - apply (proj1 (physical_axis_size_spec (SelStr "embed")
                    (Some {[ "embed" := PhysSeq ["data"; "model"] ]})
                    (fresh_world None false))).
    reflexivity.
  - apply (proj1 (proj2 (physical_axis_size_spec (SelStr "heads")
                    (Some {[ "embed" := PhysSeq ["data"; "model"] ]})
                    (fresh_world (Some (mkMesh (<["data" := 2]> (<["model" := 4]> ∅)) true))
                                 false)))
             (mkMesh (<["data" := 2]> (<["model" := 4]> ∅)) true));
      [reflexivity | vm_compute; reflexivity].
  - apply (proj2 (proj2 (physical_axis_size_spec (SelStr "embed")
                    (Some {[ "embed" := PhysSeq ["data"; "model"] ]})
                    (fresh_world (Some (mkMesh (<["data" := 2]> (<["model" := 4]> ∅)) true))
                                 false)))
             (mkMesh (<["data" := 2]> (<["model" := 4]> ∅)) true)
             (PhysSeq ["data"; "model"]) [2; 4]);
      [reflexivity | vm_compute; reflexivity |].
    repeat constructor.
Defined.

(** C8 fails as stated: with a mesh environment but no mapping at all
    (none passed, no scope entered) the result is [None], not an error. *)
Lemma physical_axis_size_no_mapping_is_none :
  let env := mkMesh (<["data" := 2]> (<["model" := 4]> ∅)) true in
  let w := fresh_world (Some env) false in
  resource_mapping w = None ∧
  fst (physical_axis_size (SelStr "batch") None w) = Return None ∧
  ∀ e, fst (physical_axis_size (SelStr "batch") None w) ≠ Raise e.
Proof. vm_compute. split; [reflexivity | split; [reflexivity | discriminate]]. Qed.

End PartitionSpecs.

(** ** Rounding an axis *)

Section Rounding.

Lemma round_up_bounds (s size : Z) :
  0 < size →
  let r := (s + size - 1) / size * size in
  (size | r) ∧ s ≤ r < s + size ∧ ((size | s) → r = s).
Proof.
  intros Hpos r. subst r.
  pose proof (Z.div_mod (s + size - 1) size ltac:(lia)) as Hdm.
  pose proof (Z.mod_pos_bound (s + size - 1) size Hpos) as Hmod.
  split; [apply Z.divide_factor_r |]. split; [nia |].
  intros [q ->].
  replace (q * size + size - 1) with (size - 1 + q * size) by lia.
  rewrite Z.div_add by lia.
  rewrite (Z.div_small (size - 1) size) by lia. lia.
Qed.

(** C6: on a mesh environment in which the physical axes that the mapping in
    force gives the axis exist with positive sizes, rounding returns, and
    never raises: the axis itself when it is unmapped; otherwise an axis of
    the same name whose size is the least multiple of the physical axis size
    that is not below the size of the axis, which is the axis itself when
    its size is already such a multiple, as it always is for a physical
    size of 1.  The size never shrinks. *)
Theorem round_axis_for_partitioning_spec (axis : Axis) mapping w env :
  thread_env w = Some env →
  (∀ name, physical_axis_name (SelAxis axis) mapping w = Some name →
     Forall (λ n, ∃ z, mesh_shape env !! n = Some z ∧ 0 < z) (spec_names name)) →
  ∃ rounded,
    round_axis_for_partitioning axis mapping w = (Return rounded, w) ∧
    axis_name rounded = axis_name axis ∧
    (axis_size axis ≤ axis_size rounded)%Z ∧
    (physical_axis_name (SelAxis axis) mapping w = None → rounded = axis) ∧
    (∀ size, physical_axis_size (SelAxis axis) mapping w = (Return (Some size), w) →
       0 < size ∧
       (size | axis_size rounded) ∧
       axis_size rounded < axis_size axis + size ∧
       ((size | axis_size axis) → rounded = axis) ∧
       (size = 1 → rounded = axis)).
Proof.
  intros Henv Hmesh. unfold round_axis_for_partitioning, bind.
  rewrite physical_axis_size_run, Henv.
  destruct (physical_axis_name (SelAxis axis) mapping w) as [name |] eqn:Hname.
  - assert (Hzs : ∃ zs, mesh_sizes (mesh_shape env) (spec_names name) = Return zs ∧
                        Forall (λ z, 0 < z) zs).
    { specialize (Hmesh name eq_refl).
      induction Hmesh as [| n names (z & Hz & Hpos) _ (zs & Hzs & Hall)].
      - exists []. by split.
      - exists (z :: zs). simpl. rewrite Hz, Hzs. split; [reflexivity |]. by constructor. }
    destruct Hzs as (zs & Hzs & Hpos). rewrite Hzs.
    apply prod_pos in Hpos. rewrite prod_fold_right in Hpos.
    set (size := fold_right Z.mul 1 zs) in *.
    unfold floordiv. rewrite bool_decide_eq_false_2 by lia.
    destruct (round_up_bounds (axis_size axis) size Hpos) as (Hdiv & Hle & Hsame).
    eexists. split; [reflexivity |]. cbn [axis_name axis_size].
    split; [reflexivity |]. split; [lia |]. split; [discriminate |].
    intros size' [= <-]. split; [exact Hpos |]. split; [exact Hdiv |]. split; [lia |].
    assert (Hfix : (size | axis_size axis) →
              mkAxis (axis_name axis) ((axis_size axis + size - 1) / size * size) = axis).
    { intros Hd. rewrite (Hsame Hd). by destruct axis. }
    split; [exact Hfix |].
    intros Hone. apply Hfix. rewrite Hone. apply Z.divide_1_l.
  - exists axis. split; [reflexivity |]. split; [reflexivity |]. split; [lia |].
    split; [reflexivity |]. intros size [=].
Qed.

Lemma round_axis_for_partitioning_spec_witness :
  let env := mkMesh (<["data" := 4]> (<["model" := 2]> ∅)) true in
  let mapping : ResourceMapping := {[ "batch" := Phys "data" ]} in
  let w := fresh_world (Some env) false in
  round_axis_for_partitioning (mkAxis "hidden" 10) (Some mapping) w
    = (Return (mkAxis "hidden" 10), w) ∧
  round_axis_for_partitioning (mkAxis "batch" 10) (Some mapping) w
    = (Return (mkAxis "batch" 12), w).
Proof.
  intros env mapping w. split.
  - destruct (round_axis_for_partitioning_spec (mkAxis "hidden" 10) (Some mapping) w env
                eq_refl) as (rounded & Hrun & _ & _ & Hsame & _).
    + intros name Hname. vm_compute in Hname. discriminate Hname.
    + rewrite Hrun, (Hsame eq_refl). reflexivity.
  - destruct (round_axis_for_partitioning_spec (mkAxis "batch" 10) (Some mapping) w env
                eq_refl) as (rounded & Hrun & Hname & _ & _ & Hsize).
    + intros name Hname. vm_compute in Hname. injection Hname as <-.
      repeat constructor. exists 4. split; [reflexivity | lia].
    + destruct (Hsize 4 eq_refl) as (_ & [q Hq] & Hlt & _).
      destruct rounded as [name size]. cbn [axis_name axis_size] in *.
      rewrite Hrun. subst name. do 3 f_equal.
      destruct (round_axis_for_partitioning_spec (mkAxis "batch" 10) (Some mapping) w env
                  eq_refl) as (rounded' & Hrun' & _ & Hge & _).
      * intros name Hname. vm_compute in Hname. injection Hname as <-.
        repeat constructor. exists 4. split; [reflexivity | lia].
      * rewrite Hrun in Hrun'. injection Hrun' as <-. cbn [axis_size] in Hge. lia.
Defined.

End Rounding.

(** ** Resolution of the resources of [named_pjit] *)

Section Resolution.

(** C5: [in_axis_resources] and [out_axis_resources] default to
    [axis_resources], which defaults to the scoped mapping; when that leaves
    [axis_resources] and one of the other two without a mapping, [named_pjit]
    raises [ValueError] and nothing else has happened: no cache entry, no
    pjit callable, no executable, no call of the backend.  Called without
    [fn] it only returns the partial application. *)
Theorem named_pjit_resolution (fn : Callable) (options : PjitOptions) (w : World) :
  let resolved := or_else (axis_resources options) (resource_mapping w) in
  let resolved_in := or_else (in_axis_resources options) resolved in
  let resolved_out := or_else (out_axis_resources options) resolved in
  named_pjit None options w = (Return (PartialNamedPjit options), w) ∧
  (resolved = None ∧ (resolved_in = None ∨ resolved_out = None) →
     ∃ msg, named_pjit (Some fn) options w = (Raise (ValueError msg), w)) ∧
  (¬ (resolved = None ∧ (resolved_in = None ∨ resolved_out = None)) →
     named_pjit (Some fn) options w =
       (Return (WrappedFn (mkWrapped fn
          (mkPjitOptions resolved resolved_in resolved_out
             (donate_args options) (donate_kwargs options) (pjit_args options)))), w)) ∧
  (axis_resources options = None → in_axis_resources options = None →
   out_axis_resources options = None → resource_mapping w = None →
     ∃ msg, named_pjit (Some fn) options w = (Raise (ValueError msg), w)).
Proof.
  intros resolved resolved_in resolved_out.
  assert (Hrun : named_pjit (Some fn) options w =
    if bool_decide (resolved = None) &&
       (bool_decide (resolved_in = None) || bool_decide (resolved_out = None))
    then (Raise (ValueError
      "Must provide axis_resources, or in_axis_resources and out_axis_resources, or have a global mapping via axis_mapping"), w)
    else (Return (WrappedFn (mkWrapped fn
          (mkPjitOptions resolved resolved_in resolved_out
             (donate_args options) (donate_kwargs options) (pjit_args options)))), w)).
  { subst resolved resolved_in resolved_out. unfold named_pjit, bind, gets, ret, raise, or_else.
    destruct (axis_resources options) as [ar |]; simpl;
      destruct (in_axis_resources options), (out_axis_resources options); simpl;
      try reflexivity;
      destruct (resource_mapping w); reflexivity. }
  assert (Hcond : bool_decide (resolved = None) &&
       (bool_decide (resolved_in = None) || bool_decide (resolved_out = None)) = true
       ↔ resolved = None ∧ (resolved_in = None ∨ resolved_out = None)).
  { rewrite andb_true_iff, orb_true_iff, !bool_decide_eq_true. reflexivity. }
  split; [reflexivity |]. split; [| split].
  - intros H. apply Hcond in H. rewrite Hrun, H. eauto.
  - intros H. rewrite Hrun.
    rewrite (proj1 (not_true_iff_false _)); [reflexivity |].
    rewrite Hcond. exact H.
  - intros Ha Hi Ho Hw. rewrite Hrun.
    subst resolved resolved_in resolved_out. rewrite Ha, Hi, Ho, Hw. simpl. eauto.
Qed.

Lemma named_pjit_resolution_witness :
  let fn := mkCallable (TLeaf (LAtom (AFun 1))) ("f", "f") (λ args _, TNode KTuple args) in
  let scoped : ResourceMapping := {[ "batch" := Phys "data" ]} in
  let bare := mkPjitOptions None None None None None ∅ in
  (∃ msg, named_pjit (Some fn) bare (fresh_world None false)
          = (Raise (ValueError msg), fresh_world None false)) ∧
  named_pjit (Some fn) bare (set_resource_mapping (Some scoped) (fresh_world None false))
    = (Return (WrappedFn (mkWrapped fn
         (mkPjitOptions (Some scoped) (Some scoped) (Some scoped) None None ∅))),
       set_resource_mapping (Some scoped) (fresh_world None false)).
Proof.
  split.
  - apply (proj2 (proj2 (proj2 (named_pjit_resolution
             (mkCallable (TLeaf (LAtom (AFun 1))) ("f", "f") (λ args _, TNode KTuple args))
             (mkPjitOptions None None None None None ∅) (fresh_world None false)))));
      reflexivity.
  - apply (proj1 (proj2 (proj2 (named_pjit_resolution
             (mkCallable (TLeaf (LAtom (AFun 1))) ("f", "f") (λ args _, TNode KTuple args))
             (mkPjitOptions None None None None None ∅)
             (set_resource_mapping (Some {[ "batch" := Phys "data" ]})
                                   (fresh_world None false)))))).
    simpl. intros [H _]. discriminate H.
Defined.

End Resolution.

(** ** Applying a mapping eagerly *)

Section EagerSharding.

Context `{rt : Runtime}.
Variables (mesh : Mesh) (mapping : ResourceMapping).

Lemma same_context_refl w : same_context w w.
Proof. repeat split. Qed.

Lemma same_context_trans w1 w2 w3 :
  same_context w1 w2 → same_context w2 w3 → same_context w1 w3.
Proof. intros (? & ? & ?) (? & ? & ?). repeat split; congruence. Qed.

Lemma pspec_for_axis_context axes m w w' :
  same_context w w' → pspec_for_axis axes m w' = pspec_for_axis axes m w.
Proof.
  intros (Hm & _ & _). unfold pspec_for_axis. apply map_ext. intros a.
  rewrite !physical_axis_name_lookup, Hm. reflexivity.
Qed.

Lemma placed_context w w' x :
  same_context w w' → placed mesh mapping w' x = placed mesh mapping w x.
Proof.
  intros Hctx. induction x as [l | k ts IH] using PyTree_ind; [reflexivity |].
  destruct k; simpl;
    try (induction IH as [| t ts Ht _ IHts]; simpl; [reflexivity | by rewrite Ht, IHts]).
  by rewrite (pspec_for_axis_context _ _ _ _ Hctx).
Qed.

Lemma forallb_placed_context w w' ts :
  same_context w w' →
  forallb (placed mesh mapping w') ts = forallb (placed mesh mapping w) ts.
Proof.
  intros Hctx. induction ts as [| t ts IH]; [reflexivity |].
  simpl. rewrite (placed_context _ _ _ Hctx), IH. reflexivity.
Qed.

Lemma tree_map_named_node f k ts :
  is_named_array (TNode k ts) = false →
  tree_map_named f (TNode k ts) =
    (let* ts' := tree_map_named_list f ts in ret (TNode k ts')).
Proof. destruct k; simpl; (discriminate || reflexivity). Qed.

Lemma tree_map_named_leaf f t :
  (∃ l, t = TLeaf l) ∨ is_named_array t = true → tree_map_named f t = f t.
Proof.
  intros [[l ->] | H]; [reflexivity |].
  destruct t as [| [] ?]; (discriminate || reflexivity).
Qed.

(** A sharding that was made is the sharding of the mesh and the spec. *)
Lemma named_sharding_returns (m : Mesh) pspec sharding :
  named_sharding m pspec = Return sharding → sharding = NamedSharding m pspec.
Proof.
  unfold named_sharding. destruct (jax_refuses _); [discriminate |].
  destruct (find _ _); [discriminate |]. by intros [= <-].
Qed.

Lemma sharding_eqb_refl s : sharding_eqb s s = true.
Proof. by apply bool_decide_eq_true_2. Qed.

(** The eager leaf function on a named array, step by step. *)
Lemma _do_device_put_run axes children w :
  _do_device_put mesh mapping (TNode (KNamed axes) children) w =
    match named_sharding mesh (pspec_for_axis (as_selectors axes) (Some mapping) w) with
    | Raise e => (Raise e, w)
    | Return sharding =>
        match children with
        | [TLeaf (LArray raw_x)] =>
            if sharding_eqb (arr_sharding raw_x) sharding
            then (Return (TNode (KNamed axes) children), w)
            else
              match jax_refuses (if mesh_addressable mesh then AskDevicePut raw_x sharding
                                 else AskCallback raw_x sharding) with
              | Some e => (Raise e, w)
              | None =>
                  (Return (TNamed (TLeaf (LArray (mkArray (arr_data raw_x) (arr_shape raw_x)
                                                          (arr_dtype raw_x) sharding))) axes),
                   log_backend (if mesh_addressable mesh
                                then DevicePut (arr_data raw_x) sharding
                                else MakeArrayFromCallback (arr_data raw_x) sharding) w)
              end
        | _ => (Raise (AttributeError "sharding"), w)
        end
    end.
Proof.
  unfold _do_device_put, bind, gets, lift_outcome.
  destruct (named_sharding mesh _) as [sharding | e]; [| reflexivity].
  destruct children as [| [[raw | | | |] | ] [|]]; try reflexivity.
  destruct (sharding_eqb (arr_sharding raw) sharding); [reflexivity |].
  unfold device_put, make_array_from_callback, bind, modify, ret, raise.
  destruct (mesh_addressable mesh); destruct (jax_refuses _); reflexivity.
Qed.

(** A leaf that is already placed is returned as it is, without a request
    to the backend. *)
Lemma _do_device_put_placed w x :
  (∃ l, x = TLeaf l) ∨ is_named_array x = true →
  placed mesh mapping w x = true →
  _do_device_put mesh mapping x w = (Return x, w).
Proof.
  intros [[l ->] | Hnamed] Hplaced; [reflexivity |].
  destruct x as [| [] children]; try discriminate.
  rewrite _do_device_put_run. cbn [placed] in Hplaced.
  destruct children as [| [[raw | | | |] | ] [|]]; try discriminate.
  destruct (named_sharding mesh _) as [sharding | e]; [| discriminate].
  by rewrite Hplaced.
Qed.

(** After [_do_device_put] a named array is placed, and nothing but the
    array inside a named array has changed. *)
Lemma _do_device_put_places w x x1 w1 :
  (∃ l, x = TLeaf l) ∨ is_named_array x = true →
  _do_device_put mesh mapping x w = (Return x1, w1) →
  outside_named x1 = outside_named x ∧ placed mesh mapping w x1 = true ∧ same_context w w1.
Proof.
  intros [[l ->] | Hnamed].
  - intros [= <- <-]. auto using same_context_refl.
  - destruct x as [| [] children]; try discriminate.
    rewrite _do_device_put_run.
    destruct (named_sharding mesh _) as [sharding | e] eqn:Hs; [| discriminate].
    destruct children as [| [[raw | | | |] | ] [|]]; try discriminate.
    destruct (sharding_eqb (arr_sharding raw) sharding) eqn:Heq.
    + intros [= <- <-]. cbn [placed]. rewrite Hs, Heq. auto using same_context_refl.
    + destruct (jax_refuses _); [discriminate |].
      intros [= <- <-]. cbn [placed TNamed arr_sharding]. rewrite Hs, sharding_eqb_refl.
      split; [reflexivity |]. split; [reflexivity |]. repeat split.
Qed.

Lemma tree_map_named_placed x :
  ∀ w, placed mesh mapping w x = true →
       tree_map_named (_do_device_put mesh mapping) x w = (Return x, w).
Proof.
  induction x as [l | k ts IH] using PyTree_ind; intros w Hplaced.
  - rewrite tree_map_named_leaf by (left; eauto).
    by apply _do_device_put_placed; [left; eauto |].
  - destruct (is_named_array (TNode k ts)) eqn:Hk.
    + rewrite tree_map_named_leaf by (by right).
      by apply _do_device_put_placed; [right |].
    + rewrite tree_map_named_node by exact Hk.
      assert (Hts : forallb (placed mesh mapping w) ts = true)
        by (destruct k; (discriminate || exact Hplaced)).
      assert (Hlist : tree_map_named_list (_do_device_put mesh mapping) ts w = (Return ts, w)).
      { clear Hplaced Hk. induction IH as [| t ts' Ht _ IHts]; [reflexivity |].
        simpl in Hts. apply andb_true_iff in Hts as [Hpt Hpts].
        simpl. unfold bind at 1. rewrite (Ht w Hpt).
        unfold bind at 1. rewrite (IHts Hpts). reflexivity. }
      unfold bind. rewrite Hlist. reflexivity.
Qed.

Lemma tree_map_named_places x :
  ∀ w x1 w1, tree_map_named (_do_device_put mesh mapping) x w = (Return x1, w1) →
    outside_named x1 = outside_named x ∧ placed mesh mapping w x1 = true ∧ same_context w w1.
Proof.
  induction x as [l | k ts IH] using PyTree_ind; intros w x1 w1 Hrun.
  - rewrite tree_map_named_leaf in Hrun by (left; eauto).
    by apply _do_device_put_places in Hrun; [| left; eauto].
  - destruct (is_named_array (TNode k ts)) eqn:Hk.
    + rewrite tree_map_named_leaf in Hrun by (by right).
      by apply _do_device_put_places in Hrun; [| right].
    + rewrite tree_map_named_node in Hrun by exact Hk.
      assert (Hlist : ∀ w ts1 w1,
        tree_map_named_list (_do_device_put mesh mapping) ts w = (Return ts1, w1) →
        map outside_named ts1 = map outside_named ts ∧
        forallb (placed mesh mapping w) ts1 = true ∧ same_context w w1).
      { clear Hrun Hk w x1 w1.
        induction IH as [| t ts' Ht _ IHts]; intros w ts1 w1 Hrun.
        - injection Hrun as <- <-. auto using same_context_refl.
        - simpl in Hrun. unfold bind at 1 in Hrun.
          destruct (tree_map_named _ t w) as [[t1 | e] wa] eqn:Et; [| discriminate].
          unfold bind at 1 in Hrun.
          destruct (tree_map_named_list _ ts' wa) as [[ts1' | e] wb] eqn:Ets; [| discriminate].
          injection Hrun as <- <-.
          destruct (Ht _ _ _ Et) as (Ho & Hp & Hc).
          destruct (IHts _ _ _ Ets) as (Hos & Hps & Hcs).
          simpl. rewrite Ho, Hos, Hp.
          rewrite <- (forallb_placed_context w wa ts1' Hc), Hps.
          eauto using same_context_trans. }
      unfold bind in Hrun.
      destruct (tree_map_named_list _ ts w) as [[ts1 | e] wa] eqn:Ets; [| discriminate].
      injection Hrun as <- <-.
      destruct (Hlist _ _ _ Ets) as (Ho & Hp & Hc).
      destruct k; try discriminate; simpl; rewrite Ho; auto.
Qed.

Lemma add_log_nil w : add_log [] w = w.
Proof. destruct w. unfold add_log. simpl. by rewrite app_nil_r. Qed.

Lemma add_log_app ops1 ops2 w : add_log ops2 (add_log ops1 w) = add_log (ops1 ++ ops2) w.
Proof. unfold add_log. simpl. by rewrite app_assoc. Qed.

Lemma pspec_for_axis_scoped axes m w w' :
  resource_mapping w' = resource_mapping w →
  pspec_for_axis axes m w' = pspec_for_axis axes m w.
Proof.
  intros Hm. unfold pspec_for_axis. apply map_ext. intros a.
  by rewrite !physical_axis_name_lookup, Hm.
Qed.

Lemma tree_leaves_node k ts :
  is_named_array (TNode k ts) = false → tree_leaves (TNode k ts) = flat_map tree_leaves ts.
Proof. destruct k; (discriminate || reflexivity). Qed.

Lemma tree_map_pure_node g k ts :
  is_named_array (TNode k ts) = false →
  tree_map_pure g (TNode k ts) = TNode k (map (tree_map_pure g) ts).
Proof. destruct k; (discriminate || reflexivity). Qed.

Lemma tree_map_pure_leaf g t :
  (∃ l, t = TLeaf l) ∨ is_named_array t = true → tree_map_pure g t = g t.
Proof.
  intros [[l ->] | H]; [reflexivity |]. destruct t as [| [] ?]; (discriminate || reflexivity).
Qed.

Lemma tree_leaves_leaf t :
  (∃ l, t = TLeaf l) ∨ is_named_array t = true → tree_leaves t = [t].
Proof.
  intros [[l ->] | H]; [reflexivity |]. destruct t as [| [] ?]; (discriminate || reflexivity).
Qed.

(** A traversal whose leaf function returns a value that depends on the
    leaf only and logs requests that depend on the leaf only, in every world
    with the context of [w0]: the result is the pure map, the log grows by
    the requests of the leaves in order. *)
Lemma tree_map_named_effects (f : PyTree → M PyTree) (pf : PyTree → PyTree)
    (ops : PyTree → list BackendOp) (good : PyTree → Prop) (w0 : World) :
  (∀ t w, same_context w0 w →
          (∃ l, t = TLeaf l) ∨ is_named_array t = true → good t →
          f t w = (Return (pf t), add_log (ops t) w)) →
  ∀ t w, same_context w0 w → Forall good (tree_leaves t) →
    tree_map_named f t w =
      (Return (tree_map_pure pf t), add_log (flat_map ops (tree_leaves t)) w).
Proof.
  intros Hf. induction t as [l | k ts IH] using PyTree_ind; intros w Hw Hgood.
  - rewrite tree_map_named_leaf, tree_map_pure_leaf, tree_leaves_leaf by (left; eauto).
    simpl. rewrite app_nil_r. apply Hf; [done | left; eauto |].
    by inversion Hgood.
  - destruct (is_named_array (TNode k ts)) eqn:Hk.
    + rewrite tree_map_named_leaf, tree_map_pure_leaf by (by right).
      rewrite tree_leaves_leaf in * by (by right).
      simpl. rewrite app_nil_r. apply Hf; [done | by right | by inversion Hgood].
    + rewrite tree_map_named_node, tree_map_pure_node by exact Hk.
      rewrite tree_leaves_node in * by exact Hk.
      assert (Hlist : ∀ w, same_context w0 w →
        tree_map_named_list f ts w =
          (Return (map (tree_map_pure pf) ts),
           add_log (flat_map ops (flat_map tree_leaves ts)) w)).
      { clear Hk w Hw. induction IH as [| t ts' Ht _ IHts]; intros w Hw.
        - simpl. by rewrite add_log_nil.
        - simpl in Hgood. apply Forall_app in Hgood as [Hg1 Hg2].
          simpl. unfold bind at 1. rewrite (Ht w Hw Hg1).
          unfold bind at 1.
          rewrite (IHts Hg2 (add_log (flat_map ops (tree_leaves t)) w) Hw).
          unfold ret. by rewrite add_log_app, flat_map_app. }
      unfold bind. rewrite (Hlist w Hw). reflexivity.
Qed.

(** The eager branch on a tree whose leaves can be placed: a pure map and a
    list of transfers. *)
Lemma shard_with_axis_mapping_eager_run x w :
  jit_context w = false →
  thread_env w = Some mesh →
  Forall (λ t, transferable mesh mapping w t = true) (tree_leaves x) →
  shard_with_axis_mapping x mapping w =
    (Return (tree_map_pure (put_of mesh mapping w) x),
     add_log (flat_map (transfer_of mesh mapping w) (tree_leaves x)) w).
Proof.
  intros Hjit Henv Hx. unfold shard_with_axis_mapping, bind, gets, _get_mesh.
  rewrite Hjit, Henv.
  apply (tree_map_named_effects (_do_device_put mesh mapping) (put_of mesh mapping w)
           (transfer_of mesh mapping w) (λ t, transferable mesh mapping w t = true) w);
    [| apply same_context_refl | exact Hx].
  intros t w' Hw' _ Ht. destruct t as [l | [] ts]; try (simpl; by rewrite add_log_nil).
  rewrite _do_device_put_run. unfold transferable in Ht.
  rewrite (pspec_for_axis_context _ _ _ _ Hw').
  destruct (named_sharding mesh _) as [sharding | e] eqn:Hs; [| discriminate].
  apply named_sharding_returns in Hs. subst sharding.
  destruct ts as [| [[raw | | | |] | ] [|]]; try discriminate.
  unfold put_of, transfer_of.
  destruct (sharding_eqb (arr_sharding raw) _); [by rewrite add_log_nil |].
  cbn [orb] in Ht. apply bool_decide_eq_true in Ht. rewrite Ht.
  destruct (mesh_addressable mesh); reflexivity.
Qed.

End EagerSharding.

(** C9: outside of jit, a tree whose named arrays already have the placement
    of the mapping is returned as it is and the world, with its log of
    backend transfers, is untouched: no data moves.  An application that
    returns changes nothing outside the named arrays and leaves every named
    array so placed, hence applying the mapping again returns the same tree
    and moves nothing.  And an application returns when every named array
    holds an array, its target placement exists on the mesh and JAX accepts
    the transfers. *)
Theorem shard_with_axis_mapping_idempotent `{rt : Runtime} (x : PyTree)
    (mapping : ResourceMapping) (w : World) (mesh : Mesh) :
  jit_context w = false →
  thread_env w = Some mesh →
  (placed mesh mapping w x = true →
     shard_with_axis_mapping x mapping w = (Return x, w)) ∧
  (∀ x1 w1, shard_with_axis_mapping x mapping w = (Return x1, w1) →
     outside_named x1 = outside_named x ∧
     placed mesh mapping w1 x1 = true ∧
     shard_with_axis_mapping x1 mapping w1 = (Return x1, w1)) ∧
  (Forall (λ t, transferable mesh mapping w t = true) (tree_leaves x) →
     ∃ x1 w1, shard_with_axis_mapping x mapping w = (Return x1, w1)).
Proof.
  intros Hjit Henv.
  assert (Hrun : ∀ y w', same_context w w' →
    shard_with_axis_mapping y mapping w' =
      tree_map_named (_do_device_put mesh mapping) y w').
  { intros y w' (_ & He & Hj).
    unfold shard_with_axis_mapping, bind, gets, _get_mesh.
    rewrite Hj, Hjit, He, Henv. reflexivity. }
  split; [| split].
  - intros Hplaced. rewrite Hrun by apply same_context_refl.
    by apply tree_map_named_placed.
  - intros x1 w1. rewrite Hrun by apply same_context_refl. intros Hfirst.
    destruct (tree_map_named_places mesh mapping x w x1 w1 Hfirst) as (Ho & Hp & Hc).
    rewrite <- (placed_context mesh mapping w w1 x1 Hc) in Hp.
    split; [exact Ho |]. split; [exact Hp |].
    rewrite Hrun by exact Hc. by apply tree_map_named_placed.
  - intros Hx. eexists _, _. by apply shard_with_axis_mapping_eager_run.
Qed.

Lemma shard_with_axis_mapping_idempotent_witness :
  let rt := example_runtime (λ _ args _, TNode KTuple args) in
  let mesh := mkMesh (<["data" := 4]> (<["model" := 2]> ∅)) true in
  let mapping : ResourceMapping := {[ "batch" := Phys "data" ]} in
  let axes := [mkAxis "batch" 8; mkAxis "hidden" 64] in
  let x := TNode KTuple
             [TNamed (TLeaf (LArray (mkArray 1 [8; 64] "float32" (SingleDeviceSharding 0)))) axes;
              TLeaf (LArray (mkArray 2 [3] "int32" (SingleDeviceSharding 0)));
              TLeaf (LAtom (AStr "config"))] in
  let w := fresh_world (Some mesh) false in
  ∃ x1 w1,
    shard_with_axis_mapping x mapping w = (Return x1, w1) ∧
    backend_log w1 = [DevicePut 1 (NamedSharding mesh [Some (Phys "data"); None])] ∧
    outside_named x1 = outside_named x ∧
    shard_with_axis_mapping x1 mapping w1 = (Return x1, w1).
Proof.
  intros rt mesh mapping axes x w.
  destruct (shard_with_axis_mapping_idempotent x mapping w mesh eq_refl eq_refl)
    as (_ & Hidem & Hreturns).
  destruct Hreturns as (x1 & w1 & Hrun).
  { repeat constructor. }
  exists x1, w1. split; [exact Hrun |].
  destruct (Hidem x1 w1 Hrun) as (Ho & _ & Hagain).
  split; [| split; [exact Ho | exact Hagain]].
  vm_compute in Hrun. injection Hrun as <- <-. vm_compute. reflexivity.
Defined.

(** ** Partition and combine *)

Section PartitionCombine.

Lemma combine_node k ts k' us :
  (k, ts) ≠ (KNone, []) →
  combine (TNode k ts) (TNode k' us) = TNode k (combine_list ts us).
Proof. intros Hne. destruct k, ts; (reflexivity || contradiction). Qed.

Lemma combine_list_map (f g h : PyTree → PyTree) ts :
  Forall (λ t, combine (f t) (g t) = h t) ts →
  combine_list (map f ts) (map g ts) = map h ts.
Proof. induction 1 as [| t ts Ht _ IH]; simpl; [reflexivity | by rewrite Ht, IH]. Qed.

Lemma combine_node_map (f g h : PyTree → PyTree) k ts :
  Forall (λ t, combine (f t) (g t) = h t) ts →
  combine (TNode k (map f ts)) (TNode k (map g ts)) = TNode k (map h ts).
Proof.
  intros Hts. destruct (decide ((k, ts) = (KNone, []))) as [[= -> ->] | Hne];
    [reflexivity |].
  rewrite combine_node; [by rewrite (combine_list_map f g h) |].
  intros [= -> Hnil]. apply map_eq_nil in Hnil. subst. contradiction.
Qed.


(** Tracing: the static half combined with the shapes of the dynamic half
    is the shape skeleton of the tree. *)
Lemma combine_static_abstract t :
  combine (partition_static t) (abstractify (partition_dynamic t)) = abstractify t.
Proof.
  induction t as [l | k ts IH] using PyTree_ind.
  - destruct l; reflexivity.
  - cbn [partition_dynamic partition_static abstractify]. rewrite map_map.
    by rewrite (combine_node_map _ (λ t, abstractify (partition_dynamic t)) abstractify).
Qed.

Lemma combine_mask_r t : combine t (mask_none t) = t.
Proof.
  induction t as [l | k ts IH] using PyTree_ind; [reflexivity |].
  cbn [mask_none]. rewrite <- (map_id ts) at 1.
  rewrite (combine_node_map id mask_none id) by exact IH. by rewrite map_id.
Qed.

Lemma combine_mask_l t : combine (mask_none t) t = t.
Proof.
  induction t as [l | k ts IH] using PyTree_ind; [reflexivity |].
  cbn [mask_none]. rewrite <- (map_id ts) at 2.
  rewrite (combine_node_map mask_none id id) by exact IH. by rewrite map_id.
Qed.

Lemma combine_split_by b t : combine (fst (split_by b t)) (snd (split_by b t)) = t.
Proof. destruct b; simpl; [apply combine_mask_r | apply combine_mask_l]. Qed.

Lemma combine_split_each flags : ∀ ts ds rs,
  split_each flags ts = Return (ds, rs) → combine_list ds rs = ts.
Proof.
  induction flags as [| b flags IH]; intros [| t ts] ds rs; simpl; try discriminate.
  - intros [= <- <-]. reflexivity.
  - destruct (split_each flags ts) as [[ds' rs'] | e] eqn:E; [| discriminate].
    intros [= <- <-]. simpl. rewrite combine_split_by, (IH _ _ _ E). reflexivity.
Qed.

Lemma split_each_length flags : ∀ ts,
  length flags = length ts → ∃ ds rs, split_each flags ts = Return (ds, rs).
Proof.
  induction flags as [| b flags IH]; intros [| t ts]; simpl; try discriminate; [eauto |].
  intros [= Hlen]. destruct (IH ts Hlen) as (ds & rs & ->). eauto.
Qed.

Lemma abstractify_mask_none t : abstractify (mask_none t) = mask_none (abstractify t).
Proof.
  induction t as [l | k ts IH] using PyTree_ind; [destruct l; reflexivity |].
  simpl. rewrite !map_map. f_equal. apply Forall_fmap_ext_1. exact IH.
Qed.

Lemma abstractify_split_by b t :
  split_by b (abstractify t) = (abstractify (fst (split_by b t)), abstractify (snd (split_by b t))).
Proof. destruct b; simpl; by rewrite abstractify_mask_none. Qed.

Lemma abstractify_split_each flags : ∀ ts ds rs,
  split_each flags ts = Return (ds, rs) →
  split_each flags (map abstractify ts) = Return (map abstractify ds, map abstractify rs).
Proof.
  induction flags as [| b flags IH]; intros [| t ts] ds rs; simpl; try discriminate.
  - intros [= <- <-]. reflexivity.
  - destruct (split_each flags ts) as [[ds' rs'] | e] eqn:E; [| discriminate].
    intros [= <- <-]. rewrite (IH _ _ _ E), abstractify_split_by. reflexivity.
Qed.

Lemma abstractify_combine t : ∀ u,
  abstractify (combine t u) = combine (abstractify t) (abstractify u).
Proof.
  induction t as [l | k ts IH] using PyTree_ind; intros u.
  - destruct l; reflexivity.
  - destruct (decide ((k, ts) = (KNone, []))) as [[= -> ->] | Hne]; [reflexivity |].
    assert (Hne' : (k, map abstractify ts) ≠ (KNone, [])).
    { intros [= -> Hnil]. apply map_eq_nil in Hnil. subst. contradiction. }
    destruct u as [l | k' us].
    + transitivity (abstractify (TNode k ts)); [by destruct k, ts |].
      simpl. destruct l; by destruct k, ts.
    + rewrite combine_node by exact Hne. simpl abstractify at 2 3.
      rewrite combine_node by exact Hne'. simpl. f_equal.
      clear Hne Hne'. revert us.
      induction IH as [| t ts Ht _ IHts]; intros [| u us]; simpl; try reflexivity.
      by rewrite Ht, IHts.
Qed.


End PartitionCombine.

(** ** The shape cache *)

Section ShapeCache.

Lemma dict_get_app {K V} `{EqDecision K} (k : K) (v : V) d :
  dict_get k d = None → dict_get k (d ++ [(k, v)]) = Some v.
Proof.
  induction d as [| [k' v'] d IH]; simpl.
  - intros _. by rewrite bool_decide_eq_true_2.
  - case_bool_decide; [discriminate | exact IH].
Qed.

Lemma dict_get_app_l {K V} `{EqDecision K} (k : K) (v : V) d d' :
  dict_get k d = Some v → dict_get k (d ++ d') = Some v.
Proof.
  induction d as [| [k' v'] d IH]; simpl; [discriminate |].
  case_bool_decide; [done | exact IH].
Qed.

(** Shape inference always returns: the halves of a partition line up. *)
Lemma filter_eval_shape_returns fn args kwargs :
  ∃ shape, filter_eval_shape fn args kwargs = Return shape.
Proof.
  unfold filter_eval_shape. rewrite combine_static_abstract.
  unfold call_tree, kwargs_tree. cbn [abstractify map uncall_tree]. eauto.
Qed.

Lemma _cached_filter_eval_shape_run fn args kwargs w shape :
  filter_eval_shape fn args kwargs = Return shape →
  _cached_filter_eval_shape fn args kwargs w =
    match dict_get (shape_key fn args kwargs) (eval_shape_cache w) with
    | Some cached => (Return cached, w)
    | None =>
        (Return shape,
         set_eval_shape_cache
           (eval_shape_cache w ++ [(shape_key fn args kwargs, shape)]) w)
    end.
Proof.
  intros Hshape. unfold _cached_filter_eval_shape, hashable_partition.
  fold (shape_key fn args kwargs).
  unfold bind, gets, modify, lift_outcome, ret, raise. rewrite Hshape.
  destruct (dict_get (shape_key fn args kwargs) (eval_shape_cache w)) as [cached |] eqn:Hget.
  - rewrite bool_decide_eq_true_2 by eauto. simpl. rewrite Hget. reflexivity.
  - rewrite bool_decide_eq_false_2 by (intros [? [=]]). simpl.
    rewrite (dict_get_app _ _ _ Hget). reflexivity.
Qed.

(** Two calls with the same key share one entry: the second call returns
    what the first returned and leaves the cache as the first left it,
    whatever the shapes of its own arrays. *)
Lemma _cached_filter_eval_shape_shared_entry fn args1 kwargs1 args2 kwargs2 w :
  shape_key fn args1 kwargs1 = shape_key fn args2 kwargs2 →
  ∃ shape w1,
    _cached_filter_eval_shape fn args1 kwargs1 w = (Return shape, w1) ∧
    _cached_filter_eval_shape fn args2 kwargs2 w1 = (Return shape, w1).
Proof.
  intros Hkey.
  destruct (filter_eval_shape_returns fn args1 kwargs1) as [shape1 Hsh1].
  destruct (filter_eval_shape_returns fn args2 kwargs2) as [shape2 Hsh2].
  rewrite (_cached_filter_eval_shape_run _ _ _ _ _ Hsh1).
  destruct (dict_get (shape_key fn args1 kwargs1) (eval_shape_cache w)) as [hit |] eqn:Hget.
  - exists hit, w. split; [reflexivity |].
    rewrite (_cached_filter_eval_shape_run _ _ _ _ _ Hsh2), <- Hkey, Hget. reflexivity.
  - eexists _, _. split; [reflexivity |].
    rewrite (_cached_filter_eval_shape_run _ _ _ _ _ Hsh2), <- Hkey.
    cbn [eval_shape_cache set_eval_shape_cache].
    rewrite (dict_get_app _ _ _ Hget). reflexivity.
Qed.

(** C3, evaluated: after a call with an array of shape [2], a call of the
    same function with an array of shape [3] finds the entry of the first
    call, because the key holds no shapes, and receives the skeleton of
    shape [2]; shape inference for that call gives shape [3]. *)
Lemma _cached_filter_eval_shape_ignores_shapes :
  let fn := mkCallable (TLeaf (LAtom (AFun 1))) ("f", "f") (λ args _, TNode KTuple args) in
  let x2 := TLeaf (LArray (mkArray 1 [2] "float32" (SingleDeviceSharding 0))) in
  let x3 := TLeaf (LArray (mkArray 2 [3] "float32" (SingleDeviceSharding 0))) in
  let w0 := fresh_world None false in
  let w1 := snd (_cached_filter_eval_shape fn [x2] ∅ w0) in
  let w2 := snd (_cached_filter_eval_shape fn [x3] ∅ w1) in
  fst (_cached_filter_eval_shape fn [x2] ∅ w0)
    = Return (TNode KTuple [TLeaf (LShape [2] "float32")]) ∧
  fst (_cached_filter_eval_shape fn [x3] ∅ w1)
    = Return (TNode KTuple [TLeaf (LShape [2] "float32")]) ∧
  filter_eval_shape fn [x3] ∅ = Return (TNode KTuple [TLeaf (LShape [3] "float32")]) ∧
  shape_key fn [x2] ∅ = shape_key fn [x3] ∅ ∧
  length (eval_shape_cache w2) = 1%nat.
Proof. vm_compute. repeat split; reflexivity. Qed.

End ShapeCache.

(** ** The cached pjit wrapper *)

Section CompiledDispatch.

Context `{rt : Runtime}.

Implicit Types (f : Wrapped) (fn : Callable) (args : list PyTree)
  (kwargs : gmap string PyTree) (w : World).

(** Inferring resource partitions reads the scoped mapping and nothing
    else, changes nothing and does not raise. *)
Lemma tree_map_partition_spec_run (m : ResourceMapping) t (scoped : option ResourceMapping) :
  ∃ res, ∀ w, resource_mapping w = scoped →
    tree_map_named (partition_spec m) t w = (Return res, w).
Proof.
  assert (Hleaf : ∀ t, (∃ l, t = TLeaf l) ∨ is_named_array t = true →
    ∃ res, ∀ w, resource_mapping w = scoped → partition_spec m t w = (Return res, w)).
  { intros t' [[l ->] | Hnamed].
    - destruct l as [a | | | |]; simpl; eauto. destruct (arr_sharding a); eauto.
    - destruct t' as [| [] ts]; try discriminate.
      exists (TNamed (TLeaf (LSpec (pspec_for_axis (as_selectors axes) (Some m)
                (set_resource_mapping scoped (fresh_world None false))))) axes).
      intros w Hw. unfold partition_spec, bind, gets, ret.
      assert (pspec_for_axis (as_selectors axes) (Some m) w
              = pspec_for_axis (as_selectors axes) (Some m)
                  (set_resource_mapping scoped (fresh_world None false))) as ->;
        [| reflexivity].
      unfold pspec_for_axis. apply map_ext. intros a.
      rewrite !physical_axis_name_lookup, Hw. reflexivity. }
  induction t as [l | k ts IH] using PyTree_ind.
  - destruct (Hleaf (TLeaf l)) as [res Hres]; [left; eauto |].
    exists res. intros w Hw. rewrite tree_map_named_leaf by (left; eauto). auto.
  - destruct (is_named_array (TNode k ts)) eqn:Hk.
    + destruct (Hleaf (TNode k ts)) as [res Hres]; [by right |].
      exists res. intros w Hw. rewrite tree_map_named_leaf by (by right). auto.
    + assert (Hlist : ∃ res, ∀ w, resource_mapping w = scoped →
        tree_map_named_list (partition_spec m) ts w = (Return res, w)).
      { clear Hk. induction IH as [| t ts [res_t Ht] _ [res_ts Hts]].
        - exists []. reflexivity.
        - exists (res_t :: res_ts). intros w Hw. simpl. unfold bind.
          rewrite (Ht w Hw), (Hts w Hw). reflexivity. }
      destruct Hlist as [res Hres]. exists (TNode k res). intros w Hw.
      rewrite tree_map_named_node by exact Hk. unfold bind. rewrite (Hres w Hw).
      reflexivity.
Qed.

Lemma infer_resource_partitions_run t (m : ResourceMapping) w :
  ∃ res,
    fst (infer_resource_partitions t (Some m) w) = Return res ∧
    ∀ w', resource_mapping w' = resource_mapping w →
      infer_resource_partitions t (Some m) w' = (Return res, w').
Proof.
  destruct (tree_map_partition_spec_run m t (resource_mapping w)) as [res Hres].
  assert (Hrun : ∀ w', resource_mapping w' = resource_mapping w →
            infer_resource_partitions t (Some m) w' = (Return res, w')).
  { intros w' Hw'. unfold infer_resource_partitions, bind, ret. simpl. auto. }
  exists res. split; [by rewrite Hrun | exact Hrun].
Qed.


Lemma partition_dynamic_call_tree args kwargs :
  partition_dynamic (call_tree args kwargs) =
    TNode KTuple [TNode KTuple (map partition_dynamic args);
                  TNode (KDict (map fst (map_to_list kwargs)))
                        (map partition_dynamic (map snd (map_to_list kwargs)))].
Proof. reflexivity. Qed.

(** The split succeeds when the flags line up, and its halves combine to
    the dynamic part. *)
Lemma donation_split_returns f args kwargs :
  donation_aligned f args →
  let dynamic := TNode KTuple [partition_dynamic (fn_tree (wrapped_fn f));
                               partition_dynamic (call_tree args kwargs)] in
  ∃ donated reserved,
    donation_split (wrapped_options f) args kwargs dynamic = Return (donated, reserved) ∧
    combine donated reserved = dynamic.
Proof.
  intros Haligned dynamic. subst dynamic. unfold donation_split.
  destruct (bool_decide (donate_args _ ≠ None) || bool_decide (donate_kwargs _ ≠ None)).
  - rewrite partition_dynamic_call_tree. unfold partition_donated.
    destruct (split_each_length
                (donate_flags (donate_args (wrapped_options f)) (length args))
                (map partition_dynamic args)) as (ds & rs & Hargs).
    { rewrite length_map. unfold donation_aligned in Haligned. unfold donate_flags.
      destruct (donate_args (wrapped_options f)) as [[b | flags] |];
        rewrite ?length_replicate; done. }
    destruct (split_each_length
                (donate_kwflags (donate_kwargs (wrapped_options f))
                                (map fst (map_to_list kwargs)))
                (map partition_dynamic (map snd (map_to_list kwargs)))) as (dk & rk & Hkw).
    { unfold donate_kwflags. by rewrite !length_map. }
    rewrite Hargs, Hkw. eexists _, _. split; [reflexivity |].
    apply combine_split_each in Hargs, Hkw.
    cbn [split_by fst snd].
    rewrite !combine_node by discriminate. cbn [combine_list].
    rewrite combine_mask_l, !combine_node by discriminate. cbn [combine_list].
    rewrite !combine_node by discriminate. rewrite Hargs, Hkw. reflexivity.
  - eexists _, _. split; [reflexivity |]. apply combine_mask_l.
Qed.

(** The split of the shapes is the shape of the split. *)
Lemma donation_split_abstractify opts args kwargs fun_dynamic donated reserved :
  donation_split opts args kwargs
    (TNode KTuple [fun_dynamic; partition_dynamic (call_tree args kwargs)])
    = Return (donated, reserved) →
  donation_split opts args kwargs
    (abstractify (TNode KTuple [fun_dynamic; partition_dynamic (call_tree args kwargs)]))
    = Return (abstractify donated, abstractify reserved).
Proof.
  unfold donation_split.
  destruct (bool_decide (donate_args _ ≠ None) || bool_decide (donate_kwargs _ ≠ None)).
  - rewrite partition_dynamic_call_tree. cbn [abstractify map]. unfold partition_donated.
    destruct (split_each _ (map partition_dynamic args)) as [[ds rs] | e] eqn:Hargs;
      [| discriminate].
    destruct (split_each _ (map partition_dynamic (map snd _))) as [[dk rk] | e] eqn:Hkw;
      [| discriminate].
    intros [= <- <-].
    rewrite (abstractify_split_each _ _ _ _ Hargs), (abstractify_split_each _ _ _ _ Hkw).
    cbn [split_by fst snd abstractify map]. rewrite abstractify_mask_none. reflexivity.
  - intros [= <- <-]. do 2 f_equal. symmetry.
    apply (abstractify_mask_none
             (TNode KTuple [fun_dynamic; partition_dynamic (call_tree args kwargs)])).
Qed.

Lemma infer_resource_partitions_at t (m : ResourceMapping) w w' res :
  fst (infer_resource_partitions t (Some m) w) = Return res →
  resource_mapping w' = resource_mapping w →
  infer_resource_partitions t (Some m) w' = (Return res, w').
Proof.
  intros Hres Hw'. destruct (infer_resource_partitions_run t m w) as (res' & Hfst & Hrun).
  rewrite Hfst in Hres. injection Hres as <-. by apply Hrun.
Qed.

(** The halves of a split that succeeded combine to the dynamic part. *)
Lemma donation_split_combine opts args kwargs fun_dynamic donated reserved :
  donation_split opts args kwargs
    (TNode KTuple [fun_dynamic; partition_dynamic (call_tree args kwargs)])
    = Return (donated, reserved) →
  combine donated reserved
    = TNode KTuple [fun_dynamic; partition_dynamic (call_tree args kwargs)].
Proof.
  unfold donation_split.
  destruct (bool_decide (donate_args _ ≠ None) || bool_decide (donate_kwargs _ ≠ None)).
  - rewrite partition_dynamic_call_tree. unfold partition_donated.
    destruct (split_each _ (map partition_dynamic args)) as [[ds rs] | e] eqn:Hargs;
      [| discriminate].
    destruct (split_each _ (map partition_dynamic (map snd _))) as [[dk rk] | e] eqn:Hkw;
      [| discriminate].
    intros [= <- <-].
    apply combine_split_each in Hargs, Hkw.
    cbn [split_by fst snd].
    rewrite !combine_node by discriminate. cbn [combine_list].
    rewrite combine_mask_l, !combine_node by discriminate. cbn [combine_list].
    rewrite !combine_node by discriminate. rewrite Hargs, Hkw. reflexivity.
  - intros [= <- <-].
    exact (combine_mask_l
             (TNode KTuple [fun_dynamic; partition_dynamic (call_tree args kwargs)])).
Qed.

(** One call of the wrapped function, step by step: the shape comes from
    the shape cache or is inferred and cached; the pjit callable comes from
    the memo table or is built and memoised, unless [pjit] refuses; the
    executable is found among those compiled, or is compiled when JAX
    accepts the call; the scoped mapping is restored. *)
Lemma call_wrapped_run f args kwargs w (m_in m_out : ResourceMapping)
    donated reserved shape in_res out_res :
  let fn := wrapped_fn f in
  let opts := wrapped_options f in
  let dynamic := TNode KTuple [partition_dynamic (fn_tree fn);
                               partition_dynamic (call_tree args kwargs)] in
  let static := TNode KTuple [partition_static (fn_tree fn);
                              partition_static (call_tree args kwargs)] in
  let skey := shape_key fn args kwargs in
  let cached := match dict_get skey (eval_shape_cache w) with
                | Some hit => hit
                | None => shape
                end in
  let shapes := match dict_get skey (eval_shape_cache w) with
                | Some _ => eval_shape_cache w
                | None => (eval_shape_cache w ++ [(skey, shape)])%list
                end in
  let jitkwargs := <["out_axis_resources" := out_res]>
                     (<["in_axis_resources" := in_res]> (pjit_args opts)) in
  let key := mkPjitKey (fn_names fn) (key_of <$> jitkwargs) in
  let memo := dict_get key (named_pjit_cache w) in
  let pjitted := match memo with Some p => p | None => pjit_built w end in
  let table := match memo with
               | Some _ => named_pjit_cache w
               | None => (named_pjit_cache w ++ [(key, pjit_built w)])%list
               end in
  let built := match memo with Some _ => pjit_built w | None => S (pjit_built w) end in
  let ekey := mkExecKey pjitted (key_of static) (abstractify donated) (abstractify reserved) in
  let found := index_of ekey (exe_key <$> executables w) in
  let traced := match found ≫= (λ i, executables w !! i) with
                | Some exe => exe_static exe
                | None => static
                end in
  let world := λ table built execs,
    mkWorld (resource_mapping w) (thread_env w) (jit_context w) shapes table built execs
            (backend_log w) in
  in_axis_resources opts = Some m_in →
  out_axis_resources opts = Some m_out →
  donation_split opts args kwargs dynamic = Return (donated, reserved) →
  filter_eval_shape fn args kwargs = Return shape →
  fst (infer_resource_partitions (TNode KTuple [donated; reserved]) (Some m_in) w)
    = Return in_res →
  fst (infer_resource_partitions cached (Some m_out) w) = Return out_res →
  call_wrapped f args kwargs w =
    match memo, jax_refuses (AskPjit (fn_names fn) jitkwargs) with
    | None, Some e => (Raise e, world (named_pjit_cache w) (pjit_built w) (executables w))
    | _, _ =>
        match thread_env w with
        | None => (Raise (AttributeError "env"), world table built (executables w))
        | Some mesh =>
            match fun_wrapped donated reserved traced with
            | Raise e => (Raise e, world table built (executables w))
            | Return raw =>
                match pjit_checks mesh in_res out_res donated reserved static raw with
                | Raise e => (Raise e, world table built (executables w))
                | Return out =>
                    match found with
                    | Some i => (Return (mkCallResult i out), world table built (executables w))
                    | None =>
                        (Return (mkCallResult (length (executables w)) out),
                         world table built
                               (executables w ++ [mkExecutable ekey static])%list)
                    end
                end
            end
        end
    end.
Proof.
  intros fn opts dynamic static skey cached shapes jitkwargs key memo pjitted table built
    ekey found traced world Hin Hout Hsplit Hshape Hin_res Hout_res.
  unfold call_wrapped, hashable_partition.
  fold fn opts dynamic static.
  unfold bind at 1. unfold lift_outcome at 1. rewrite Hsplit.
  unfold bind at 1. rewrite (_cached_filter_eval_shape_run _ _ _ _ _ Hshape).
  rewrite Hin, Hout. fold skey.
  subst cached shapes world.
  destruct (dict_get skey (eval_shape_cache w)) as [hit |] eqn:Hcache;
    (unfold bind at 1;
     erewrite infer_resource_partitions_at by (exact Hin_res || reflexivity);
     unfold bind at 1;
     erewrite infer_resource_partitions_at by (exact Hout_res || reflexivity));
    fold jitkwargs;
    rewrite axis_mapping_run; cbn zeta;
    unfold _named_pjit_cache, pjit_call, resource_env, bind, gets, modify, ret, raise,
      lift_outcome;
    fold key;
    cbn [named_pjit_cache set_resource_mapping set_eval_shape_cache thread_env
         pjit_built executables set_named_pjit_cache set_executables fst snd];
    fold memo;
    subst pjitted table built;
    destruct memo as [p |];
    try destruct (jax_refuses (AskPjit (fn_names fn) jitkwargs)) as [e |];
    cbn [named_pjit_cache set_resource_mapping set_eval_shape_cache thread_env
         pjit_built executables set_named_pjit_cache set_executables fst snd];
    try reflexivity;
    destruct (thread_env w) as [mesh |] eqn:Henv;
    unfold set_resource_mapping, set_eval_shape_cache, set_named_pjit_cache,
      set_executables;
    cbn [named_pjit_cache thread_env pjit_built executables fst snd
         resource_mapping jit_context eval_shape_cache backend_log];
    rewrite ?Henv; try reflexivity;
    fold static; fold ekey; fold found; fold traced;
    (destruct (fun_wrapped donated reserved traced) as [raw | e'];
     [destruct (pjit_checks mesh in_res out_res donated reserved static raw) as [out | e''];
      [destruct found |] |]);
    reflexivity.
Qed.


Lemma index_of_app_new {K} `{EqDecision K} (k : K) l :
  index_of k l = None → index_of k (l ++ [k]) = Some (length l).
Proof.
  induction l as [| k' l IH]; simpl.
  - intros _. by rewrite bool_decide_eq_true_2.
  - case_bool_decide; [discriminate |].
    destruct (index_of k l); [discriminate |]. intros _. by rewrite IH.
Qed.

Lemma index_of_app_old {K} `{EqDecision K} (k : K) l l' i :
  index_of k l = Some i → index_of k (l ++ l') = Some i.
Proof.
  revert i. induction l as [| k' l IH]; simpl; intros i; [discriminate |].
  case_bool_decide; [done |].
  destruct (index_of k l) as [j |]; [| discriminate].
  intros [= <-]. by rewrite (IH j).
Qed.

(** A wrapped function that came out of [named_pjit] has both resource
    mappings. *)
Lemma named_pjit_wrapped fn options w f w' :
  named_pjit (Some fn) options w = (Return (WrappedFn f), w') →
  wrapped_fn f = fn ∧
  ∃ m_in m_out : ResourceMapping,
    in_axis_resources (wrapped_options f) = Some m_in ∧
    out_axis_resources (wrapped_options f) = Some m_out.
Proof.
  unfold named_pjit, bind, gets, ret, raise.
  destruct (axis_resources options) as [ar |]; simpl.
  - intros [= <- <-]. split; [reflexivity |]. simpl.
    destruct (in_axis_resources options), (out_axis_resources options); eauto.
  - destruct (resource_mapping w) as [scoped |]; simpl.
    + intros [= <- <-]. split; [reflexivity |]. simpl.
      destruct (in_axis_resources options), (out_axis_resources options); eauto.
    + destruct (in_axis_resources options), (out_axis_resources options); simpl;
        try discriminate.
      intros [= <- <-]. split; [reflexivity |]. simpl. eauto.
Qed.

(** A call whose donation flags do not line up raises at the split. *)
Lemma call_wrapped_split_raises f args kwargs w e :
  donation_split (wrapped_options f) args kwargs
    (TNode KTuple [partition_dynamic (fn_tree (wrapped_fn f));
                   partition_dynamic (call_tree args kwargs)]) = Raise e →
  call_wrapped f args kwargs w = (Raise e, w).
Proof.
  intros Hsplit. unfold call_wrapped, hashable_partition.
  unfold bind at 1. unfold lift_outcome at 1. by rewrite Hsplit.
Qed.

(** What a call that returned has done. *)
Lemma call_wrapped_returns f args kwargs w r w' (m_in m_out : ResourceMapping) :
  in_axis_resources (wrapped_options f) = Some m_in →
  out_axis_resources (wrapped_options f) = Some m_out →
  call_wrapped f args kwargs w = (Return r, w') →
  ∃ donated reserved shape in_res out_res,
    let fn := wrapped_fn f in
    let opts := wrapped_options f in
    let dynamic := TNode KTuple [partition_dynamic (fn_tree fn);
                                 partition_dynamic (call_tree args kwargs)] in
    let static := TNode KTuple [partition_static (fn_tree fn);
                                partition_static (call_tree args kwargs)] in
    let skey := shape_key fn args kwargs in
    let cached := match dict_get skey (eval_shape_cache w) with
                  | Some hit => hit
                  | None => shape
                  end in
    let key := mkPjitKey (fn_names fn)
                 (key_of <$> <["out_axis_resources" := out_res]>
                               (<["in_axis_resources" := in_res]> (pjit_args opts))) in
    let memo := dict_get key (named_pjit_cache w) in
    let pjitted := match memo with Some p => p | None => pjit_built w end in
    let ekey := mkExecKey pjitted (key_of static) (abstractify donated)
                          (abstractify reserved) in
    let found := index_of ekey (exe_key <$> executables w) in
    donation_split opts args kwargs dynamic = Return (donated, reserved) ∧
    filter_eval_shape fn args kwargs = Return shape ∧
    fst (infer_resource_partitions (TNode KTuple [donated; reserved]) (Some m_in) w)
      = Return in_res ∧
    fst (infer_resource_partitions cached (Some m_out) w) = Return out_res ∧
    resource_mapping w' = resource_mapping w ∧
    eval_shape_cache w' = match dict_get skey (eval_shape_cache w) with
                          | Some _ => eval_shape_cache w
                          | None => (eval_shape_cache w ++ [(skey, shape)])%list
                          end ∧
    named_pjit_cache w' = match memo with
                          | Some _ => named_pjit_cache w
                          | None => (named_pjit_cache w ++ [(key, pjit_built w)])%list
                          end ∧
    pjit_built w' = match memo with Some _ => pjit_built w | None => S (pjit_built w) end ∧
    executables w' = match found with
                     | Some _ => executables w
                     | None => (executables w ++ [mkExecutable ekey static])%list
                     end ∧
    res_executable r = match found with Some i => i | None => length (executables w) end ∧
    thread_env w' = thread_env w ∧
    jit_context w' = jit_context w ∧
    backend_log w' = backend_log w ∧
    ∃ mesh raw,
      thread_env w = Some mesh ∧
      fun_wrapped donated reserved
        (match found ≫= (λ i, executables w !! i) with
         | Some exe => exe_static exe
         | None => static
         end) = Return raw ∧
      pjit_checks mesh in_res out_res donated reserved static raw = Return (res_output r).
Proof.
  intros Hin Hout Hcall.
  destruct (donation_split (wrapped_options f) args kwargs
              (TNode KTuple [partition_dynamic (fn_tree (wrapped_fn f));
                             partition_dynamic (call_tree args kwargs)]))
    as [[donated reserved] | e] eqn:Hs.
  2: { rewrite (call_wrapped_split_raises _ _ _ _ _ Hs) in Hcall. discriminate. }
  destruct (filter_eval_shape_returns (wrapped_fn f) args kwargs) as [shape Hsh].
  destruct (infer_resource_partitions_run (TNode KTuple [donated; reserved]) m_in w)
    as (in_res & Hi & _).
  destruct (infer_resource_partitions_run
              (match dict_get (shape_key (wrapped_fn f) args kwargs) (eval_shape_cache w) with
               | Some hit => hit
               | None => shape
               end) m_out w) as (out_res & Ho & _).
  exists donated, reserved, shape, in_res, out_res. cbv zeta.
  pose proof (call_wrapped_run f args kwargs w m_in m_out donated reserved shape in_res
                out_res Hin Hout Hs Hsh Hi Ho) as Hrun.
  cbv zeta in Hrun. rewrite Hcall in Hrun.
  split; [exact Hs |]. split; [exact Hsh |]. split; [exact Hi |]. split; [exact Ho |].
  clear Hcall Hi Ho Hs Hsh.
  destruct (dict_get _ (named_pjit_cache w)) as [p |] eqn:Hmemo;
    [| destruct (jax_refuses (AskPjit _ _)) eqn:Hpjit; [discriminate |]];
    (destruct (thread_env w) as [mesh |] eqn:Henv; [| discriminate]);
    destruct (index_of _ (exe_key <$> executables w)) as [i |] eqn:Hfound;
    (destruct (fun_wrapped _ _ _) as [raw | e1] eqn:Hfw; [| discriminate]);
    (destruct (pjit_checks _ _ _ _ _ _ _) as [out | e2] eqn:Hchk; [| discriminate]);
    injection Hrun as -> ->;
    (repeat split; try reflexivity);
    exists mesh, raw; repeat split; assumption.
Qed.


(** Calls with the same static configuration have the same shape-cache key
    and the same static argument of the pjit callable, the same number of
    positional arguments and the same keywords. *)
Lemma same_static fn args1 kwargs1 args2 kwargs2 :
  key_of (partition_static (call_tree args1 kwargs1))
    = key_of (partition_static (call_tree args2 kwargs2)) →
  shape_key fn args1 kwargs1 = shape_key fn args2 kwargs2 ∧
  key_of (TNode KTuple [partition_static (fn_tree fn);
                        partition_static (call_tree args1 kwargs1)])
    = key_of (TNode KTuple [partition_static (fn_tree fn);
                            partition_static (call_tree args2 kwargs2)]) ∧
  length args1 = length args2 ∧
  map fst (map_to_list kwargs1) = map fst (map_to_list kwargs2).
Proof.
  intros Hstatic. split; [| split].
  - revert Hstatic. unfold shape_key, call_tree, kwargs_tree.
    cbn [partition_static key_of map].
    intros [= Hargs Hkeys Hvals]. by rewrite Hargs, Hkeys, Hvals.
  - cbn [key_of map]. by rewrite Hstatic.
  - revert Hstatic. unfold call_tree, kwargs_tree. cbn [partition_static key_of map].
    intros [= Hargs Hkeys Hvals]. split; [| exact Hkeys].
    apply (f_equal length) in Hargs. by rewrite !length_map in Hargs.
Qed.

Lemma donation_split_ext opts args1 kwargs1 args2 kwargs2 dynamic :
  length args1 = length args2 →
  map fst (map_to_list kwargs1) = map fst (map_to_list kwargs2) →
  donation_split opts args1 kwargs1 dynamic = donation_split opts args2 kwargs2 dynamic.
Proof. intros Hlen Hkeys. unfold donation_split. by rewrite Hlen, Hkeys. Qed.

(** Same keywords, same number of arguments and same argument shapes: the
    same shapes in the donated and in the reserved half. *)
Lemma same_split_shapes opts fun_dynamic args1 kwargs1 args2 kwargs2 d1 r1 d2 r2 :
  length args1 = length args2 →
  map fst (map_to_list kwargs1) = map fst (map_to_list kwargs2) →
  abstractify (TNode KTuple [fun_dynamic; partition_dynamic (call_tree args1 kwargs1)])
    = abstractify (TNode KTuple [fun_dynamic; partition_dynamic (call_tree args2 kwargs2)]) →
  donation_split opts args1 kwargs1
    (TNode KTuple [fun_dynamic; partition_dynamic (call_tree args1 kwargs1)]) = Return (d1, r1) →
  donation_split opts args2 kwargs2
    (TNode KTuple [fun_dynamic; partition_dynamic (call_tree args2 kwargs2)]) = Return (d2, r2) →
  abstractify d1 = abstractify d2 ∧ abstractify r1 = abstractify r2.
Proof.
  intros Hlen Hkeys Hshapes H1 H2.
  apply donation_split_abstractify in H1, H2.
  rewrite Hshapes, (donation_split_ext _ _ _ _ _ _ Hlen Hkeys), H2 in H1.
  by injection H1 as -> ->.
Qed.

(** A later call with the same signature, in a world that still has the
    shape, the pjit callable and the executable of an earlier call and whose
    scoped mapping is that of the earlier call: when it returns, it has run
    that executable and has added nothing to the caches. *)
Lemma call_wrapped_reuse f args1 kwargs1 args2 kwargs2 w0 w r w'
    (m_in m_out : ResourceMapping) d1 rs1 shape1 in1 out1 p i :
  let fn := wrapped_fn f in
  let opts := wrapped_options f in
  in_axis_resources opts = Some m_in →
  out_axis_resources opts = Some m_out →
  donation_split opts args1 kwargs1
    (TNode KTuple [partition_dynamic (fn_tree fn);
                   partition_dynamic (call_tree args1 kwargs1)]) = Return (d1, rs1) →
  fst (infer_resource_partitions (TNode KTuple [d1; rs1]) (Some m_in) w0) = Return in1 →
  fst (infer_resource_partitions shape1 (Some m_out) w0) = Return out1 →
  call_signature f args1 kwargs1 w0 = call_signature f args2 kwargs2 w0 →
  resource_mapping w = resource_mapping w0 →
  dict_get (shape_key fn args1 kwargs1) (eval_shape_cache w) = Some shape1 →
  dict_get (mkPjitKey (fn_names fn)
              (key_of <$> <["out_axis_resources" := out1]>
                            (<["in_axis_resources" := in1]> (pjit_args opts))))
           (named_pjit_cache w) = Some p →
  index_of (mkExecKey p
              (key_of (TNode KTuple [partition_static (fn_tree fn);
                                     partition_static (call_tree args1 kwargs1)]))
              (abstractify d1) (abstractify rs1))
           (exe_key <$> executables w) = Some i →
  call_wrapped f args2 kwargs2 w = (Return r, w') →
  res_executable r = i ∧
  executables w' = executables w ∧
  pjit_built w' = pjit_built w ∧
  named_pjit_cache w' = named_pjit_cache w ∧
  eval_shape_cache w' = eval_shape_cache w ∧
  resource_mapping w' = resource_mapping w.
Proof.
  intros fn opts Hin Hout Hs1 Hi1 Ho1 Hsig Hmap Hshape Hmemo Hfound Hcall.
  destruct (call_wrapped_returns _ _ _ _ _ _ _ _ Hin Hout Hcall)
    as (d2 & rs2 & shape2 & in2 & out2 & H).
  cbv zeta in H. fold fn opts in H.
  destruct H as (Hs2 & Hsh2 & Hi2 & Ho2 & Hm' & He' & Hp' & Hb' & Hx' & Hr & _).
  pose proof (f_equal sig_static Hsig) as Hst.
  pose proof (f_equal sig_arg_shapes Hsig) as Hsha.
  pose proof (f_equal sig_in_placements Hsig) as Hpl.
  unfold call_signature in Hst, Hsha, Hpl.
  cbn [sig_static sig_arg_shapes sig_in_placements] in Hst, Hsha, Hpl.
  fold fn opts in Hst, Hsha, Hpl.
  assert (Hi2' : fst (infer_resource_partitions (TNode KTuple [d2; rs2]) (Some m_in) w0)
                 = Return in2).
  { by rewrite (infer_resource_partitions_at _ _ _ _ _ Hi2 (eq_sym Hmap)). }
  rewrite Hs1, Hs2, Hin, Hi1, Hi2' in Hpl. cbn [outcome_bind] in Hpl.
  injection Hpl as Hkin.
  destruct (same_static fn _ _ _ _ Hst) as (Hskey & Hkstatic & Hlen & Hkeys).
  destruct (same_split_shapes _ _ _ _ _ _ _ _ _ _ Hlen Hkeys Hsha Hs1 Hs2) as [Hd Hrs].
  rewrite <- Hskey, Hshape in Ho2, He'.
  assert (Hout21 : out2 = out1).
  { rewrite (infer_resource_partitions_at _ _ _ _ _ Ho1 Hmap) in Ho2.
    cbn [fst] in Ho2. by injection Ho2. }
  subst out2.
  assert (Hkey : key_of <$> <["out_axis_resources" := out1]>
                              (<["in_axis_resources" := in2]> (pjit_args opts))
                 = key_of <$> <["out_axis_resources" := out1]>
                                (<["in_axis_resources" := in1]> (pjit_args opts))).
  { rewrite !fmap_insert. by rewrite Hkin. }
  rewrite Hkey, Hmemo in Hp', Hb', Hx', Hr.
  rewrite <- Hkstatic, <- Hd, <- Hrs, Hfound in Hx', Hr.
  done.
Qed.

(** A call that is keyed as an earlier one has the signature of that call. *)
Lemma same_keys_same_signature f args1 kwargs1 args3 kwargs3 w0 (m_in : ResourceMapping)
    d1 rs1 d3 rs3 in1 in3 :
  let fn := wrapped_fn f in
  let opts := wrapped_options f in
  in_axis_resources opts = Some m_in →
  donation_split opts args1 kwargs1
    (TNode KTuple [partition_dynamic (fn_tree fn);
                   partition_dynamic (call_tree args1 kwargs1)]) = Return (d1, rs1) →
  donation_split opts args3 kwargs3
    (TNode KTuple [partition_dynamic (fn_tree fn);
                   partition_dynamic (call_tree args3 kwargs3)]) = Return (d3, rs3) →
  fst (infer_resource_partitions (TNode KTuple [d1; rs1]) (Some m_in) w0) = Return in1 →
  fst (infer_resource_partitions (TNode KTuple [d3; rs3]) (Some m_in) w0) = Return in3 →
  key_of (TNode KTuple [partition_static (fn_tree fn);
                        partition_static (call_tree args3 kwargs3)])
    = key_of (TNode KTuple [partition_static (fn_tree fn);
                            partition_static (call_tree args1 kwargs1)]) →
  abstractify d3 = abstractify d1 →
  abstractify rs3 = abstractify rs1 →
  key_of in3 = key_of in1 →
  call_signature f args3 kwargs3 w0 = call_signature f args1 kwargs1 w0.
Proof.
  intros fn opts Hin Hs1 Hs3 Hi1 Hi3 Hst Hd Hrs Hkin.
  unfold call_signature. fold fn opts.
  rewrite Hs1, Hs3, Hin, Hi1, Hi3. cbn [outcome_bind]. rewrite Hkin.
  assert (Hstatic : key_of (partition_static (call_tree args3 kwargs3))
                    = key_of (partition_static (call_tree args1 kwargs1))).
  { cbn [key_of map] in Hst. congruence. }
  assert (Hshapes :
    abstractify (TNode KTuple [partition_dynamic (fn_tree fn);
                               partition_dynamic (call_tree args3 kwargs3)])
    = abstractify (TNode KTuple [partition_dynamic (fn_tree fn);
                                 partition_dynamic (call_tree args1 kwargs1)])).
  { rewrite <- (donation_split_combine _ _ _ _ _ _ Hs3),
            <- (donation_split_combine _ _ _ _ _ _ Hs1), !abstractify_combine, Hd, Hrs.
    reflexivity. }
  by rewrite Hstatic, Hshapes.
Qed.

Lemma caches_grow_refl w : caches_grow w w.
Proof. repeat split; auto. Qed.

Lemma caches_grow_trans w1 w2 w3 :
  caches_grow w1 w2 → caches_grow w2 w3 → caches_grow w1 w3.
Proof. intros (? & ? & ? & ?) (? & ? & ? & ?). repeat split; auto. Qed.

Lemma monotone_pure {A} (c : M A) : (∀ w, snd (c w) = w) → monotone c.
Proof. intros Hc w. rewrite Hc. split; [apply caches_grow_refl | reflexivity]. Qed.

Lemma monotone_bind {A B} (c : M A) (k : A → M B) :
  monotone c → (∀ a, monotone (k a)) → monotone (bind c k).
Proof.
  intros Hc Hk w. unfold bind. specialize (Hc w).
  destruct (c w) as [[a | e] w']; simpl in *; [| exact Hc].
  destruct Hc as [Hg Hm]. destruct (Hk a w') as [Hg' Hm'].
  split; [eauto using caches_grow_trans | congruence].
Qed.

Lemma monotone_axis_mapping {A} mapping merge overrides (body : M A) :
  monotone body → monotone (axis_mapping mapping merge overrides body).
Proof.
  intros Hbody w. rewrite axis_mapping_run. cbn [snd].
  destruct (Hbody (set_resource_mapping
              (Some (entered_mapping mapping merge overrides (resource_mapping w))) w))
    as [(He & Hp & Hx & Hy) _].
  split; [| reflexivity]. repeat split; auto.
Qed.

Lemma monotone_infer_resource_partitions t m :
  monotone (infer_resource_partitions t m).
Proof.
  apply monotone_pure. intros w. unfold infer_resource_partitions, bind, current_mapping, gets.
  assert (Hrun : ∀ m', snd (tree_map_named (partition_spec m') t w) = w).
  { intros m'. destruct (tree_map_partition_spec_run m' t (resource_mapping w)) as [res Hres].
    by rewrite Hres. }
  destruct m as [m |]; simpl; [apply Hrun |].
  destruct (resource_mapping w); [apply Hrun | reflexivity].
Qed.

Lemma monotone__cached_filter_eval_shape fn args kwargs :
  monotone (_cached_filter_eval_shape fn args kwargs).
Proof.
  intros w. destruct (filter_eval_shape_returns fn args kwargs) as [shape Hshape].
  rewrite (_cached_filter_eval_shape_run _ _ _ _ _ Hshape).
  destruct (dict_get _ (eval_shape_cache w));
    (split; [| reflexivity]); [apply caches_grow_refl |].
  repeat split; auto. intros k v. apply dict_get_app_l.
Qed.

Lemma monotone__named_pjit_cache fun_names jitkwargs :
  monotone (_named_pjit_cache fun_names jitkwargs).
Proof.
  intros w. unfold _named_pjit_cache, bind, gets, modify, ret, raise. simpl.
  destruct (dict_get _ (named_pjit_cache w));
    [split; [apply caches_grow_refl | reflexivity] |].
  destruct (jax_refuses _); (split; [| reflexivity]); [apply caches_grow_refl |].
  repeat split; auto. intros k p. apply dict_get_app_l.
Qed.

Lemma monotone_pjit_call pjitted in_resources out_resources donated reserved static :
  monotone (pjit_call pjitted in_resources out_resources donated reserved static).
Proof.
  intros w. unfold pjit_call, resource_env, bind, gets, modify, ret, lift_outcome.
  destruct (thread_env w) as [mesh |]; [| split; [apply caches_grow_refl | reflexivity]].
  cbn [fst snd].
  destruct (fun_wrapped _ _ _) as [raw | e];
    [| split; [apply caches_grow_refl | reflexivity]].
  destruct (pjit_checks _ _ _ _ _ _ _) as [out | e];
    [| split; [apply caches_grow_refl | reflexivity]].
  destruct (index_of _ (exe_key <$> executables w)) as [i |];
    (split; [| reflexivity]); [apply caches_grow_refl |].
  unfold set_executables. cbn [fst snd]. repeat split; auto; cbn [executables].
  - intros k i. rewrite fmap_app. apply index_of_app_old.
  - intros i exe. apply lookup_app_l_Some.
Qed.

(** A call of a wrapped function, whether it returns or raises, only adds
    to the caches and restores the scoped mapping. *)
Lemma monotone_call_wrapped f args kwargs : monotone (call_wrapped f args kwargs).
Proof.
  unfold call_wrapped, hashable_partition.
  apply monotone_bind; [by apply monotone_pure |]. intros [donated reserved].
  apply monotone_bind; [apply monotone__cached_filter_eval_shape |]. intros shape.
  apply monotone_bind; [apply monotone_infer_resource_partitions |]. intros in_res.
  apply monotone_bind; [apply monotone_infer_resource_partitions |]. intros out_res.
  apply monotone_axis_mapping.
  apply monotone_bind; [apply monotone__named_pjit_cache |]. intros pjitted.
  apply monotone_bind; [apply monotone_pjit_call |]. intros run.
  by apply monotone_pure.
Qed.

Lemma run_calls_grow calls : ∀ w,
  caches_grow w (run_calls calls w) ∧
  resource_mapping (run_calls calls w) = resource_mapping w.
Proof.
  induction calls as [| c calls IH]; intros w; simpl.
  - split; [apply caches_grow_refl | reflexivity].
  - destruct (monotone_call_wrapped (call_fn c) (call_args c) (call_kwargs c) w) as [Hg Hm].
    destruct (IH (snd (call_wrapped (call_fn c) (call_args c) (call_kwargs c) w)))
      as [Hg' Hm'].
    split; [eauto using caches_grow_trans | congruence].
Qed.


(** C1: for a function wrapped by [named_pjit], called outside [jit] in a
    process whose caches are empty.  When two calls with the same static
    signature return, the backend has compiled once and both calls have run
    the same executable, the second call finding the pjit callable and the
    executable of the first; however many calls of wrapped functions follow,
    a call with that signature that returns has run that executable and has
    compiled nothing; a further call that returns and whose signature
    differs in some component has compiled exactly one more executable and
    has run that one.  The components of a signature are compared as Python
    compares them. *)
Theorem named_pjit_compiles_once_per_signature
    (fn : Callable) (options : PjitOptions) (w_wrap w_wrap' : World) (f : Wrapped)
    (args1 args2 args3 : list PyTree) (kwargs1 kwargs2 kwargs3 : gmap string PyTree)
    (w0 w1 w2 : World) (r1 r2 : CallResult) :
  named_pjit (Some fn) options w_wrap = (Return (WrappedFn f), w_wrap') →
  jit_context w0 = false →
  eval_shape_cache w0 = [] →
  named_pjit_cache w0 = [] →
  executables w0 = [] →
  call_wrapped f args1 kwargs1 w0 = (Return r1, w1) →
  call_wrapped f args2 kwargs2 w1 = (Return r2, w2) →
  call_signature f args1 kwargs1 w0 = call_signature f args2 kwargs2 w0 →
  compilations w1 = 1%nat ∧
  compilations w2 = 1%nat ∧
  pjit_built w2 = S (pjit_built w0) ∧
  res_executable r2 = res_executable r1 ∧
  (∀ (later : list Call) r w',
     call_wrapped f args2 kwargs2 (run_calls later w2) = (Return r, w') →
     res_executable r = res_executable r1 ∧
     compilations w' = compilations (run_calls later w2)) ∧
  (∀ r3 w3,
     call_wrapped f args3 kwargs3 w2 = (Return r3, w3) →
     call_signature f args3 kwargs3 w0 ≠ call_signature f args1 kwargs1 w0 →
     compilations w3 = 2%nat ∧
     res_executable r3 ≠ res_executable r1).
Proof.
  intros Hwrap _ He Hm Hx Hcall1 Hcall2 Hsig.
  destruct (named_pjit_wrapped _ _ _ _ _ Hwrap) as (_ & m_in & m_out & Hin & Hout).
  destruct (call_wrapped_returns _ _ _ _ _ _ _ _ Hin Hout Hcall1)
    as (d1 & rs1 & shape1 & in1 & out1 & H1).
  cbv zeta in H1. rewrite He, Hm, Hx in H1.
  cbn [dict_get index_of fmap list_fmap app length] in H1.
  destruct H1 as (Hs1 & Hsh1 & Hi1 & Ho1 & Hmap1 & He1 & Hp1 & Hb1 & Hx1 & Hr1 & _).
  (* a call with the signature of the first, in a world grown from [w1] *)
  assert (Hreuse : ∀ w r w',
            caches_grow w1 w → resource_mapping w = resource_mapping w0 →
            call_wrapped f args2 kwargs2 w = (Return r, w') →
            res_executable r = 0%nat ∧ executables w' = executables w ∧
            pjit_built w' = pjit_built w ∧ named_pjit_cache w' = named_pjit_cache w ∧
            eval_shape_cache w' = eval_shape_cache w ∧
            resource_mapping w' = resource_mapping w).
  { intros w r w' (Hg1 & Hg2 & Hg3 & _) Hmap Hcall.
    eapply (call_wrapped_reuse f args1 kwargs1 args2 kwargs2 w0 w r w' m_in m_out
              d1 rs1 shape1 in1 out1 (pjit_built w0) 0%nat Hin Hout Hs1 Hi1 Ho1 Hsig Hmap);
      [| | | exact Hcall].
    - apply Hg1. rewrite He1. cbn [dict_get]. by rewrite bool_decide_eq_true_2.
    - apply Hg2. rewrite Hp1. cbn [dict_get]. by rewrite bool_decide_eq_true_2.
    - apply Hg3. rewrite Hx1. cbn [fmap list_fmap exe_key index_of].
      by rewrite bool_decide_eq_true_2. }
  destruct (Hreuse w1 r2 w2 (caches_grow_refl w1) Hmap1 Hcall2)
    as (Hr2 & Hx2 & Hb2 & Hp2 & He2 & Hmap2).
  unfold compilations.
  split; [by rewrite Hx1 |]. split; [by rewrite Hx2, Hx1 |].
  split; [by rewrite Hb2, Hb1 |]. split; [by rewrite Hr2, Hr1 |].
  split.
  { intros later r w' Hcall. destruct (run_calls_grow later w2) as [Hg Hmap].
    assert (Hg12 : caches_grow w1 w2).
    { unfold caches_grow. rewrite He2, Hp2, Hx2. apply caches_grow_refl. }
    destruct (Hreuse _ r w' (caches_grow_trans _ _ _ Hg12 Hg) ltac:(congruence) Hcall)
      as (Hr' & Hx' & _).
    split; [by rewrite Hr', Hr1 | by rewrite Hx']. }
  intros r3 w3 Hcall3 Hdiff.
  destruct (call_wrapped_returns _ _ _ _ _ _ _ _ Hin Hout Hcall3)
    as (d3 & rs3 & shape3 & in3 & out3 & H3).
  cbv zeta in H3.
  destruct H3 as (Hs3 & _ & Hi3 & _ & _ & _ & _ & _ & Hx3 & Hr3 & _).
  rewrite Hx2, Hx1, Hp2, Hp1, Hb2, Hb1 in Hx3, Hr3.
  cbn [fmap list_fmap exe_key index_of dict_get length app] in Hx3, Hr3.
  case_bool_decide as Heq.
  - exfalso. apply Hdiff.
    pose proof (f_equal exec_pjit Heq) as Hp.
    pose proof (f_equal exec_static Heq) as Hst.
    pose proof (f_equal exec_donated Heq) as Hd.
    pose proof (f_equal exec_reserved Heq) as Hrs.
    cbn [exec_pjit exec_static exec_donated exec_reserved] in Hp, Hst, Hd, Hrs.
    assert (Hi3' : fst (infer_resource_partitions (TNode KTuple [d3; rs3]) (Some m_in) w0)
                   = Return in3).
    { rewrite (infer_resource_partitions_at _ _ _ _ _ Hi3); [reflexivity | congruence]. }
    apply (same_keys_same_signature f args1 kwargs1 args3 kwargs3 w0 m_in d1 rs1 d3 rs3
             in1 in3 Hin Hs1 Hs3 Hi1 Hi3' Hst Hd Hrs).
    case_bool_decide as Hkey; [| lia].
    injection Hkey as Hkw.
    apply (f_equal (.!! "in_axis_resources")) in Hkw.
    rewrite !lookup_fmap in Hkw.
    rewrite !(lookup_insert_ne _ "out_axis_resources") in Hkw by discriminate.
    rewrite !lookup_insert_eq in Hkw. cbn in Hkw. by injection Hkw.
  - cbn [fmap option_fmap option_map] in Hx3, Hr3.
    split; [by rewrite Hx3 | rewrite Hr3, Hr1; discriminate].
Qed.

End CompiledDispatch.

Lemma named_pjit_compiles_once_per_signature_witness :
  let rt := example_runtime (λ _ args _, TNode KTuple args) in
  let fn := mkCallable (TLeaf (LAtom (AFun 1))) ("step", "Trainer.step")
              (λ args _, TNode KTuple args) in
  let mapping : ResourceMapping := {[ "batch" := Phys "data" ]} in
  let options := mkPjitOptions (Some mapping) None None None None ∅ in
  let f := mkWrapped fn (mkPjitOptions (Some mapping) (Some mapping) (Some mapping)
                                       None None ∅) in
  let w0 := fresh_world (Some (mkMesh (<["data" := 4]> ∅) true)) false in
  let x (data : nat) :=
    TNamed (TLeaf (LArray (mkArray data [8; 16] "float32" (SingleDeviceSharding 0))))
           [mkAxis "batch" 8; mkAxis "hidden" 16] in
  let scale (z : Z) : gmap string PyTree := {[ "scale" := TLeaf (LAtom (AInt z)) ]} in
  let c1 := call_wrapped f [x 1%nat] (scale 2) w0 in
  let c2 := call_wrapped f [x 2%nat] (scale 2) (snd c1) in
  let c3 := call_wrapped f [x 3%nat] (scale 3) (snd c2) in
  ∃ r1 r2 r3,
    fst c1 = Return r1 ∧ fst c2 = Return r2 ∧ fst c3 = Return r3 ∧
    compilations (snd c1) = 1%nat ∧ compilations (snd c2) = 1%nat ∧
    compilations (snd c3) = 2%nat ∧
    res_executable r2 = res_executable r1 ∧
    res_executable r3 ≠ res_executable r1.
Proof.
  intros rt fn mapping options f w0 x scale c1 c2 c3.
  pose (result := λ c : outcome CallResult * World,
          match fst c with Return r => r | Raise _ => mkCallResult 0 TNone end).
  destruct (named_pjit_compiles_once_per_signature fn options w0 w0 f
              [x 1%nat] [x 2%nat] [x 3%nat] (scale 2) (scale 2) (scale 3) w0
              (snd c1) (snd c2) (result c1) (result c2))
    as (Hc1 & Hc2 & _ & Hsame & _ & Hthird).
  - vm_compute. reflexivity.
  - reflexivity.
  - reflexivity.
  - reflexivity.
  - reflexivity.
  - vm_compute. reflexivity.
  - vm_compute. reflexivity.
  - vm_compute. reflexivity.
  - destruct (Hthird (result c3) (snd c3)) as [Hc3 Hother].
    { vm_compute. reflexivity. }
    { intros Heq. apply (f_equal sig_static) in Heq. vm_compute in Heq. discriminate Heq. }
    exists (result c1), (result c2), (result c3).
    split; [vm_compute; reflexivity |]. split; [vm_compute; reflexivity |].
    split; [vm_compute; reflexivity |]. repeat split; assumption.
Defined.

(** C1 fails as stated: [scale=1] and [scale=True] are different static
    configurations, but Python finds them equal, with equal hashes.
    After two calls with [scale=1], a call with [scale=True] finds the
    shape, the pjit callable and the executable of the first call: nothing
    more is compiled. *)
Lemma named_pjit_equal_values_share_executable :
  let rt := example_runtime (λ _ args _, TNode KTuple args) in
  let fn := mkCallable (TLeaf (LAtom (AFun 1))) ("step", "Trainer.step")
              (λ args _, TNode KTuple args) in
  let mapping : ResourceMapping := {[ "batch" := Phys "data" ]} in
  let options := mkPjitOptions (Some mapping) None None None None ∅ in
  let f := mkWrapped fn (mkPjitOptions (Some mapping) (Some mapping) (Some mapping)
                                       None None ∅) in
  let w0 := fresh_world (Some (mkMesh (<["data" := 4]> ∅) true)) false in
  let x (data : nat) :=
    TNamed (TLeaf (LArray (mkArray data [8; 16] "float32" (SingleDeviceSharding 0))))
           [mkAxis "batch" 8; mkAxis "hidden" 16] in
  let scale (v : Atom) : gmap string PyTree := {[ "scale" := TLeaf (LAtom v) ]} in
  let c1 := call_wrapped f [x 1%nat] (scale (AInt 1)) w0 in
  let c2 := call_wrapped f [x 2%nat] (scale (AInt 1)) (snd c1) in
  let c3 := call_wrapped f [x 3%nat] (scale (ABool true)) (snd c2) in
  fst (named_pjit (Some fn) options w0) = Return (WrappedFn f) ∧
  partition_static (call_tree [x 3%nat] (scale (ABool true)))
    ≠ partition_static (call_tree [x 1%nat] (scale (AInt 1))) ∧
  (∃ r1 r2 r3,
     fst c1 = Return r1 ∧ fst c2 = Return r2 ∧ fst c3 = Return r3 ∧
     res_executable r2 = res_executable r1 ∧
     res_executable r3 = res_executable r1) ∧
  compilations (snd c1) = 1%nat ∧
  compilations (snd c2) = 1%nat ∧
  compilations (snd c3) = 1%nat.
Proof.
  intros rt fn mapping options f w0 x scale c1 c2 c3.
  split; [vm_compute; reflexivity |].
  split; [intros Heq; vm_compute in Heq; discriminate Heq |].
  split; [| by vm_compute].
  exists (mkCallResult 0 (res_output (match fst c1 with
                                      | Return r => r
                                      | Raise _ => mkCallResult 0 TNone
                                      end))),
         (mkCallResult 0 (res_output (match fst c2 with
                                      | Return r => r
                                      | Raise _ => mkCallResult 0 TNone
                                      end))),
         (mkCallResult 0 (res_output (match fst c3 with
                                      | Return r => r
                                      | Raise _ => mkCallResult 0 TNone
                                      end))).
  repeat split; vm_compute; reflexivity.
Qed.

(** * Further properties of the module *)

(** ** What applying a mapping asks of the backend *)

Section ShardingEffects.

Context `{rt : Runtime}.
Implicit Types (w : World) (t x : PyTree).

Lemma tree_map_pure_id t : tree_map_pure id t = t.
Proof.
  induction t as [l | k ts IH] using PyTree_ind; [reflexivity |].
  destruct (is_named_array (TNode k ts)) eqn:Hk.
  - by rewrite tree_map_pure_leaf by (by right).
  - rewrite tree_map_pure_node by exact Hk. f_equal.
    induction IH as [| t ts' Ht _ IHts]; simpl; [reflexivity | by rewrite Ht, IHts].
Qed.

(** Inside jit, under a mesh context: when JAX accepts the constraint of
    every named array and the mesh has the physical axes that the specs
    name, applying a mapping returns the tree as it is; it injects one
    sharding constraint per named array, left to right, each with the
    partition spec of the axes of that array, and asks for no transfer.  On
    the empty mesh, which is in force outside of any mesh context, a named
    array raises [RuntimeError]. *)
Theorem shard_with_axis_mapping_in_jit x (mapping : ResourceMapping) w mesh :
  jit_context w = true →
  thread_env w = Some mesh →
  (Forall (λ t, constrainable mesh mapping w t = true) (tree_leaves x) →
   shard_with_axis_mapping x mapping w =
     (Return x, add_log (flat_map (constraint_of mapping w) (tree_leaves x)) w)) ∧
  (∀ axes children,
     mesh_empty mesh = true →
     jax_refuses (AskConstraint (TNode (KNamed axes) children)
                    (pspec_for_axis (as_selectors axes) (Some mapping) w)) = None →
     shard_with_axis_mapping (TNode (KNamed axes) children) mapping w =
       (Raise (RuntimeError "pjit requires a non-empty mesh"), w)).
Proof.
  intros Hjit Henv. split.
  - intros Hx. unfold shard_with_axis_mapping, bind, gets. rewrite Hjit.
    rewrite (tree_map_named_effects (_shard_leaf mapping) id (constraint_of mapping w)
               (λ t, constrainable mesh mapping w t = true) w).
    + by rewrite tree_map_pure_id.
    + intros t w' Hw' _ Ht. destruct t as [l | [] ts]; try (simpl; by rewrite add_log_nil).
      unfold constrainable in Ht. apply andb_true_iff in Ht as [Hok Hsharding].
      apply bool_decide_eq_true in Hok.
      unfold _shard_leaf, with_sharding_constraint, constraint_of.
      unfold bind at 1. unfold gets at 1.
      rewrite (pspec_for_axis_context _ _ _ _ Hw'), Hok.
      destruct Hw' as (_ & He & _).
      unfold resource_env, bind, lift_outcome, modify, ret. rewrite He, Henv.
      destruct (context_sharding mesh _); [reflexivity | discriminate].
    + apply same_context_refl.
    + exact Hx.
  - intros axes children Hempty Hok.
    unfold shard_with_axis_mapping, bind, gets. rewrite Hjit.
    cbn [tree_map_named]. unfold _shard_leaf, with_sharding_constraint, bind, gets.
    rewrite Hok. unfold resource_env, lift_outcome, context_sharding.
    by rewrite Henv, Hempty.
Qed.

Lemma transferable_context (mesh : Mesh) (mapping : ResourceMapping) w w' x :
  same_context w w' → transferable mesh mapping w' x = transferable mesh mapping w x.
Proof.
  intros Hctx. destruct x as [l | [] ts]; try reflexivity.
  unfold transferable. by rewrite (pspec_for_axis_context _ _ _ _ Hctx).
Qed.

(** The eager leaf function returns on the leaves that can be placed
    only. *)
Lemma _do_device_put_transferable (mesh : Mesh) (mapping : ResourceMapping) w x x1 w1 :
  _do_device_put mesh mapping x w = (Return x1, w1) →
  transferable mesh mapping w x = true.
Proof.
  destruct x as [l | [] children]; try reflexivity.
  rewrite _do_device_put_run. unfold transferable.
  destruct (named_sharding mesh _) as [sharding | e]; [| discriminate].
  destruct children as [| [[raw | | | |] | ] [|]]; try discriminate.
  destruct (sharding_eqb (arr_sharding raw) sharding); [reflexivity |].
  destruct (jax_refuses _) eqn:Hok; [discriminate |]. intros _.
  cbn [orb]. by apply bool_decide_eq_true_2.
Qed.

Lemma tree_map_named_transferable (mesh : Mesh) (mapping : ResourceMapping) x :
  ∀ w x1 w1, tree_map_named (_do_device_put mesh mapping) x w = (Return x1, w1) →
    Forall (λ t, transferable mesh mapping w t = true) (tree_leaves x).
Proof.
  induction x as [l | k ts IH] using PyTree_ind; intros w x1 w1 Hrun.
  - repeat constructor.
  - destruct (is_named_array (TNode k ts)) eqn:Hk.
    + rewrite tree_map_named_leaf in Hrun by (by right).
      rewrite tree_leaves_leaf by (by right).
      repeat constructor. by apply _do_device_put_transferable in Hrun.
    + rewrite tree_map_named_node in Hrun by exact Hk.
      rewrite tree_leaves_node by exact Hk.
      unfold bind in Hrun.
      destruct (tree_map_named_list _ ts w) as [[ts1 | e] wa] eqn:Ets; [| discriminate].
      clear Hrun Hk. revert w ts1 wa Ets.
      induction IH as [| t ts' Ht _ IHts]; intros w ts1 wa Hrun; [constructor |].
      simpl in Hrun. unfold bind at 1 in Hrun.
      destruct (tree_map_named _ t w) as [[t1 | e] wb] eqn:Et; [| discriminate].
      unfold bind at 1 in Hrun.
      destruct (tree_map_named_list _ ts' wb) as [[ts1' | e] wc] eqn:Ets; [| discriminate].
      simpl. apply Forall_app. split; [by eapply Ht |].
      destruct (tree_map_named_places mesh mapping t w t1 wb Et) as (_ & _ & Hctx).
      eapply Forall_impl; [by eapply IHts |].
      intros u Hu. cbn beta in Hu. by rewrite <- (transferable_context _ _ _ _ _ Hctx).
Qed.

Lemma forget_placement_put_of mesh mapping w x :
  forget_placement (tree_map_pure (put_of mesh mapping w) x) = forget_placement x.
Proof.
  induction x as [l | k ts IH] using PyTree_ind; [reflexivity |].
  destruct (is_named_array (TNode k ts)) eqn:Hk.
  - rewrite tree_map_pure_leaf by (by right). destruct k; try discriminate.
    destruct ts as [| [[raw | | | |] | ] [|]]; try reflexivity.
    unfold put_of. destruct (sharding_eqb _ _); reflexivity.
  - rewrite tree_map_pure_node by exact Hk. simpl. f_equal. rewrite map_map.
    apply Forall_fmap_ext_1. exact IH.
Qed.

(** Outside of jit, an application returns exactly when every named array
    can be placed: it holds an array, its target placement exists on the
    mesh, and it is there already or JAX accepts the transfer.  An
    application that returns has changed placements only: the contents,
    shape and dtype of every array, the axes of every named array, the
    containers and all other leaves come back as they were. *)
Theorem shard_with_axis_mapping_keeps_contents x (mapping : ResourceMapping) w mesh :
  jit_context w = false →
  thread_env w = Some mesh →
  ((∃ x1 w1, shard_with_axis_mapping x mapping w = (Return x1, w1)) ↔
   Forall (λ t, transferable mesh mapping w t = true) (tree_leaves x)) ∧
  (∀ x1 w1, shard_with_axis_mapping x mapping w = (Return x1, w1) →
            forget_placement x1 = forget_placement x).
Proof.
  intros Hjit Henv.
  assert (Hleaves : ∀ x1 w1, shard_with_axis_mapping x mapping w = (Return x1, w1) →
            Forall (λ t, transferable mesh mapping w t = true) (tree_leaves x)).
  { intros x1 w1. unfold shard_with_axis_mapping, bind, gets, _get_mesh.
    rewrite Hjit, Henv. apply tree_map_named_transferable. }
  split; [split |].
  - intros (x1 & w1 & Hrun). by eapply Hleaves.
  - intros Hx. eexists _, _. by apply shard_with_axis_mapping_eager_run.
  - intros x1 w1 Hrun.
    rewrite (shard_with_axis_mapping_eager_run mesh mapping x w Hjit Henv
               (Hleaves _ _ Hrun)) in Hrun.
    injection Hrun as <- _. apply forget_placement_put_of.
Qed.

(** Outside of jit, an application that returns has asked the backend for
    exactly one transfer per named array whose placement differs from the
    target, left to right, and for nothing else; every transfer is a
    [device_put] when the mesh is fully addressable and a
    [make_array_from_callback] when it is not. *)
Theorem shard_with_axis_mapping_transfers x (mapping : ResourceMapping) w mesh x1 w1 :
  jit_context w = false →
  thread_env w = Some mesh →
  shard_with_axis_mapping x mapping w = (Return x1, w1) →
  w1 = add_log (flat_map (transfer_of mesh mapping w) (tree_leaves x)) w ∧
  Forall (λ op, if mesh_addressable mesh
                then ∃ data target, op = DevicePut data target
                else ∃ data target, op = MakeArrayFromCallback data target)
         (flat_map (transfer_of mesh mapping w) (tree_leaves x)).
Proof.
  intros Hjit Henv Hrun. split.
  - assert (Hx : Forall (λ t, transferable mesh mapping w t = true) (tree_leaves x)).
    { revert Hrun. unfold shard_with_axis_mapping, bind, gets, _get_mesh.
      rewrite Hjit, Henv. apply tree_map_named_transferable. }
    rewrite (shard_with_axis_mapping_eager_run mesh mapping x w Hjit Henv Hx) in Hrun.
    by injection Hrun as _ <-.
  - apply Forall_flat_map, Forall_forall. intros t _.
    destruct t as [l | [] ts]; try constructor.
    destruct ts as [| [[raw | | | |] | ] [|]]; try constructor.
    unfold transfer_of. destruct (sharding_eqb _ _); [constructor |].
    destruct (mesh_addressable mesh) eqn:Ha; repeat constructor; rewrite ?Ha; eauto.
Qed.

(** [auto_sharded] does nothing without a scope; inside
    [axis_mapping(mapping)] and outside of jit, on a tree whose named arrays
    can be placed, it returns the tree with every named array placed as
    [mapping] says and nothing else changed, and when the scope is left the
    mapping that was active before is active again. *)
Theorem auto_sharded_in_scope x (mapping : ResourceMapping) w mesh :
  (resource_mapping w = None → auto_sharded x w = (Return x, w)) ∧
  (jit_context w = false → thread_env w = Some mesh →
   Forall (λ t, transferable mesh mapping (set_resource_mapping (Some mapping) w) t = true)
          (tree_leaves x) →
   ∃ x1 w1,
     axis_mapping mapping false ∅ (auto_sharded x) w = (Return x1, w1) ∧
     placed mesh mapping (set_resource_mapping (Some mapping) w) x1 = true ∧
     forget_placement x1 = forget_placement x ∧
     resource_mapping w1 = resource_mapping w).
Proof.
  split.
  - intros Hnone. unfold auto_sharded, bind, gets. by rewrite Hnone.
  - intros Hjit Henv Hx. rewrite axis_mapping_run. cbn zeta.
    assert (Hentered : entered_mapping mapping false ∅ (resource_mapping w) = mapping).
    { unfold entered_mapping. by rewrite bool_decide_eq_false_2 by (rewrite map_size_empty; lia). }
    rewrite Hentered. set (inner := set_resource_mapping (Some mapping) w) in *.
    assert (Hauto : auto_sharded x inner = shard_with_axis_mapping x mapping inner)
      by reflexivity.
    rewrite Hauto.
    pose proof (shard_with_axis_mapping_eager_run mesh mapping x inner Hjit Henv Hx) as Hrun.
    rewrite Hrun.
    eexists _, _. split; [reflexivity |].
    split; [| split; [apply forget_placement_put_of | reflexivity]].
    unfold shard_with_axis_mapping, bind, gets, _get_mesh in Hrun.
    assert (Hj : jit_context inner = false) by exact Hjit.
    assert (He : thread_env inner = Some mesh) by exact Henv.
    rewrite Hj, He in Hrun.
    by destruct (tree_map_named_places mesh mapping x inner _ _ Hrun) as (_ & Hp & _).
Qed.

End ShardingEffects.

Lemma shard_with_axis_mapping_in_jit_witness :
  let rt := example_runtime (λ _ args _, TNode KTuple args) in
  let mesh := mkMesh (<["data" := 4]> ∅) true in
  let mapping : ResourceMapping := {[ "batch" := Phys "data" ]} in
  let traced := TLeaf (LShape [8; 16] "float32") in
  let x := TNode KList
             [TNamed traced [mkAxis "batch" 8; mkAxis "hidden" 16];
              TLeaf (LAtom (AInt 3));
              TNamed traced [mkAxis "hidden" 16]] in
  let w := fresh_world (Some mesh) true in
  shard_with_axis_mapping x mapping w =
    (Return x,
     add_log [ShardingConstraint [Some (Phys "data"); None]; ShardingConstraint [None]] w) ∧
  shard_with_axis_mapping x mapping (fresh_world (Some (mkMesh ∅ true)) true) =
    (Raise (RuntimeError "pjit requires a non-empty mesh"),
     fresh_world (Some (mkMesh ∅ true)) true).
Proof.
  intros rt mesh mapping traced x w.
  destruct (shard_with_axis_mapping_in_jit x mapping w mesh eq_refl eq_refl)
    as [Hreturns _].
  split; [| vm_compute; reflexivity].
  rewrite Hreturns by (repeat constructor). vm_compute. reflexivity.
Defined.

Lemma shard_with_axis_mapping_keeps_contents_witness :
  let rt := example_runtime (λ _ args _, TNode KTuple args) in
  let mesh := mkMesh (<["data" := 4]> ∅) true in
  let mapping : ResourceMapping := {[ "batch" := Phys "data" ]} in
  let x := TNode KTuple
             [TNamed (TLeaf (LArray (mkArray 1 [8] "float32" (SingleDeviceSharding 0))))
                     [mkAxis "batch" 8];
              TLeaf (LArray (mkArray 2 [3] "int32" (SingleDeviceSharding 1)))] in
  ∃ x1 w1,
    shard_with_axis_mapping x mapping (fresh_world (Some mesh) false) = (Return x1, w1) ∧
    forget_placement x1 = forget_placement x.
Proof.
  intros rt mesh mapping x.
  destruct (shard_with_axis_mapping_keeps_contents x mapping (fresh_world (Some mesh) false)
              mesh eq_refl eq_refl) as [[_ Hreturns] Hkeeps].
  destruct Hreturns as (x1 & w1 & Hrun); [repeat constructor |].
  exists x1, w1. split; [exact Hrun | exact (Hkeeps x1 w1 Hrun)].
Defined.

Lemma shard_with_axis_mapping_transfers_witness :
  let rt := example_runtime (λ _ args _, TNode KTuple args) in
  let mesh := mkMesh (<["data" := 4]> ∅) false in
  let mapping : ResourceMapping := {[ "batch" := Phys "data" ]} in
  let target := NamedSharding mesh [Some (Phys "data")] in
  let same := NamedSharding mesh [Some (PhysSeq ["data"])] in
  let x := TNode KTuple
             [TNamed (TLeaf (LArray (mkArray 1 [8] "float32" (SingleDeviceSharding 0))))
                     [mkAxis "batch" 8];
              TNamed (TLeaf (LArray (mkArray 2 [8] "float32" same))) [mkAxis "batch" 8];
              TLeaf (LArray (mkArray 3 [3] "int32" (SingleDeviceSharding 1)))] in
  let w := fresh_world (Some mesh) false in
  ∃ x1, shard_with_axis_mapping x mapping w
          = (Return x1, add_log [MakeArrayFromCallback 1 target] w).
Proof.
  intros rt mesh mapping target same x w.
  destruct (shard_with_axis_mapping x mapping w) as [[x1 | e] w1] eqn:Hrun;
    [| vm_compute in Hrun; discriminate Hrun].
  destruct (shard_with_axis_mapping_transfers x mapping w mesh x1 w1 eq_refl eq_refl Hrun)
    as [-> _].
  exists x1. vm_compute. reflexivity.
Defined.

Lemma auto_sharded_in_scope_witness :
  let rt := example_runtime (λ _ args _, TNode KTuple args) in
  let mesh := mkMesh (<["data" := 4]> ∅) true in
  let mapping : ResourceMapping := {[ "batch" := Phys "data" ]} in
  let x := TNamed (TLeaf (LArray (mkArray 1 [8] "float32" (SingleDeviceSharding 0))))
                  [mkAxis "batch" 8] in
  let w := fresh_world (Some mesh) false in
  auto_sharded x w = (Return x, w) ∧
  ∃ x1 w1,
    axis_mapping mapping false ∅ (auto_sharded x) w = (Return x1, w1) ∧
    placed mesh mapping (set_resource_mapping (Some mapping) w) x1 = true ∧
    resource_mapping w1 = None.
Proof.
  intros rt mesh mapping x w.
  destruct (auto_sharded_in_scope x mapping w mesh) as [Hnone Hscope].
  split; [exact (Hnone eq_refl) |].
  destruct (Hscope eq_refl eq_refl) as (x1 & w1 & Hrun & Hp & _ & Hm);
    [repeat constructor |].
  exists x1, w1. auto.
Defined.

(** ** More on scopes, names and sizes *)

Section ScopesAndSizes.

Implicit Types (w : World).

(** Without [merge] the previously active mapping is hidden completely: the
    scope sees the given mapping with the overrides on top, whatever was
    active.  With [merge] but no previous mapping, or an empty one, the scope
    is the scope without [merge]. *)
Theorem axis_mapping_without_previous {A} (mapping kwargs : ResourceMapping)
    (body : M A) w :
  fst (axis_mapping mapping false kwargs current_mapping w)
    = Return (Some (kwargs ∪ mapping)) ∧
  (resource_mapping w = None ∨ resource_mapping w = Some ∅ →
   axis_mapping mapping true kwargs body w = axis_mapping mapping false kwargs body w).
Proof.
  split.
  - rewrite axis_mapping_run. simpl. do 2 f_equal. apply map_eq. intros k.
    rewrite lookup_entered_mapping, lookup_union.
    destruct (kwargs !! k), (mapping !! k); reflexivity.
  - intros Hprev. rewrite !axis_mapping_run.
    assert (entered_mapping mapping true kwargs (resource_mapping w)
            = entered_mapping mapping false kwargs (resource_mapping w)) as ->;
      [| reflexivity].
    apply map_eq. intros k. rewrite !lookup_entered_mapping.
    destruct Hprev as [-> | ->]; simpl; [reflexivity |].
    rewrite lookup_empty. reflexivity.
Qed.

Lemma axis_mapping_without_previous_witness :
  let mapping : ResourceMapping := {[ "batch" := Phys "data" ]} in
  let w := fresh_world None false in
  axis_mapping mapping true ∅ (gets (physical_axis_name (SelStr "batch") None)) w
    = axis_mapping mapping false ∅ (gets (physical_axis_name (SelStr "batch") None)) w.
Proof.
  intros mapping w.
  apply (proj2 (axis_mapping_without_previous mapping ∅
                  (gets (physical_axis_name (SelStr "batch") None)) w)).
  left. reflexivity.
Defined.

(** The lookup uses the name of an axis only: a bare name, and axes of any
    size with that name, give the same physical axis, and partition specs
    of axis sequences with the same names are equal. *)
Theorem pspec_for_axis_names_only (axes1 axes2 : list AxisSelector)
    (mapping : option ResourceMapping) w :
  map selector_name axes1 = map selector_name axes2 →
  pspec_for_axis axes1 mapping w = pspec_for_axis axes2 mapping w.
Proof.
  unfold pspec_for_axis. revert axes2.
  induction axes1 as [| a axes1 IH]; intros [| b axes2]; simpl; try discriminate;
    [reflexivity |].
  intros [= Hname Hrest]. rewrite (IH _ Hrest), !physical_axis_name_lookup, Hname.
  reflexivity.
Qed.

Lemma pspec_for_axis_names_only_witness :
  let mapping : ResourceMapping := {[ "batch" := Phys "data" ]} in
  let w := fresh_world None false in
  pspec_for_axis [SelStr "batch"; SelAxis (mkAxis "hidden" 64)] (Some mapping) w
    = pspec_for_axis [SelAxis (mkAxis "batch" 7); SelStr "hidden"] (Some mapping) w.
Proof.
  intros mapping w. apply pspec_for_axis_names_only. reflexivity.
Defined.

(** A physical axis that the mesh does not have: [physical_axis_size] raises
    [KeyError] for the first such name of the spec, in the order of the
    spec, and [round_axis_for_partitioning] passes that error on. *)
Theorem physical_axis_size_key_error (axis : Axis) (mapping : option ResourceMapping)
    w env name (before : list string) (missing : string) (after : list string) :
  thread_env w = Some env →
  physical_axis_name (SelAxis axis) mapping w = Some name →
  spec_names name = (before ++ missing :: after)%list →
  Forall (λ n, is_Some (mesh_shape env !! n)) before →
  mesh_shape env !! missing = None →
  physical_axis_size (SelAxis axis) mapping w = (Raise (KeyError missing), w) ∧
  round_axis_for_partitioning axis mapping w = (Raise (KeyError missing), w).
Proof.
  intros Henv Hname Hspec Hbefore Hmissing.
  assert (Hsizes : mesh_sizes (mesh_shape env) (spec_names name) = Raise (KeyError missing)).
  { rewrite Hspec. clear Hspec. induction Hbefore as [| n before [z Hz] _ IH]; simpl.
    - by rewrite Hmissing.
    - by rewrite Hz, IH. }
  assert (Hsize : physical_axis_size (SelAxis axis) mapping w = (Raise (KeyError missing), w)).
  { rewrite physical_axis_size_run, Henv, Hname, Hsizes. reflexivity. }
  split; [exact Hsize |].
  unfold round_axis_for_partitioning, bind. rewrite Hsize. reflexivity.
Qed.

Lemma physical_axis_size_key_error_witness :
  let env := mkMesh (<["data" := 4]> ∅) true in
  let mapping : ResourceMapping := {[ "embed" := PhysSeq ["data"; "model"; "pipe"] ]} in
  let w := fresh_world (Some env) false in
  physical_axis_size (SelAxis (mkAxis "embed" 10)) (Some mapping) w
    = (Raise (KeyError "model"), w) ∧
  round_axis_for_partitioning (mkAxis "embed" 10) (Some mapping) w
    = (Raise (KeyError "model"), w).
Proof.
  intros env mapping w.
  apply (physical_axis_size_key_error (mkAxis "embed" 10) (Some mapping) w env
           (PhysSeq ["data"; "model"; "pipe"]) ["data"] "model" ["pipe"]);
    try reflexivity.
  repeat constructor. vm_compute. eauto.
Defined.

Lemma mesh_sizes_positive (shape : gmap string Z) names zs :
  (∀ n z, shape !! n = Some z → 0 < z) →
  mesh_sizes shape names = Return zs → 0 < fold_right Z.mul 1 zs.
Proof.
  intros Hpos Hzs. rewrite <- prod_fold_right. apply prod_pos.
  apply mesh_sizes_Forall2 in Hzs.
  induction Hzs as [| n z names' zs' Hn _ IH]; constructor; eauto.
Qed.

Lemma round_axis_for_partitioning_run (axis : Axis) (mapping : option ResourceMapping)
    w env :
  thread_env w = Some env →
  (∀ n z, mesh_shape env !! n = Some z → 0 < z) →
  round_axis_for_partitioning axis mapping w =
    match physical_axis_name (SelAxis axis) mapping w with
    | None => (Return axis, w)
    | Some name =>
        match mesh_sizes (mesh_shape env) (spec_names name) with
        | Return zs =>
            (Return (mkAxis (axis_name axis)
                       ((axis_size axis + fold_right Z.mul 1 zs - 1)
                          / fold_right Z.mul 1 zs * fold_right Z.mul 1 zs)), w)
        | Raise e => (Raise e, w)
        end
    end.
Proof.
  intros Henv Hpos. unfold round_axis_for_partitioning, bind.
  rewrite physical_axis_size_run, Henv.
  destruct (physical_axis_name (SelAxis axis) mapping w) as [name |]; [| reflexivity].
  destruct (mesh_sizes (mesh_shape env) (spec_names name)) as [zs | e] eqn:Hzs;
    [| reflexivity].
  pose proof (mesh_sizes_positive _ _ _ Hpos Hzs) as Hsize.
  unfold floordiv. rewrite bool_decide_eq_false_2 by lia. reflexivity.
Qed.

(** Rounding is idempotent: on a mesh whose sizes are positive, an axis that
    [round_axis_for_partitioning] returned comes back unchanged when it is
    rounded again, and the world is never changed. *)
Theorem round_axis_for_partitioning_idempotent (axis rounded : Axis)
    (mapping : option ResourceMapping) w w' env :
  thread_env w = Some env →
  (∀ n z, mesh_shape env !! n = Some z → 0 < z) →
  round_axis_for_partitioning axis mapping w = (Return rounded, w') →
  w' = w ∧ round_axis_for_partitioning rounded mapping w = (Return rounded, w).
Proof.
  intros Henv Hpos.
  rewrite (round_axis_for_partitioning_run axis mapping w env Henv Hpos).
  rewrite (round_axis_for_partitioning_run rounded mapping w env Henv Hpos).
  rewrite !physical_axis_name_lookup. cbn [selector_name].
  destruct (py_or mapping (resource_mapping w) ≫= lookup (axis_name axis))
    as [name |] eqn:Hname.
  - destruct (mesh_sizes (mesh_shape env) (spec_names name)) as [zs | e] eqn:Hzs;
      [| discriminate].
    pose proof (mesh_sizes_positive _ _ _ Hpos Hzs) as Hsize.
    intros [= <- <-]. split; [reflexivity |].
    cbn [axis_name axis_size]. rewrite Hname, Hzs.
    destruct (round_up_bounds
                ((axis_size axis + fold_right Z.mul 1 zs - 1)
                   / fold_right Z.mul 1 zs * fold_right Z.mul 1 zs)
                (fold_right Z.mul 1 zs) Hsize) as (_ & _ & Hfix).
    cbv zeta in Hfix. rewrite Hfix by apply Z.divide_factor_r. reflexivity.
  - intros [= <- <-]. split; [reflexivity |]. by rewrite Hname.
Qed.

Lemma round_axis_for_partitioning_idempotent_witness :
  let env := mkMesh (<["data" := 4]> (<["model" := 2]> ∅)) true in
  let mapping : ResourceMapping := {[ "batch" := PhysSeq ["data"; "model"] ]} in
  let w := fresh_world (Some env) false in
  round_axis_for_partitioning (mkAxis "batch" 10) (Some mapping) w
    = (Return (mkAxis "batch" 16), w) ∧
  round_axis_for_partitioning (mkAxis "batch" 16) (Some mapping) w
    = (Return (mkAxis "batch" 16), w).
Proof.
  intros env mapping w.
  assert (Hrun : round_axis_for_partitioning (mkAxis "batch" 10) (Some mapping) w
                 = (Return (mkAxis "batch" 16), w)) by (vm_compute; reflexivity).
  split; [exact Hrun |].
  refine (proj2 (round_axis_for_partitioning_idempotent (mkAxis "batch" 10)
                   (mkAxis "batch" 16) (Some mapping) w w env eq_refl _ Hrun)).
  intros n z Hz. unfold env in Hz. cbn [mesh_shape] in Hz.
  apply lookup_insert_Some in Hz as [[_ <-] | [_ Hz]]; [lia |].
  apply lookup_insert_Some in Hz as [[_ <-] | [_ Hz]]; [lia |].
  by rewrite lookup_empty in Hz.
Defined.

(** An axis mapped to the empty sequence of physical axes has physical size
    1, the empty product, on every mesh, and rounding returns it as it is. *)
Theorem physical_axis_size_empty_spec (axis : Axis) (mapping : option ResourceMapping)
    w env :
  thread_env w = Some env →
  physical_axis_name (SelAxis axis) mapping w = Some (PhysSeq []) →
  physical_axis_size (SelAxis axis) mapping w = (Return (Some 1), w) ∧
  round_axis_for_partitioning axis mapping w = (Return axis, w).
Proof.
  intros Henv Hname.
  assert (Hsize : physical_axis_size (SelAxis axis) mapping w = (Return (Some 1), w))
    by (rewrite physical_axis_size_run, Henv, Hname; reflexivity).
  split; [exact Hsize |].
  unfold round_axis_for_partitioning, bind. rewrite Hsize.
  unfold floordiv. rewrite bool_decide_eq_false_2 by lia. unfold ret.
  replace (axis_size axis + 1 - 1) with (axis_size axis) by lia.
  rewrite Z.div_1_r, Z.mul_1_r. by destruct axis.
Qed.

Lemma physical_axis_size_empty_spec_witness :
  let mapping : ResourceMapping := {[ "batch" := PhysSeq [] ]} in
  let w := fresh_world (Some (mkMesh ∅ true)) false in
  physical_axis_size (SelAxis (mkAxis "batch" 10)) (Some mapping) w = (Return (Some 1), w) ∧
  round_axis_for_partitioning (mkAxis "batch" 10) (Some mapping) w
    = (Return (mkAxis "batch" 10), w).
Proof.
  intros mapping w.
  apply (physical_axis_size_empty_spec (mkAxis "batch" 10) (Some mapping) w (mkMesh ∅ true));
    reflexivity.
Defined.

End ScopesAndSizes.

(** ** More on the wrapper *)

Section WrapperDetails.

Context `{rt : Runtime}.
Implicit Types (f : Wrapped) (fn : Callable) (args : list PyTree)
  (kwargs : gmap string PyTree) (w : World) (t : PyTree).

Lemma infer_resource_partitions_pure_run t (m : ResourceMapping) w :
  infer_resource_partitions t (Some m) w = (Return (tree_map_pure (resource_of m w) t), w).
Proof.
  unfold infer_resource_partitions, bind, ret.
  rewrite (tree_map_named_effects (partition_spec m) (resource_of m w) (λ _, [])
             (λ _, True) w).
  - f_equal. rewrite <- (add_log_nil w) at 2. f_equal.
    induction (tree_leaves t); [reflexivity | assumption].
  - intros t' w' Hw' _ _. rewrite add_log_nil.
    destruct t' as [[a | | | |] | [] ts]; try reflexivity.
    + simpl. by destruct (arr_sharding a).
    + unfold partition_spec, resource_of, bind, gets, ret.
      by rewrite (pspec_for_axis_context _ _ _ _ Hw').
  - apply same_context_refl.
  - by apply Forall_forall.
Qed.

(** [infer_resource_partitions] raises [ValueError] exactly when no mapping
    is passed and none is scoped; otherwise it returns and changes nothing;
    and with a non-empty mapping passed, its result does not depend on the
    scope it is called in. *)
Theorem infer_resource_partitions_behaviour t (mapping : option ResourceMapping) w :
  (mapping = None → resource_mapping w = None →
     infer_resource_partitions t mapping w
       = (Raise (ValueError "No resource mapping found"), w)) ∧
  (or_else mapping (resource_mapping w) ≠ None →
     ∃ res, infer_resource_partitions t mapping w = (Return res, w)) ∧
  (∀ (m : ResourceMapping) w', mapping = Some m → m ≠ ∅ →
     fst (infer_resource_partitions t mapping w')
       = fst (infer_resource_partitions t mapping w)).
Proof.
  split; [| split].
  - intros -> Hw. unfold infer_resource_partitions, bind, current_mapping, gets.
    by rewrite Hw.
  - intros Hsome. destruct mapping as [m |].
    + eexists. apply infer_resource_partitions_pure_run.
    + destruct (resource_mapping w) as [m |] eqn:Hw; [| done].
      exists (tree_map_pure (resource_of m w) t).
      rewrite <- (infer_resource_partitions_pure_run t m w).
      unfold infer_resource_partitions, bind, current_mapping, gets, ret. by rewrite Hw.
  - intros m w' -> Hm. rewrite !infer_resource_partitions_pure_run. cbn [fst]. f_equal.
    assert (Hres : ∀ node, resource_of m w' node = resource_of m w node).
    { intros [l | [] ts]; try reflexivity. unfold resource_of. do 3 f_equal.
      unfold pspec_for_axis. apply map_ext. intros a.
      by rewrite !physical_axis_name_lookup, !py_or_nonempty. }
    induction t as [l | k ts IH] using PyTree_ind; [apply Hres |].
    destruct (is_named_array (TNode k ts)) eqn:Hk.
    + rewrite !tree_map_pure_leaf by (by right). apply Hres.
    + rewrite !tree_map_pure_node by exact Hk. f_equal.
      apply Forall_fmap_ext_1. exact IH.
Qed.

Lemma count_leaves_mask_none t : count_leaves (mask_none t) = 0%nat.
Proof.
  induction t as [l | k ts IH] using PyTree_ind; [reflexivity |].
  simpl. rewrite map_map.
  induction IH as [| t ts' Ht _ IHts]; simpl; [reflexivity | by rewrite Ht, IHts].
Qed.

Lemma count_leaves_split_by b t :
  (count_leaves (fst (split_by b t)) + count_leaves (snd (split_by b t)))%nat
    = count_leaves t.
Proof. destruct b; simpl; rewrite count_leaves_mask_none; lia. Qed.

Lemma count_leaves_split_each flags : ∀ ts ds rs,
  split_each flags ts = Return (ds, rs) →
  (list_sum (map count_leaves ds) + list_sum (map count_leaves rs))%nat
    = list_sum (map count_leaves ts).
Proof.
  induction flags as [| b flags IH]; intros [| t ts] ds rs; simpl; try discriminate.
  - intros [= <- <-]. reflexivity.
  - destruct (split_each flags ts) as [[ds' rs'] | e] eqn:E; [| discriminate].
    intros [= <- <-]. simpl. pose proof (IH _ _ _ E). pose proof (count_leaves_split_by b t).
    lia.
Qed.

(** Donation splits the arrays of a call in two: when the flags line up
    with the positional arguments the split succeeds, every array of the
    dynamic part is in exactly one of the two halves, the halves combine to
    the dynamic part again, and the arrays that belong to the callable
    itself are always in the reserved half. *)
Theorem donation_split_partitions f args kwargs :
  donation_aligned f args →
  let fun_dynamic := partition_dynamic (fn_tree (wrapped_fn f)) in
  let dynamic := TNode KTuple [fun_dynamic; partition_dynamic (call_tree args kwargs)] in
  ∃ donated reserved donated_args reserved_args,
    donation_split (wrapped_options f) args kwargs dynamic = Return (donated, reserved) ∧
    donated = TNode KTuple [mask_none fun_dynamic; donated_args] ∧
    reserved = TNode KTuple [fun_dynamic; reserved_args] ∧
    (count_leaves donated + count_leaves reserved)%nat = count_leaves dynamic ∧
    combine donated reserved = dynamic.
Proof.
  intros Haligned fun_dynamic dynamic.
  destruct (donation_split_returns f args kwargs Haligned) as (d & r & Hsplit & Hcombine).
  fold fun_dynamic dynamic in Hsplit, Hcombine. exists d, r.
  pose proof Hsplit as Hsplit0.
  unfold donation_split in Hsplit.
  destruct (bool_decide (donate_args _ ≠ None) || bool_decide (donate_kwargs _ ≠ None)).
  - subst dynamic. rewrite partition_dynamic_call_tree in *.
    unfold partition_donated in Hsplit.
    destruct (split_each _ (map partition_dynamic args)) as [[ds rs] | e] eqn:Hargs;
      [| discriminate].
    destruct (split_each _ (map partition_dynamic (map snd _))) as [[dk rk] | e] eqn:Hkw;
      [| discriminate].
    injection Hsplit as <- <-. eexists _, _.
    split; [exact Hsplit0 |]. split; [reflexivity |]. split; [reflexivity |].
    split; [| exact Hcombine].
    apply count_leaves_split_each in Hargs, Hkw.
    cbn [split_by fst snd count_leaves map list_sum].
    rewrite count_leaves_mask_none. cbn [count_leaves map].
    unfold list_sum in *. cbn [fold_right]. lia.
  - injection Hsplit as <- <-. subst dynamic. cbn [mask_none map]. eexists _, _.
    split; [exact Hsplit0 |]. split; [reflexivity |]. split; [reflexivity |].
    split; [| exact Hcombine].
    etransitivity; [| apply Nat.add_0_l]. f_equal.
    apply (count_leaves_mask_none
             (TNode KTuple [fun_dynamic; partition_dynamic (call_tree args kwargs)])).
Qed.

Lemma split_each_mismatch flags : ∀ ts,
  length flags ≠ length ts → split_each flags ts = Raise (ValueError "Tuple arity mismatch").
Proof.
  induction flags as [| b flags IH]; intros [| t ts] Hlen; simpl in *;
    try reflexivity; try lia.
  rewrite IH by lia. reflexivity.
Qed.

(** Donation flags that do not line up with the positional arguments: the
    call raises [ValueError] before anything else happens; no shape is
    inferred or cached, no pjit callable is built, nothing is compiled. *)
Theorem call_wrapped_misaligned f args kwargs w flags :
  donate_args (wrapped_options f) = Some (DonateEach flags) →
  length flags ≠ length args →
  ∃ msg, call_wrapped f args kwargs w = (Raise (ValueError msg), w).
Proof.
  intros Hflags Hlen. unfold call_wrapped, hashable_partition.
  unfold bind at 1. unfold lift_outcome at 1.
  unfold donation_split. rewrite Hflags.
  rewrite bool_decide_eq_true_2 by discriminate. cbn [orb donate_flags].
  rewrite partition_dynamic_call_tree. unfold partition_donated.
  rewrite split_each_mismatch by (by rewrite length_map). eauto.
Qed.



(** Whatever calls of wrapped functions run one after the other, returning
    or raising: no entry of the shape cache, of the memo table of pjit
    callables or of the table of executables is ever removed or replaced,
    and the scoped mapping is afterwards what it was before. *)
Theorem wrapped_calls_never_evict (calls : list Call) w :
  caches_grow w (run_calls calls w) ∧
  resource_mapping (run_calls calls w) = resource_mapping w.
Proof. apply run_calls_grow. Qed.


(** The memo table of pjit callables is keyed by the names of the function,
    not by the function: for two different functions with the same
    [__name__] and [__qualname__], wrapped with the same options and called
    with the same arguments (and inferring the same output shape), calls
    that return share one pjit callable; the backend still compiles one
    executable for each, because the function is part of the static
    argument. *)
Theorem named_pjit_cache_shared_by_name f g args kwargs w0 w1 w2 r1 r2
    (m_in m_out : ResourceMapping) :
  wrapped_options g = wrapped_options f →
  fn_names (wrapped_fn g) = fn_names (wrapped_fn f) →
  partition_dynamic (fn_tree (wrapped_fn g)) = partition_dynamic (fn_tree (wrapped_fn f)) →
  key_of (partition_static (fn_tree (wrapped_fn g)))
    ≠ key_of (partition_static (fn_tree (wrapped_fn f))) →
  filter_eval_shape (wrapped_fn g) args kwargs = filter_eval_shape (wrapped_fn f) args kwargs →
  in_axis_resources (wrapped_options f) = Some m_in →
  out_axis_resources (wrapped_options f) = Some m_out →
  eval_shape_cache w0 = [] → named_pjit_cache w0 = [] → executables w0 = [] →
  call_wrapped f args kwargs w0 = (Return r1, w1) →
  call_wrapped g args kwargs w1 = (Return r2, w2) →
  pjit_built w2 = S (pjit_built w0) ∧
  length (named_pjit_cache w2) = 1%nat ∧
  compilations w1 = 1%nat ∧
  compilations w2 = 2%nat ∧
  res_executable r2 ≠ res_executable r1.
Proof.
  intros Hopts Hnames Hdyn Hstatic Hshape Hin Hout He Hm Hx Hcall1 Hcall2.
  destruct (call_wrapped_returns _ _ _ _ _ _ _ _ Hin Hout Hcall1)
    as (d1 & rs1 & shape1 & in1 & out1 & H1).
  cbv zeta in H1. rewrite He, Hm, Hx in H1.
  cbn [dict_get index_of fmap list_fmap app length] in H1.
  destruct H1 as (Hs1 & Hsh1 & Hi1 & Ho1 & Hmap1 & He1 & Hp1 & Hb1 & Hx1 & Hr1 & _).
  pose proof Hin as Hin'. pose proof Hout as Hout'. rewrite <- Hopts in Hin', Hout'.
  destruct (call_wrapped_returns _ _ _ _ _ _ _ _ Hin' Hout' Hcall2)
    as (d2 & rs2 & shape2 & in2 & out2 & H2).
  cbv zeta in H2. rewrite Hopts, Hnames, Hdyn, Hshape in H2.
  destruct H2 as (Hs2 & Hsh2 & Hi2 & Ho2 & _ & _ & Hp2 & Hb2 & Hx2 & Hr2 & _).
  rewrite Hs1 in Hs2. injection Hs2 as <- <-.
  rewrite Hsh1 in Hsh2. injection Hsh2 as <-.
  rewrite (infer_resource_partitions_at _ _ _ _ _ Hi1 Hmap1) in Hi2.
  cbn [fst] in Hi2. injection Hi2 as <-.
  assert (Hcached : match dict_get (shape_key (wrapped_fn g) args kwargs)
                            (eval_shape_cache w1) with
                    | Some hit => hit
                    | None => shape1
                    end = shape1).
  { rewrite He1. cbn [dict_get]. by case_bool_decide. }
  rewrite Hcached, (infer_resource_partitions_at _ _ _ _ _ Ho1 Hmap1) in Ho2.
  cbn [fst] in Ho2. injection Ho2 as <-.
  rewrite Hp1 in Hp2, Hb2, Hx2, Hr2. rewrite Hb1 in Hb2.
  cbn [dict_get] in Hp2, Hb2, Hx2, Hr2.
  rewrite bool_decide_eq_true_2 in Hp2, Hb2, Hx2, Hr2 by reflexivity.
  rewrite Hx1 in Hx2, Hr2.
  cbn [fmap list_fmap exe_key index_of] in Hx2, Hr2.
  assert (Hother : ∀ p d r,
    mkExecKey p (key_of (TNode KTuple [partition_static (fn_tree (wrapped_fn g));
                                       partition_static (call_tree args kwargs)])) d r
    ≠ mkExecKey p (key_of (TNode KTuple [partition_static (fn_tree (wrapped_fn f));
                                         partition_static (call_tree args kwargs)])) d r).
  { intros p d r Heq. apply (f_equal exec_static) in Heq.
    cbn [exec_static key_of map] in Heq. congruence. }
  rewrite bool_decide_eq_false_2 in Hx2, Hr2 by apply Hother.
  cbn [fmap option_fmap option_map] in Hx2, Hr2.
  unfold compilations. rewrite Hb2, Hp2, Hx2, Hx1, Hr2, Hr1.
  repeat split. discriminate.
Qed.

End WrapperDetails.

Lemma infer_resource_partitions_behaviour_witness :
  let rt := example_runtime (λ _ args _, TNode KTuple args) in
  let mapping : ResourceMapping := {[ "batch" := Phys "data" ]} in
  let t := TNamed (TLeaf (LShape [8] "float32")) [mkAxis "batch" 8] in
  let w := fresh_world None false in
  let scoped := set_resource_mapping (Some {[ "batch" := Phys "model" ]}) w in
  infer_resource_partitions t None w = (Raise (ValueError "No resource mapping found"), w) ∧
  (∃ res, infer_resource_partitions t None scoped = (Return res, scoped)) ∧
  fst (infer_resource_partitions t (Some mapping) scoped)
    = fst (infer_resource_partitions t (Some mapping) w).
Proof.
  intros rt mapping t w scoped. split; [| split].
  - apply (proj1 (infer_resource_partitions_behaviour t None w)); reflexivity.
  - apply (proj1 (proj2 (infer_resource_partitions_behaviour t None scoped))). discriminate.
  - apply (proj2 (proj2 (infer_resource_partitions_behaviour t (Some mapping) w))
             mapping scoped eq_refl).
    intros H. apply (f_equal (.!! "batch")) in H. vm_compute in H. discriminate H.
Defined.

Lemma donation_split_partitions_witness :
  let rt := example_runtime (λ _ args _, TNode KTuple args) in
  let fn := mkCallable (TLeaf (LAtom (AFun 1))) ("f", "f") (λ args _, TNode KTuple args) in
  let f := mkWrapped fn (mkPjitOptions None None None
                           (Some (DonateEach [true; false])) None ∅) in
  let x (n : nat) := TLeaf (LArray (mkArray n [4] "float32" (SingleDeviceSharding 0))) in
  let dynamic := TNode KTuple [partition_dynamic (fn_tree fn);
                               partition_dynamic (call_tree [x 1%nat; x 2%nat] ∅)] in
  ∃ donated reserved,
    donation_split (wrapped_options f) [x 1%nat; x 2%nat] ∅ dynamic
      = Return (donated, reserved) ∧
    count_leaves donated = 1%nat ∧ count_leaves reserved = 1%nat ∧
    combine donated reserved = dynamic.
Proof.
  intros rt fn f x dynamic.
  destruct (donation_split_partitions f [x 1%nat; x 2%nat] ∅ eq_refl)
    as (d & r & da & ra & Hsplit & _ & _ & _ & Hcombine).
  exists d, r. split; [exact Hsplit |].
  vm_compute in Hsplit. injection Hsplit as <- <-.
  split; [reflexivity |]. split; [reflexivity | exact Hcombine].
Defined.

Lemma call_wrapped_misaligned_witness :
  let rt := example_runtime (λ _ args _, TNode KTuple args) in
  let fn := mkCallable (TLeaf (LAtom (AFun 1))) ("f", "f") (λ args _, TNode KTuple args) in
  let mapping : ResourceMapping := {[ "batch" := Phys "data" ]} in
  let f := mkWrapped fn (mkPjitOptions (Some mapping) (Some mapping) (Some mapping)
                           (Some (DonateEach [true; false])) None ∅) in
  let x := TLeaf (LArray (mkArray 1 [4] "float32" (SingleDeviceSharding 0))) in
  ∃ msg, call_wrapped f [x] ∅ (fresh_world None false)
         = (Raise (ValueError msg), fresh_world None false).
Proof.
  intros rt fn mapping f x.
  apply (call_wrapped_misaligned f [x] ∅ (fresh_world None false) [true; false] eq_refl).
  simpl. lia.
Defined.



Lemma named_pjit_cache_shared_by_name_witness :
  let rt := example_runtime (λ _ args _, TNode KTuple args) in
  let mesh := mkMesh (<["data" := 4]> ∅) true in
  let mapping : ResourceMapping := {[ "batch" := Phys "data" ]} in
  let options := mkPjitOptions (Some mapping) (Some mapping) (Some mapping) None None ∅ in
  let lambda (id : nat) :=
    mkWrapped (mkCallable (TLeaf (LAtom (AFun id))) ("<lambda>", "<lambda>")
                 (λ args _, TNode KTuple args)) options in
  let x := TLeaf (LArray (mkArray 1 [4] "float32" (SingleDeviceSharding 0))) in
  let w0 := fresh_world (Some mesh) false in
  ∃ r1 w1 r2 w2,
    call_wrapped (lambda 1%nat) [x] ∅ w0 = (Return r1, w1) ∧
    call_wrapped (lambda 2%nat) [x] ∅ w1 = (Return r2, w2) ∧
    pjit_built w2 = 1%nat ∧ compilations w2 = 2%nat.
Proof.
  intros rt mesh mapping options lambda x w0.
  destruct (call_wrapped (lambda 1%nat) [x] ∅ w0) as [[r1 | e] w1] eqn:Hrun1;
    [| vm_compute in Hrun1; discriminate Hrun1].
  destruct (call_wrapped (lambda 2%nat) [x] ∅ w1) as [[r2 | e] w2] eqn:Hrun2;
    [| vm_compute in Hrun1; injection Hrun1 as <- <-;
       vm_compute in Hrun2; discriminate Hrun2].
  destruct (named_pjit_cache_shared_by_name (lambda 1%nat) (lambda 2%nat) [x] ∅ w0 w1 w2
              r1 r2 mapping mapping)
    as (Hbuilt & _ & _ & Hcount & _); try reflexivity; try assumption.
  - vm_compute. discriminate.
  - exists r1, w1, r2, w2. auto.
Defined.

(** * Splitting random keys *)

#[local] Open Scope Z_scope.

Section RandomKeys.

Variable threefry_split : PRNGKey → nat → list PRNGKey.
Hypothesis threefry_split_length : ∀ key n, length (threefry_split key n) = n.

Lemma prod_app (xs ys : list Z) : prod (xs ++ ys) = prod xs * prod ys.
Proof.
  induction xs as [| x xs IH]; cbn [app].
  - change (prod []) with 1. lia.
  - rewrite !prod_cons, IH. lia.
Qed.

Lemma prod_nonneg (dims : list Z) : Forall (λ d : Z, 0 ≤ d) dims → 0 ≤ prod dims.
Proof.
  induction 1 as [| d dims Hd _ IH]; [by compute |]. rewrite prod_cons. lia.
Qed.

Lemma wrap64_small z : - 2 ^ 63 ≤ z < 2 ^ 63 → wrap64 z = z.
Proof. intros Hz. unfold wrap64. rewrite Z.mod_small; lia. Qed.

Lemma filter_no_hole (dims : list Z) :
  Forall (λ d : Z, 0 ≤ d) dims →
  filter (λ d : Z, d ≠ -1) dims = dims ∧ filter (λ d : Z, d = -1) dims = [] ∧
  forallb (λ d : Z, -1 <=? d) dims = true.
Proof.
  induction 1 as [| d dims Hd _ (IH1 & IH2 & IH3)]; [done |].
  rewrite filter_cons_True by lia. rewrite filter_cons_False by lia.
  cbn [forallb]. rewrite IH1, IH2, IH3. split; [done |]. split; [done |].
  apply andb_true_intro. split; [lia | done].
Qed.

Lemma jnp_reshape_exact a (new_shape : list Z) :
  Forall (λ d : Z, 0 ≤ d) new_shape →
  prod new_shape = Z.of_nat (length (ka_words a)) →
  jnp_reshape a new_shape = Done (mkKeyArray new_shape (ka_words a)).
Proof.
  intros Hdims Hsize. destruct (filter_no_hole new_shape Hdims) as (Hk & Hh & Hall).
  unfold jnp_reshape. rewrite Hall, Hh, Hk. cbn [negb length].
  by rewrite Hsize, Z.eqb_refl.
Qed.

Lemma length_flat_map_key_words (keys : list PRNGKey) :
  length (flat_map key_words keys) = (2 * length keys)%nat.
Proof. induction keys as [| k keys IH]; [done |]. cbn [flat_map key_words app length]. lia. Qed.

(** [shaped_rng_split] of a key with a sequence of non-negative dimensions
    whose product fits 64 bits returns an array of shape
    [split_shape + (2,)] holding two words for each requested key.  When
    the product is one no key is derived: the words are those of the key
    that was passed in.  Otherwise they are the keys [jrandom.split] derives,
    in its order. *)
Theorem shaped_rng_split_shape key (dims : list Z) :
  Forall (λ d : Z, 0 ≤ d) dims →
  prod dims < 2 ^ 63 →
  ∃ a,
    shaped_rng_split threefry_split (Some key) (SeqShape dims) = Done a ∧
    ka_shape a = (dims ++ [2])%list ∧
    Z.of_nat (length (ka_words a)) = 2 * prod dims ∧
    ka_words a = if prod dims =? 1 then key_words key
                 else flat_map key_words (threefry_split key (Z.to_nat (prod dims))).
Proof.
  intros Hdims Hfit. pose proof (prod_nonneg dims Hdims) as Hnonneg.
  assert (Hfull : Forall (λ d : Z, 0 ≤ d) (dims ++ [2])).
  { apply Forall_app. split; [done |]. by repeat constructor. }
  unfold shaped_rng_split, np_prod. rewrite wrap64_small by lia.
  cbn [shape_of and_then as_array ka_shape].
  destruct (prod dims =? 1) eqn:Hone.
  - apply Z.eqb_eq in Hone. cbn [reshape_key].
    rewrite jnp_reshape_exact; [| done |].
    + eexists. split; [reflexivity |]. cbn [ka_shape ka_words as_array key_words length].
      repeat split. lia.
    + rewrite prod_app, Hone. reflexivity.
  - unfold maybe_rng_split. rewrite Hone. unfold jrandom_split.
    rewrite (proj2 (Z.leb_le 0 (prod dims)) Hnonneg). cbn [and_then reshape_split].
    rewrite jnp_reshape_exact; [| done |].
    + eexists. split; [reflexivity |]. cbn [ka_shape ka_words].
      rewrite length_flat_map_key_words, threefry_split_length. repeat split. lia.
    + cbn [ka_words]. rewrite length_flat_map_key_words, threefry_split_length, prod_app.
      change (prod [2]) with 2. lia.
Qed.

(** An int [n] as [split_shape] gives what the one-element sequence [(n,)]
    gives, on a key and on [None]. *)
Theorem shaped_rng_split_int_as_sequence key (n : Z) :
  - 2 ^ 63 ≤ n < 2 ^ 63 →
  shaped_rng_split threefry_split key (IntShape n)
  = shaped_rng_split threefry_split key (SeqShape [n]).
Proof.
  intros Hn. unfold shaped_rng_split, np_prod.
  rewrite prod_cons. change (prod []) with 1. rewrite Z.mul_1_r, wrap64_small by lia.
  reflexivity.
Qed.

(** [shaped_rng_split] never replicates [None] the way [maybe_rng_split]
    does: on a [None] key it raises [AttributeError] for every split shape,
    because it reads [key.shape] before it calls [maybe_rng_split]. *)
Theorem shaped_rng_split_none_key (split_shape : SplitShape) (num : Z) :
  shaped_rng_split threefry_split None split_shape = Failed (Exn (AttributeError "shape")) ∧
  maybe_rng_split threefry_split None num = Done (Nones (Z.to_nat num)).
Proof. by destruct split_shape. Qed.

End RandomKeys.

Lemma shaped_rng_split_shape_witness :
  let threefry := λ (key : PRNGKey) (n : nat), map (λ i, (key.1, key.2 + Z.of_nat i)) (seq 0 n) in
  ∃ a, shaped_rng_split threefry (Some (7, 9)) (SeqShape [2; 3]) = Done a ∧
       ka_shape a = [2; 3; 2] ∧ length (ka_words a) = 12%nat.
Proof.
  intros threefry.
  destruct (shaped_rng_split_shape threefry
              (λ key n, eq_trans (length_map _ _) (length_seq n 0)) (7, 9) [2; 3])
    as (a & Hrun & Hshape & Hlen & _).
  - repeat constructor; lia.
  - reflexivity.
  - exists a. split; [exact Hrun |]. split; [exact Hshape |].
    change (2 * prod [2; 3]) with 12 in Hlen. lia.
Defined.

Lemma shaped_rng_split_int_as_sequence_witness :
  let threefry := λ (key : PRNGKey) (n : nat), map (λ i, (key.1, key.2 + Z.of_nat i)) (seq 0 n) in
  shaped_rng_split threefry (Some (7, 9)) (IntShape 3)
  = shaped_rng_split threefry (Some (7, 9)) (SeqShape [3]).
Proof.
  intros threefry. apply (shaped_rng_split_int_as_sequence threefry (Some (7, 9)) 3). lia.
Defined.

(** * Checkpointed composition and named calls *)

Section Checkpointing.

Context {A : Type}.
Implicit Types (funs : list (A → A)) (c : Checkpointed A) (threshold : Z).

Lemma run_functions c x : run c x = fold_left (λ acc f, f acc) (functions c) x.
Proof.
  revert x. induction c as [f | first IH1 second IH2 | c IH]; intros x; cbn [run functions].
  - reflexivity.
  - by rewrite fold_left_app, <- IH1, <- IH2.
  - apply IH.
Qed.

Lemma fold_compose_functions (rest : list (A → A)) : ∀ c,
  functions (fold_left (λ f g, Then f (Plain g)) rest c) = (functions c ++ rest)%list ∧
  rematerialised (fold_left (λ f g, Then f (Plain g)) rest c) = rematerialised c.
Proof.
  induction rest as [| g rest IH]; intros c; cbn [fold_left].
  - by rewrite app_nil_r.
  - destruct (IH (Then c (Plain g))) as [-> ->]. cbn [functions rematerialised].
    by rewrite <- app_assoc, app_nil_r.
Qed.

Lemma reduce_compose_spec funs :
  funs ≠ [] →
  ∃ c, reduce_compose funs = Done c ∧ functions c = funs ∧ rematerialised c = [].
Proof.
  destruct funs as [| f rest]; [done |]. intros _. eexists. split; [reflexivity |].
  destruct (fold_compose_functions rest (Plain f)) as [-> ->]. done.
Qed.

Lemma half_bounds (n : nat) : (3 ≤ n → 1 ≤ n / 2 ∧ n / 2 < n ∧ 2 ≤ n - n / 2)%nat.
Proof.
  intros Hn. pose proof (Nat.div_mod_eq n 2) as Hdiv.
  pose proof (Nat.mod_upper_bound n 2). lia.
Qed.

Lemma recursive_checkpoint_fuel_spec (fuel : nat) : ∀ funs threshold,
  funs ≠ [] → (length funs < fuel)%nat →
  ∃ c rest,
    recursive_checkpoint_fuel fuel funs threshold = Some (Done c) ∧
    functions c = funs ∧
    rest ≠ [] ∧
    funs = (rematerialised c ++ rest)%list ∧
    ((length funs ≤ 2)%nat ∨ Z.of_nat (length funs) ≤ threshold → rematerialised c = []) ∧
    ((2 < length funs)%nat → threshold < Z.of_nat (length funs) →
     (length funs / 2 ≤ length (rematerialised c))%nat).
Proof.
  induction fuel as [| fuel IH]; intros funs threshold Hne Hfuel; [lia |].
  destruct funs as [| f1 [| f2 [| f3 funs]]]; [done | | |].
  - exists (Plain f1), [f1]. cbn. repeat split; try done; lia.
  - exists (Then (Plain f1) (Plain f2)), [f1; f2]. cbn. repeat split; try done; lia.
  - set (all := f1 :: f2 :: f3 :: funs) in *.
    assert (Hlen : (3 ≤ length all)%nat) by (subst all; cbn [length]; lia).
    change (recursive_checkpoint_fuel (S fuel) all threshold)
      with (if Z.of_nat (length all) <=? threshold then Some (reduce_compose all)
            else
              match recursive_checkpoint_fuel fuel (take (length all / 2) all) 2 with
              | None => None
              | Some (Failed e) => Some (Failed e)
              | Some (Done f1) =>
                  match recursive_checkpoint_fuel fuel (drop (length all / 2) all) 2 with
                  | None => None
                  | Some (Failed e) => Some (Failed e)
                  | Some (Done f2) => Some (Done (Then (Remat f1) f2))
                  end
              end).
    destruct (Z.leb_spec (Z.of_nat (length all)) threshold) as [Hle | Hgt].
    + destruct (reduce_compose_spec all Hne) as (c & -> & Hfuns & Hremat).
      exists c, all. rewrite Hremat. repeat split; try done. intros; lia.
    + destruct (half_bounds _ Hlen) as (Hh1 & Hh2 & Hh3).
      assert (Hl1 : length (take (length all / 2) all) = (length all / 2)%nat)
        by (rewrite length_take; lia).
      assert (Hl2 : length (drop (length all / 2) all) = (length all - length all / 2)%nat)
        by apply length_drop.
      destruct (IH (take (length all / 2) all) 2) as (c1 & _ & -> & Hf1 & _);
        [intros E; rewrite E in Hl1; cbn [length] in Hl1; lia | lia |].
      destruct (IH (drop (length all / 2) all) 2) as (c2 & rest & -> & Hf2 & Hrest & Hsplit & _);
        [intros E; rewrite E in Hl2; cbn [length] in Hl2; lia | lia |].
      exists (Then (Remat c1) c2), rest. cbn [functions rematerialised].
      rewrite Hf1, Hf2. split; [done |]. split; [apply take_drop |]. split; [done |].
      split; [| split].
      * rewrite <- app_assoc, <- Hsplit. symmetry. apply take_drop.
      * intros [? | ?]; lia.
      * intros _ _. rewrite length_app, Hl1. lia.
Qed.

Lemma recursive_checkpoint_nil threshold :
  recursive_checkpoint (@nil (A → A)) threshold = Some (Failed TypeError).
Proof.
  unfold recursive_checkpoint. cbn.
  destruct (Z.of_nat 0 <=? threshold); reflexivity.
Qed.

(** On a non-empty list [recursive_checkpoint] returns a function that
    applies every function of the list exactly once, in the order of the
    list: calling it is the left-to-right composition, whatever the
    threshold and wherever [jax.remat] was put. *)
Theorem recursive_checkpoint_composes funs threshold :
  funs ≠ [] →
  ∃ c,
    recursive_checkpoint funs threshold = Some (Done c) ∧
    functions c = funs ∧
    ∀ x, run c x = fold_left (λ acc f, f acc) funs x.
Proof.
  intros Hne.
  destruct (recursive_checkpoint_fuel_spec (2 + length funs) funs threshold Hne)
    as (c & _ & Hrun & Hfuns & _); [lia |].
  exists c. split; [exact Hrun |]. split; [exact Hfuns |].
  intros x. by rewrite run_functions, Hfuns.
Qed.

(** [recursive_checkpoint] always comes back, and it raises exactly when the
    list is empty: then it is the [TypeError] of [functools.reduce],
    whatever the threshold (below zero the empty halves reach [reduce]
    through the recursive calls). *)
Theorem recursive_checkpoint_fails_iff_empty funs threshold :
  recursive_checkpoint funs threshold ≠ None ∧
  ∀ f, recursive_checkpoint funs threshold = Some (Failed f) ↔ funs = [] ∧ f = TypeError.
Proof.
  destruct funs as [| f1 funs].
  - rewrite recursive_checkpoint_nil. split; [done |]. intros f. split.
    + intros [= <-]. done.
    + intros [_ ->]. done.
  - destruct (recursive_checkpoint_fuel_spec (2 + length (f1 :: funs)) (f1 :: funs) threshold)
      as (c & _ & Hrun & _); [done | lia |].
    unfold recursive_checkpoint. rewrite Hrun. split; [done |]. intros f. split.
    + discriminate.
    + intros [? _]. done.
Qed.

(** Where [recursive_checkpoint] puts [jax.remat]: the rematerialised
    functions are a prefix of the list that never reaches the last function;
    there are none when the list has at most two functions or at most
    [threshold] of them; otherwise the first half of the list, at least, is
    rematerialised. *)
Theorem recursive_checkpoint_remat_prefix funs threshold c :
  recursive_checkpoint funs threshold = Some (Done c) →
  ∃ rest,
    rest ≠ [] ∧
    funs = (rematerialised c ++ rest)%list ∧
    ((length funs ≤ 2)%nat ∨ Z.of_nat (length funs) ≤ threshold → rematerialised c = []) ∧
    ((2 < length funs)%nat → threshold < Z.of_nat (length funs) →
     (length funs / 2 ≤ length (rematerialised c))%nat).
Proof.
  intros Hrun.
  assert (Hne : funs ≠ []).
  { intros ->. by rewrite recursive_checkpoint_nil in Hrun. }
  destruct (recursive_checkpoint_fuel_spec (2 + length funs) funs threshold Hne)
    as (c' & rest & Hrun' & _ & Hrest); [lia |].
  unfold recursive_checkpoint in Hrun. rewrite Hrun' in Hrun.
  injection Hrun as <-. exists rest. exact Hrest.
Qed.

End Checkpointing.

Lemma recursive_checkpoint_composes_witness :
  ∃ c, recursive_checkpoint [Z.succ; Z.mul 2; Z.pred] 2 = Some (Done c) ∧ run c 5 = 11.
Proof.
  destruct (recursive_checkpoint_composes [Z.succ; Z.mul 2; Z.pred] 2) as (c & Hrun & _ & Hc).
  - discriminate.
  - exists c. split; [exact Hrun |]. rewrite Hc. reflexivity.
Defined.

Lemma recursive_checkpoint_remat_prefix_witness :
  ∃ rest, rest ≠ [] ∧ [Z.succ; Z.mul 2; Z.pred; Z.opp] = ([Z.succ; Z.mul 2] ++ rest)%list.
Proof.
  destruct (recursive_checkpoint_remat_prefix [Z.succ; Z.mul 2; Z.pred; Z.opp] 2
              (Then (Remat (Then (Plain Z.succ) (Plain (Z.mul 2))))
                    (Then (Plain Z.pred) (Plain Z.opp))) eq_refl)
    as (rest & Hrest & Hsplit & _).
  exists rest. split; [exact Hrest | exact Hsplit].
Defined.

(** [named_call] never returns: its first step calls [_UNSPECIFIED], so for
    every function and every name, given or not, it raises
    [ValueError("unspecified")]; no function is ever put in a named scope. *)
Theorem named_call_always_raises (f : PyFunction) (name : option string) :
  named_call f name = Raise (ValueError "unspecified").
Proof. reflexivity. Qed.
